(** * terraform-state-wrapper: the HTTP adapter, the orchestrator and the
    file backend, embedded from [pkg/wrapper/wrapper.go] and
    [pkg/backends/file/backend.go], with what they use of the libraries of
    Go.

    Conventions of the embedding.
    - A Go [string] and a Go [[]byte] are both sequences of bytes; both are
      Rocq [string]s (sequences of 8-bit characters).  Where the code tests
      a slice against [nil], the slice is an [option string] and [None] is
      [nil].
    - A Go [error] is observed only through [Error()]: an error is its
      message, and a possibly-nil error is an [option error].
    - Methods that act on the outside world take the state they act on and
      return the new one next to their Go results. *)

From Stdlib Require Import ZArith NArith String Ascii List Bool Lia DecimalString.
From stdpp Require Import base option list strings gmap.

Local Open Scope Z_scope.
Local Open Scope string_scope.

Definition error := string.

(** The line feed [fmt.Fprintln] ends its output with. *)
Definition LF : string := String (ascii_of_nat 10) EmptyString.

(** The quote and the backslash of JSON. *)
Definition quote : ascii := ascii_of_nat 34.
Definition backslash : ascii := ascii_of_nat 92.

(** The process environment: [os.Setenv], [os.LookupEnv], [os.Environ]. *)
Module os.

Abbreviation Env := (gmap string string).

Definition LookupEnv (key : string) (env : Env) : option string := env !! key.

Fixpoint hasByte (p : ascii → bool) (s : string) : bool :=
  match s with
  | EmptyString => false
  | String c r => p c || hasByte p r
  end.

Definition isNUL (c : ascii) : bool := Ascii.eqb c (ascii_of_nat 0).
Definition isEq (c : ascii) : bool := Ascii.eqb c "="%char.

(** [syscall.Setenv]: an empty key, a key holding ['='] or NUL, and a
    value holding NUL are refused with EINVAL; otherwise the variable is
    set in the environment of the calling process. *)
Definition Setenv (key value : string) (env : Env) : Env * option error :=
  if String.eqb key "" then (env, Some "setenv: invalid argument")
  else if hasByte (λ c, isEq c || isNUL c) key then (env, Some "setenv: invalid argument")
  else if hasByte isNUL value then (env, Some "setenv: invalid argument")
  else (<[key := value]> env, None).

(** *** Files

    What the file backend can observe of one path, the only one it ever
    names.  A path the map does not list is free: nothing is there and a
    file can be created.  The map relates no two paths: what a write or a
    removal at one path means for the directory that holds it, or for
    another name of the same file, is not part of it. *)
Inductive Node :=
| Regular (readable writable : bool) (content : string)
  (* a regular file and what its mode lets this process do *)
| Faulty (delivered : string) (err : error)
  (* a regular file whose reads fail with [err] after [delivered] *)
| Directory (empty : bool)
| Orphan
  (* nothing is there and nothing can be created: the parent is missing *)
| Denied (err : error).
  (* the path cannot be examined, as when a parent is not searchable *)

Abbreviation FS := (gmap string Node).

Definition node (name : string) (fs : FS) : option Node :=
  if String.eqb name "" then Some Orphan else fs !! name.

(** The error of [os.Stat]; [StatNotExist] are the errors for which
    [errors.Is(err, os.ErrNotExist)] holds. *)
Inductive StatResult :=
| StatOk
| StatNotExist (err : error)
| StatFailed (err : error).

Definition Stat (name : string) (fs : FS) : StatResult :=
  match node name fs with
  | None | Some Orphan => StatNotExist ("stat " ++ name ++ ": no such file or directory")
  | Some (Denied e) => StatFailed ("stat " ++ name ++ ": " ++ e)
  | Some _ => StatOk
  end.

(** [os.ReadFile] returns [nil] when the file cannot be opened, and the
    bytes read so far, next to the error, when a read fails. *)
Definition ReadFile (name : string) (fs : FS) : option string * option error :=
  match node name fs with
  | None | Some Orphan => (None, Some ("open " ++ name ++ ": no such file or directory"))
  | Some (Denied e) => (None, Some ("open " ++ name ++ ": " ++ e))
  | Some (Regular true _ content) => (Some content, None)
  | Some (Regular false _ _) => (None, Some ("open " ++ name ++ ": permission denied"))
  | Some (Faulty delivered e) => (Some delivered, Some ("read " ++ name ++ ": " ++ e))
  | Some (Directory _) => (Some "", Some ("read " ++ name ++ ": is a directory"))
  end.

(** [os.WriteFile(name, data, 0644)]: create or truncate, then write. *)
Definition WriteFile (name data : string) (fs : FS) : FS * option error :=
  match node name fs with
  | None => (<[name := Regular true true data]> fs, None)
  | Some (Regular r true _) => (<[name := Regular r true data]> fs, None)
  | Some (Regular _ false _) => (fs, Some ("open " ++ name ++ ": permission denied"))
  | Some (Faulty _ e) => (fs, Some ("write " ++ name ++ ": " ++ e))
  | Some (Directory _) => (fs, Some ("open " ++ name ++ ": is a directory"))
  | Some Orphan => (fs, Some ("open " ++ name ++ ": no such file or directory"))
  | Some (Denied e) => (fs, Some ("open " ++ name ++ ": " ++ e))
  end.

Definition Remove (name : string) (fs : FS) : FS * option error :=
  match node name fs with
  | None | Some Orphan => (fs, Some ("remove " ++ name ++ ": no such file or directory"))
  | Some (Denied e) => (fs, Some ("remove " ++ name ++ ": " ++ e))
  | Some (Directory false) => (fs, Some ("remove " ++ name ++ ": directory not empty"))
  | Some _ => (delete name fs, None)
  end.

End os.

(** The part of [net/http] the handler uses. *)
Module http.

Definition StatusOK : Z := 200.
Definition StatusUnauthorized : Z := 401.
Definition StatusNotFound : Z := 404.
Definition StatusMethodNotAllowed : Z := 405.
Definition StatusConflict : Z := 409.
Definition StatusInternalServerError : Z := 500.

Definition MethodGet : string := "GET".
Definition MethodPost : string := "POST".
Definition MethodDelete : string := "DELETE".

(** What the handler reads of a request: the method, the outcome of
    [BasicAuth()] ([None] when [ok] is false), the pairs of
    [URL.Query()] in the order of the query string, and the outcome of
    [io.ReadAll(Body)]: the bytes read and the error that ended the read,
    if any. *)
Record Request := {
  Method : string;
  BasicAuth : option (string * string);
  Query : list (string * string);
  Body : string;
  BodyErr : option error;
}.

(** [url.Values.Get]: the first value of the key, [""] when there is none. *)
Fixpoint QueryGet (key : string) (q : list (string * string)) : string :=
  match q with
  | [] => ""
  | (k, v) :: q' => if String.eqb k key then v else QueryGet key q'
  end.

(** The response under construction.  [head] records that the request
    being answered is a HEAD request, whose body bytes are dropped. *)
Record ResponseWriter := {
  head : bool;
  wroteHeader : bool;
  status : Z;
  body : string;
}.

Definition newResponseWriter (r : Request) : ResponseWriter :=
  {| head := String.eqb (Method r) "HEAD"; wroteHeader := false;
     status := 0; body := "" |}.

(** The first [WriteHeader] fixes the status; a later one is logged as
    superfluous and ignored. *)
Definition WriteHeader (code : Z) (w : ResponseWriter) : ResponseWriter :=
  if wroteHeader w then w
  else {| head := head w; wroteHeader := true; status := code; body := body w |}.

Definition bodyAllowedForStatus (code : Z) : bool :=
  if ((100 <=? code) && (code <=? 199))%Z then false
  else if (code =? 204)%Z then false
  else if (code =? 304)%Z then false
  else true.

(** [Write] sends the header with 200 if none was sent, then appends. *)
Definition Write (data : string) (w : ResponseWriter) : ResponseWriter :=
  let w := if wroteHeader w then w else WriteHeader StatusOK w in
  if String.eqb data "" then w
  else if negb (bodyAllowedForStatus (status w)) then w
  else if head w then w
  else {| head := head w; wroteHeader := wroteHeader w; status := status w;
          body := body w ++ data |}.

(** [http.Error]: [WriteHeader(code)] and [fmt.Fprintln(w, error)]. *)
Definition Error (msg : string) (code : Z) (w : ResponseWriter) : ResponseWriter :=
  Write (msg ++ LF) (WriteHeader code w).

(** When the handler returns and no header was written, the server sends
    200. *)
Definition finishRequest (w : ResponseWriter) : ResponseWriter :=
  if wroteHeader w then w else WriteHeader StatusOK w.

End http.

(** [os/user]: the handler uses the display name of the current user. *)
Module user.

Record User := {
  Username : string;
  Name : string;
}.

End user.

(** [unicode/utf8]: a byte as a number, and the runes of a text.  The bit
    operations of the library are written as the divisions and remainders
    they come to. *)
Module utf8.
Local Open Scope Z_scope.

Definition byte (c : ascii) : Z := Z.of_N (N_of_ascii c).
Definition char (n : Z) : ascii := ascii_of_N (Z.to_N n).

Definition bytes (l : list Z) : string := string_of_list_ascii (map char l).

Definition RuneSelf : Z := 0x80.
Definition RuneError : Z := 0xFFFD.
Definition MaxRune : Z := 0x10FFFF.

Definition within (lo hi n : Z) : bool := (lo <=? n) && (n <=? hi).

Definition continuation (c : ascii) : bool := within 0x80 0xBF (byte c).

(** [DecodeRune]: the rune at the head of a text and the number of bytes
    it takes; [(RuneError, 1)] for a byte that starts no rune: a
    continuation byte, an encoding longer than needed, a surrogate, a rune
    above [MaxRune], or a rune cut short. *)
Definition DecodeRune (s : string) : Z * nat :=
  match s with
  | EmptyString => (RuneError, 0%nat)
  | String c0 r0 =>
      let b0 := byte c0 in
      if b0 <? RuneSelf then (b0, 1%nat)
      else if within 0xC2 0xDF b0 then
        match r0 with
        | String c1 _ =>
            if continuation c1
            then ((b0 mod 32) * 64 + byte c1 mod 64, 2%nat)
            else (RuneError, 1%nat)
        | _ => (RuneError, 1%nat)
        end
      else if within 0xE0 0xEF b0 then
        match r0 with
        | String c1 (String c2 _) =>
            if within (if b0 =? 0xE0 then 0xA0 else 0x80)
                      (if b0 =? 0xED then 0x9F else 0xBF) (byte c1)
               && continuation c2
            then ((b0 mod 16) * 4096 + (byte c1 mod 64) * 64 + byte c2 mod 64, 3%nat)
            else (RuneError, 1%nat)
        | _ => (RuneError, 1%nat)
        end
      else if within 0xF0 0xF4 b0 then
        match r0 with
        | String c1 (String c2 (String c3 _)) =>
            if within (if b0 =? 0xF0 then 0x90 else 0x80)
                      (if b0 =? 0xF4 then 0x8F else 0xBF) (byte c1)
               && continuation c2 && continuation c3
            then ((b0 mod 8) * 262144 + (byte c1 mod 64) * 4096
                  + (byte c2 mod 64) * 64 + byte c3 mod 64, 4%nat)
            else (RuneError, 1%nat)
        | _ => (RuneError, 1%nat)
        end
      else (RuneError, 1%nat)
  end.

(** [EncodeRune]; what is no rune is written as [RuneError]. *)
Definition EncodeRune (r : Z) : string :=
  if (0 <=? r) && (r <=? 0x7F) then bytes [r]
  else if (0 <=? r) && (r <=? 0x7FF) then bytes [0xC0 + r / 64; 0x80 + r mod 64]
  else if (r <? 0) || (MaxRune <? r) || within 0xD800 0xDFFF r
  then bytes [0xEF; 0xBF; 0xBD]
  else if r <=? 0xFFFF
  then bytes [0xE0 + r / 4096; 0x80 + (r / 64) mod 64; 0x80 + r mod 64]
  else bytes [0xF0 + r / 262144; 0x80 + (r / 4096) mod 64; 0x80 + (r / 64) mod 64;
              0x80 + r mod 64].

(** The text without its first byte. *)
Definition tail (s : string) : string :=
  match s with
  | EmptyString => s
  | String _ r => r
  end.

(** The text after a rune of [size] bytes, of which [rest] follows the
    first. *)
Definition after (size : nat) (rest : string) : string :=
  match size with
  | 2%nat => tail rest
  | 3%nat => tail (tail rest)
  | 4%nat => tail (tail (tail rest))
  | _ => rest
  end.

(** [ValidString]: the text is made of runes. *)
Fixpoint ValidString (s : string) : bool :=
  match s with
  | EmptyString => true
  | String c rest =>
      if byte c <? RuneSelf then ValidString rest
      else
        let '(r, size) := DecodeRune s in
        match size with
        | 2%nat => ValidString (tail rest)
        | 3%nat => ValidString (tail (tail rest))
        | 4%nat => ValidString (tail (tail (tail rest)))
        | _ => false
        end
  end.

End utf8.

(** [time]: a [Time] as what its methods [Date], [Clock], [Nanosecond] and
    [Zone] return: the calendar date and the clock in the zone of the time,
    and the offset of that zone east of UTC, in seconds.  The name of the
    zone and the monotonic clock reading are not kept; JSON carries
    neither. *)
Module time.
Local Open Scope Z_scope.
Import utf8.

Record Time := {
  year : Z;
  month : Z;
  day : Z;
  hour : Z;
  minute : Z;
  second : Z;
  nanosecond : Z;
  offset : Z;
}.

(** [Time{}]: January 1 of the year 1, 00:00:00 UTC. *)
Definition zero : Time :=
  {| year := 1; month := 1; day := 1; hour := 0; minute := 0; second := 0;
     nanosecond := 0; offset := 0 |}.

Definition isLeap (year : Z) : bool :=
  (year mod 4 =? 0) && (negb (year mod 100 =? 0) || (year mod 400 =? 0)).

Definition daysIn (month year : Z) : Z :=
  if month =? 2 then (if isLeap year then 29 else 28)
  else if (month =? 4) || (month =? 6) || (month =? 9) || (month =? 11) then 30
  else 31.

(** The fields are those of a date and a time of day. *)
Definition wellFormed (t : Time) : bool :=
  within 1 12 (month t) && within 1 (daysIn (month t) (year t)) (day t)
  && within 0 23 (hour t) && within 0 59 (minute t) && within 0 59 (second t)
  && within 0 999999999 (nanosecond t).

Definition digit (d : Z) : ascii := char (0x30 + d).

(** [appendInt(b, x, width)] for an [x] of at most [width] digits. *)
Fixpoint appendInt (x : Z) (width : nat) : list ascii :=
  match width with
  | O => []
  | S w => appendInt (x / 10) w ++ [digit (x mod 10)]
  end.

(** [appendNano] for the layout [.999999999]: nothing when the nanoseconds
    are zero, else the period and nine digits without the zeros at the
    end. *)
Fixpoint trimmed (x : Z) (width : nat) : list ascii :=
  match width with
  | O => []
  | S w => if x mod 10 =? 0 then trimmed (x / 10) w else appendInt x width
  end.

Definition appendNano (nanosec : Z) : list ascii :=
  if nanosec =? 0 then [] else "."%char :: trimmed nanosec 9.

Definition appendZone (offset : Z) : list ascii :=
  if offset =? 0 then ["Z"%char]
  else
    let zone := Z.quot offset 60 in
    (if zone <? 0 then "-"%char else "+"%char)
    :: appendInt (Z.abs zone / 60) 2 ++ ":"%char :: appendInt (Z.abs zone mod 60) 2.

(** [Time.appendFormatRFC3339] with nanoseconds. *)
Definition appendFormatRFC3339 (t : Time) : list ascii :=
  appendInt (year t) 4 ++ "-"%char :: appendInt (month t) 2 ++ "-"%char
  :: appendInt (day t) 2 ++ "T"%char :: appendInt (hour t) 2 ++ ":"%char
  :: appendInt (minute t) 2 ++ ":"%char :: appendInt (second t) 2
  ++ appendNano (nanosecond t) ++ appendZone (offset t).

Inductive FormatError :=
| YearRange  (* year outside of range [0,9999] *)
| ZoneRange. (* timezone hour outside of range [0,23] *)

(** [Time.appendStrictRFC3339]: only the years RFC 3339 has four digits
    for, and the offsets whose hours it has two digits for. *)
Definition appendStrictRFC3339 (t : Time) : FormatError + list ascii :=
  if negb (within 0 9999 (year t)) then inl YearRange
  else if 23 <? Z.abs (Z.quot (offset t) 60) / 60 then inl ZoneRange
  else inr (appendFormatRFC3339 t).

Definition MarshalJSON (t : Time) : FormatError + string :=
  match appendStrictRFC3339 t with
  | inl e => inl e
  | inr text => inr (string_of_list_ascii (quote :: text ++ [quote]))
  end.

Definition isDigit (c : ascii) : bool := within 0x30 0x39 (byte c).

Definition atoi (s : list ascii) : Z := fold_left (λ x c, x * 10 + (byte c - 0x30)) s 0.

(** The closure [parseUint] of [parseRFC3339]. *)
Definition parseUint (s : list ascii) (min max : Z) : option Z :=
  if forallb isDigit s && within min max (atoi s) then Some (atoi s) else None.

Fixpoint span (p : ascii → bool) (s : list ascii) : list ascii * list ascii :=
  match s with
  | c :: rest => if p c then let '(yes, no) := span p rest in (c :: yes, no) else ([], s)
  | [] => ([], [])
  end.

(** [parseNanoseconds] on the digits that follow the period: the first
    nine count. *)
Definition parseNanoseconds (digits : list ascii) : Z :=
  let digits := take 9 digits in
  atoi digits * 10 ^ (9 - Z.of_nat (length digits)).

(** [parseRFC3339]: the layout [2006-01-02T15:04:05], then a fraction of a
    second if there is one, then [Z] or an offset such as [+07:00]. *)
Definition parseRFC3339 (s : list ascii) : option Time :=
  match s with
  | y1 :: y2 :: y3 :: y4 :: dash1 :: m1 :: m2 :: dash2 :: d1 :: d2 :: T
      :: h1 :: h2 :: colon1 :: n1 :: n2 :: colon2 :: s1 :: s2 :: rest =>
      year ← parseUint [y1; y2; y3; y4] 0 9999;
      month ← parseUint [m1; m2] 1 12;
      day ← parseUint [d1; d2] 1 (daysIn month year);
      hour ← parseUint [h1; h2] 0 23;
      min ← parseUint [n1; n2] 0 59;
      sec ← parseUint [s1; s2] 0 59;
      if Ascii.eqb dash1 "-" && Ascii.eqb dash2 "-" && Ascii.eqb T "T"
         && Ascii.eqb colon1 ":" && Ascii.eqb colon2 ":"
      then
        let '(nsec, rest) :=
          match rest with
          | period :: d :: _ =>
              if Ascii.eqb period "." && isDigit d
              then let '(digits, rest') := span isDigit (List.tl rest) in
                   (parseNanoseconds digits, rest')
              else (0, rest)
          | _ => (0, rest)
          end in
        let t offset :=
          {| year := year; month := month; day := day; hour := hour; minute := min;
             second := sec; nanosecond := nsec; offset := offset |} in
        match rest with
        | [z] => if Ascii.eqb z "Z" then Some (t 0) else None
        | [sign; z1; z2; colon; z3; z4] =>
            hr ← parseUint [z1; z2] 0 23;
            mm ← parseUint [z3; z4] 0 59;
            if (Ascii.eqb sign "-" || Ascii.eqb sign "+") && Ascii.eqb colon ":"
            then let zoneOffset := (hr * 60 + mm) * 60 in
                 Some (t (if Ascii.eqb sign "-" then - zoneOffset else zoneOffset))
            else None
        | _ => None
        end
      else None
  | _ => None
  end.

Inductive UnmarshalError :=
| NotAString            (* Time.UnmarshalJSON: input is not a JSON string *)
| ParseError (err : error).

(** What stands between the quotes of [data], when it has at least two
    bytes, the first and the last of them quotes. *)
Definition unquoted (data : list ascii) : option (list ascii) :=
  match data with
  | first :: rest =>
      match rev rest with
      | last :: inner =>
          if Ascii.eqb first quote && Ascii.eqb last quote then Some (rev inner) else None
      | [] => None
      end
  | [] => None
  end.

(** [Time.UnmarshalJSON].  [Parse] is [time.Parse] with the layout
    [time.RFC3339], which is tried on a text [parseRFC3339] refuses.  A text
    that cannot be parsed leaves the zero time. *)
Definition UnmarshalJSON (Parse : string → error + Time) (data : string) (t : Time)
    : Time * option UnmarshalError :=
  if String.eqb data "null" then (t, None)
  else
    match unquoted (list_ascii_of_string data) with
    | None => (t, Some NotAString)
    | Some inner =>
        match parseRFC3339 inner with
        | Some t' => (t', None)
        | None =>
            match Parse (string_of_list_ascii inner) with
            | inr t' => (t', None)
            | inl err => (zero, Some (ParseError err))
            end
        end
    end.

(** The times RFC 3339 can write: a year of four digits and an offset of
    whole minutes, less than a day. *)
Definition isRFC3339 (t : Time) : bool :=
  wellFormed t && within 0 9999 (year t)
  && (offset t mod 60 =? 0) && within (-86399) 86399 (offset t).

End time.

(** [encoding/json].  The handler decodes and encodes through a codec of
    the type, which is a parameter of its embedding.  What follows the class
    is what the codec of [LockInfo] is made of, as the library stands since
    Go 1.22: the encoder of strings, the scanner that tells whether a text is
    JSON, and what the decoder uses to walk a text the scanner accepted. *)
Module json.
Local Open Scope Z_scope.
Import utf8.

Class Codec (T : Type) := {
  Unmarshal : string → T → T * option error;
  Marshal : T → string * option error;
}.

(** The digit of a number below sixteen. *)
Definition hex (n : Z) : ascii :=
  match String.get (Z.to_nat n) "0123456789abcdef" with
  | Some c => c
  | None => "0"%char
  end.

(** ** The encoder of strings, with the escaping of HTML on *)

(** [htmlSafeSet]: the bytes from the space on that need no escape. *)
Definition htmlSafe (b : Z) : bool :=
  within 0x20 0x7F b
  && negb ((b =? 0x22) || (b =? 0x26) || (b =? 0x3C) || (b =? 0x3E) || (b =? 0x5C)).

(** What [appendString] writes for a byte below [utf8.RuneSelf]. *)
Definition escape (c : ascii) : string :=
  let b := byte c in
  if htmlSafe b then String c ""
  else if (b =? 0x5C) || (b =? 0x22) then String backslash (String c "")
  else if b =? 0x08 then String backslash "b"
  else if b =? 0x0C then String backslash "f"
  else if b =? 0x0A then String backslash "n"
  else if b =? 0x0D then String backslash "r"
  else if b =? 0x09 then String backslash "t"
  else String backslash ("u00" ++ String (hex (b / 16)) (String (hex (b mod 16)) "")).

(** The first bytes of a string. *)
Fixpoint first (size : nat) (s : string) : string :=
  match size, s with
  | S n, String c rest => String c (first n rest)
  | _, _ => ""
  end.

(** [appendString] without the quotes around the result: a byte that is
    not UTF-8 becomes the escape of U+FFFD, and U+2028 and U+2029 are escaped
    as well. *)
Fixpoint appendString (src : string) : string :=
  match src with
  | EmptyString => ""
  | String c rest =>
      if byte c <? RuneSelf then escape c ++ appendString rest
      else
        let '(r, size) := DecodeRune src in
        if (r =? RuneError) && (size =? 1)%nat
        then String backslash "ufffd" ++ appendString rest
        else if (r =? 0x2028) || (r =? 0x2029)
        then String backslash ("u202" ++ String (hex (r mod 16)) "")
             ++ appendString (after size rest)
        else first size src ++ appendString (after size rest)
  end.

(** A text between quotes. *)
Definition quoted (s : string) : string := String quote (s ++ String quote "").

(** ** The scanner

    The state of the scanner is the step it is at, one for each of the
    functions [stateBeginValue], [stateInString] and so on, and the stack
    [parseState] of the objects and arrays it is in, the innermost first.
    [Word] is a literal [true], [false] or [null] of which some letters are
    still to come. *)

Inductive ParseState := ObjectKey | ObjectValue | ArrayValue.

Inductive Step :=
| BeginValue | BeginValueOrEmpty | BeginStringOrEmpty | BeginString
| EndValue | EndTop
| InString | InStringEsc | InStringEscU (more : nat)
| Neg | Num1 | Num0 | Dot | Dot0 | Exp | ExpSign | Exp0
| Word (more : list ascii).

Record Scanner := {
  step : Step;
  parseState : list ParseState;
}.

Definition maxNestingDepth : Z := 10000.

Definition isSpace (c : ascii) : bool :=
  let b := byte c in (b =? 0x20) || (b =? 0x09) || (b =? 0x0D) || (b =? 0x0A).

Definition isDigit (c : ascii) : bool := within 0x30 0x39 (byte c).

Definition isHex (c : ascii) : bool :=
  let b := byte c in within 0x30 0x39 b || within 0x61 0x66 b || within 0x41 0x46 b.

Definition to (st : Step) (ps : list ParseState) : option Scanner :=
  Some {| step := st; parseState := ps |}.

(** A text that is nested deeper than [maxNestingDepth] is refused. *)
Definition pushParseState (new : ParseState) (ps : list ParseState) (st : Step) : option Scanner :=
  if Z.of_nat (length (new :: ps)) <=? maxNestingDepth then to st (new :: ps) else None.

Definition popParseState (ps : list ParseState) : option Scanner :=
  match ps with
  | [] => to EndTop []
  | _ :: _ => to EndValue ps
  end.

(** After a value: at the top only spaces may follow; in an object or an
    array, what separates or closes. *)
Definition stateEndValue (ps : list ParseState) (c : ascii) : option Scanner :=
  match ps with
  | [] => if isSpace c then to EndTop [] else None
  | top :: below =>
      if isSpace c then to EndValue ps
      else
        match top with
        | ObjectKey =>
            if Ascii.eqb c ":" then to BeginValue (ObjectValue :: below) else None
        | ObjectValue =>
            if Ascii.eqb c "," then to BeginString (ObjectKey :: below)
            else if Ascii.eqb c "}" then popParseState below
            else None
        | ArrayValue =>
            if Ascii.eqb c "," then to BeginValue ps
            else if Ascii.eqb c "]" then popParseState below
            else None
        end
  end.

Definition stateBeginValue (ps : list ParseState) (c : ascii) : option Scanner :=
  if isSpace c then to BeginValue ps
  else if Ascii.eqb c "{" then pushParseState ObjectKey ps BeginStringOrEmpty
  else if Ascii.eqb c "[" then pushParseState ArrayValue ps BeginValueOrEmpty
  else if Ascii.eqb c quote then to InString ps
  else if Ascii.eqb c "-" then to Neg ps
  else if Ascii.eqb c "0" then to Num0 ps
  else if Ascii.eqb c "t" then to (Word ["r"; "u"; "e"]%char) ps
  else if Ascii.eqb c "f" then to (Word ["a"; "l"; "s"; "e"]%char) ps
  else if Ascii.eqb c "n" then to (Word ["u"; "l"; "l"]%char) ps
  else if within 0x31 0x39 (byte c) then to Num1 ps
  else None.

Definition stateBeginString (ps : list ParseState) (c : ascii) : option Scanner :=
  if isSpace c then to BeginString ps
  else if Ascii.eqb c quote then to InString ps
  else None.

Definition state0 (ps : list ParseState) (c : ascii) : option Scanner :=
  if Ascii.eqb c "." then to Dot ps
  else if Ascii.eqb c "e" || Ascii.eqb c "E" then to Exp ps
  else stateEndValue ps c.

Definition stateESign (ps : list ParseState) (c : ascii) : option Scanner :=
  if isDigit c then to Exp0 ps else None.

(** One byte: the next state of the scanner, or [None] for a byte that
    cannot come here. *)
Definition scan (s : Scanner) (c : ascii) : option Scanner :=
  let ps := parseState s in
  match step s with
  | BeginValue => stateBeginValue ps c
  | BeginValueOrEmpty =>
      if isSpace c then to BeginValueOrEmpty ps
      else if Ascii.eqb c "]" then stateEndValue ps c
      else stateBeginValue ps c
  | BeginStringOrEmpty =>
      if isSpace c then to BeginStringOrEmpty ps
      else if Ascii.eqb c "}"
      then match ps with
           | _ :: below => stateEndValue (ObjectValue :: below) c
           | [] => None
           end
      else stateBeginString ps c
  | BeginString => stateBeginString ps c
  | EndValue => stateEndValue ps c
  | EndTop => if isSpace c then to EndTop ps else None
  | InString =>
      if Ascii.eqb c quote then to EndValue ps
      else if Ascii.eqb c backslash then to InStringEsc ps
      else if byte c <? 0x20 then None
      else to InString ps
  | InStringEsc =>
      if Ascii.eqb c "b" || Ascii.eqb c "f" || Ascii.eqb c "n" || Ascii.eqb c "r"
         || Ascii.eqb c "t" || Ascii.eqb c backslash || Ascii.eqb c "/"
         || Ascii.eqb c quote
      then to InString ps
      else if Ascii.eqb c "u" then to (InStringEscU 4) ps
      else None
  | InStringEscU more =>
      if isHex c
      then match more with
           | S (S n) => to (InStringEscU (S n)) ps
           | _ => to InString ps
           end
      else None
  | Neg =>
      if Ascii.eqb c "0" then to Num0 ps
      else if within 0x31 0x39 (byte c) then to Num1 ps
      else None
  | Num1 => if isDigit c then to Num1 ps else state0 ps c
  | Num0 => state0 ps c
  | Dot => if isDigit c then to Dot0 ps else None
  | Dot0 =>
      if isDigit c then to Dot0 ps
      else if Ascii.eqb c "e" || Ascii.eqb c "E" then to Exp ps
      else stateEndValue ps c
  | Exp => if Ascii.eqb c "+" || Ascii.eqb c "-" then to ExpSign ps else stateESign ps c
  | ExpSign => stateESign ps c
  | Exp0 => if isDigit c then to Exp0 ps else stateEndValue ps c
  | Word more =>
      match more with
      | [] => None
      | [x] => if Ascii.eqb c x then to EndValue ps else None
      | x :: more => if Ascii.eqb c x then to (Word more) ps else None
      end
  end.

Fixpoint scanAll (s : Scanner) (data : string) : option Scanner :=
  match data with
  | EmptyString => Some s
  | String c rest =>
      match scan s c with
      | Some s' => scanAll s' rest
      | None => None
      end
  end.

(** [checkValid]: every byte is taken, and at the end of the text the top
    value is complete, if need be after one more space. *)
Definition checkValid (data : string) : bool :=
  match scanAll {| step := BeginValue; parseState := [] |} data with
  | None => false
  | Some s =>
      match step s with
      | EndTop => true
      | _ =>
          match scan s " " with
          | Some {| step := EndTop |} => true
          | _ => false
          end
      end
  end.

(** ** Walking a text the scanner accepted *)

(** [scanWhile(scanSkipSpace)]. *)
Fixpoint skipSpace (s : string) : string :=
  match s with
  | String c rest => if isSpace c then skipSpace rest else s
  | EmptyString => s
  end.

(** The bytes of a string literal between its quotes, as written, and the
    text after the closing quote; the text starts after the opening
    quote. *)
Fixpoint literal (s : string) : option (string * string) :=
  match s with
  | EmptyString => None
  | String c rest =>
      if Ascii.eqb c quote then Some ("", rest)
      else if Ascii.eqb c backslash
      then match rest with
           | String e rest' =>
               match literal rest' with
               | Some (raw, after) => Some (String c (String e raw), after)
               | None => None
               end
           | EmptyString => None
           end
      else match literal rest with
           | Some (raw, after) => Some (String c raw, after)
           | None => None
           end
  end.

(** The text after the bracket that closes the array or object the text is
    in, [depth] levels down. *)
Fixpoint closing (depth : nat) (inString escaped : bool) (s : string) : option string :=
  match s with
  | EmptyString => None
  | String c rest =>
      if inString then
        if escaped then closing depth true false rest
        else if Ascii.eqb c backslash then closing depth true true rest
        else if Ascii.eqb c quote then closing depth false false rest
        else closing depth true false rest
      else if Ascii.eqb c quote then closing depth true false rest
      else if Ascii.eqb c "{" || Ascii.eqb c "[" then closing (S depth) false false rest
      else if Ascii.eqb c "}" || Ascii.eqb c "]"
      then match depth with
           | O => Some rest
           | S depth' => closing depth' false false rest
           end
      else closing depth false false rest
  end.

(** A number or one of [true], [false] and [null], and the text after
    it. *)
Fixpoint scalar (s : string) : string * string :=
  match s with
  | EmptyString => ("", "")
  | String c rest =>
      if isSpace c || Ascii.eqb c "," || Ascii.eqb c "}" || Ascii.eqb c "]"
      then ("", s)
      else let '(word, after) := scalar rest in (String c word, after)
  end.

(** [getu4] on the four bytes after [\u]. *)
Definition hexValue (c : ascii) : option Z :=
  let b := byte c in
  if within 0x30 0x39 b then Some (b - 0x30)
  else if within 0x61 0x66 b then Some (b - 0x61 + 10)
  else if within 0x41 0x46 b then Some (b - 0x41 + 10)
  else None.

Definition getu4 (s : string) : option Z :=
  match s with
  | String h1 (String h2 (String h3 (String h4 _))) =>
      a ← hexValue h1; b ← hexValue h2; c ← hexValue h3; d ← hexValue h4;
      Some (((a * 16 + b) * 16 + c) * 16 + d)
  | _ => None
  end.

Definition isSurrogate (r : Z) : bool := within 0xD800 0xDFFF r.

(** [utf16.DecodeRune]. *)
Definition decodeSurrogates (r1 r2 : Z) : Z :=
  if within 0xD800 0xDBFF r1 && within 0xDC00 0xDFFF r2
  then (r1 - 0xD800) * 1024 + (r2 - 0xDC00) + 0x10000
  else RuneError.

Definition prepend (s : string) (r : option string) : option string :=
  match r with
  | Some t => Some (s ++ t)
  | None => None
  end.

(** [unquoteBytes] on what stands between the quotes: the escapes are
    replaced by what they stand for, and bytes that are not UTF-8 by
    U+FFFD. *)
Fixpoint unquote (s : string) : option string :=
  match s with
  | EmptyString => Some ""
  | String c rest =>
      if Ascii.eqb c backslash then
        match rest with
        | EmptyString => None
        | String e rest1 =>
            if Ascii.eqb e quote || Ascii.eqb e backslash || Ascii.eqb e "/"
               || Ascii.eqb e "'"
            then prepend (String e "") (unquote rest1)
            else if Ascii.eqb e "b" then prepend (bytes [0x08]) (unquote rest1)
            else if Ascii.eqb e "f" then prepend (bytes [0x0C]) (unquote rest1)
            else if Ascii.eqb e "n" then prepend (bytes [0x0A]) (unquote rest1)
            else if Ascii.eqb e "r" then prepend (bytes [0x0D]) (unquote rest1)
            else if Ascii.eqb e "t" then prepend (bytes [0x09]) (unquote rest1)
            else if Ascii.eqb e "u" then
              match getu4 rest1 with
              | None => None
              | Some rr =>
                  let rest5 := tail (tail (tail (tail rest1))) in
                  if isSurrogate rr then
                    let low :=
                      match rest5 with
                      | String b1 (String u1 rest7) =>
                          if Ascii.eqb b1 backslash && Ascii.eqb u1 "u"
                          then getu4 rest7 else None
                      | _ => None
                      end in
                    match low with
                    | Some rr1 =>
                        if decodeSurrogates rr rr1 =? RuneError
                        then prepend (EncodeRune RuneError) (unquote rest5)
                        else prepend (EncodeRune (decodeSurrogates rr rr1))
                               (unquote (tail (tail (tail (tail (tail (tail rest5)))))))
                    | None => prepend (EncodeRune RuneError) (unquote rest5)
                    end
                  else prepend (EncodeRune rr) (unquote rest5)
              end
            else None
        end
      else if Ascii.eqb c quote || (byte c <? 0x20) then None
      else if byte c <? RuneSelf then prepend (String c "") (unquote rest)
      else
        let '(rr, size) := DecodeRune s in
        prepend (EncodeRune rr) (unquote (after size rest))
  end.

(** ** What is not modelled

    The texts of the errors, which [Error] stands for, and [time.Parse]
    with the layout [time.RFC3339], which [Time.UnmarshalJSON] falls back on
    for a text [parseRFC3339] refuses.  Nothing is assumed of either. *)
Inductive Failure :=
| SyntaxError (data : string)
  (* [*json.SyntaxError]: the text is not JSON *)
| UnmarshalTypeError (value field : string)
  (* [*json.UnmarshalTypeError]: a JSON value of this kind cannot be
     stored in this field, or in the struct when no field is named *)
| MarshalerError (e : time.FormatError)
  (* [*json.MarshalerError] around the error of [Time.MarshalJSON] *)
| NotAString
  (* Time.UnmarshalJSON: input is not a JSON string *)
| OutOfSync.
  (* the decoder met what the scanner cannot have accepted *)

Class Library := {
  Error : Failure → error;
  Parse : string → error + time.Time;
}.

End json.

(** [net/url]: a URL made of a scheme, a host and a path that needs no
    escaping prints as [scheme://host/path]. *)
Module url.

Record URL := {
  Scheme : string;
  Host : string;
  Path : string;
}.

Definition String (u : URL) : string := Scheme u ++ "://" ++ Host u ++ Path u.

End url.

(** [os/exec]: how a child process ends, and what [Cmd.Run] reports. *)
Module exec.

(** The child ran and exited with a status, or was ended by a signal, or
    could not be started or waited for. *)
Inductive Child :=
| Exited (status : Z)
| Signaled
| Failed (err : error).

(** A non-nil error of [Run]: an [*ExitError] with its [ExitCode()], or
    another error. *)
Inductive RunError :=
| ExitError (exitCode : Z)
| OtherError (err : error).

(** [Run] returns nil when the command exited with status zero, an
    [*ExitError] when it started but did not succeed, whose [ExitCode()] is
    the status, or -1 after a signal; other failures are other errors. *)
Definition Run (c : Child) : option RunError :=
  match c with
  | Exited status => if (status =? 0)%Z then None else Some (ExitError status)
  | Signaled => Some (ExitError (-1))
  | Failed err => Some (OtherError err)
  end.

End exec.

Module wrapper.

Record LockInfo := {
  ID : string;
  Operation : string;
  Info : string;
  Who : string;
  Version : string;
  Created : time.Time;
  Path : string;
}.

(** [LockInfo{}]. *)
Definition zeroLockInfo : LockInfo :=
  {| ID := ""; Operation := ""; Info := ""; Who := ""; Version := "";
     Created := time.zero; Path := "" |}.

(** The [Backend] interface.  [B] holds all a backend acts on; [Config]
    also sees the environment of the process. *)
Class Backend (B : Type) := {
  Config : os.Env → B → B * option error;
  Get : B → B * (option string * option error);
  Set_ : string → string → string → B → B * option error;
  Delete : B → B * option error;
  Lock : LockInfo → B → B * (bool * LockInfo * option error);
  UnLock : LockInfo → B → B * option error;
  Lockable : B → bool;
}.

(** ** createListener *)

(** [net.Listen("tcp", "127.0.0.1:0")] either fails or binds a port the
    system chose.  A listener accepts connections on its port until it is
    closed; its address can still be read then. *)
Inductive Listener :=
| TCPListener (port : N)
| Closed (port : N).

(** The port of the address [l.Addr()], and [l.Close()]. *)
Definition Port (l : Listener) : N :=
  match l with
  | TCPListener port | Closed port => port
  end.

Definition Close (l : Listener) : Listener := Closed (Port l).

(** The second result of [createListener], the closure that closes the
    listener, is [closeListener] below: it acts on the listener the process
    holds. *)
Definition createListener (listen : error + N) : option Listener * option error :=
  match listen with
  | inl err => (None, Some err)
  | inr port => (Some (TCPListener port), None)
  end.

(** ** randSeq *)

Definition letters : list ascii :=
  list_ascii_of_string "abcdefghijklmnopqrstuvwxyzABCDEFGHIJKLMNOPQRSTUVWXYZ".

(** [*rand.Rand]: [Intn n] draws from the half-open interval [[0,n)] for
    a positive [n] and advances the generator. *)
Record Rand := {
  source : Type;
  Intn : nat → source → nat * source;
  Intn_range : ∀ n s, (0 < n)%nat → (fst (Intn n s) < n)%nat;
}.

(** The loop of [randSeq] over the [n] cells of [b]; [letters[k]] panics
    when [k] is out of range, which is [None] here. *)
Fixpoint randRunes (r : Rand) (n : nat) (seed : source r) : option (list ascii) :=
  match n with
  | O => Some []
  | S n' =>
      let '(k, seed') := Intn r (length letters) seed in
      match letters !! k with
      | None => None
      | Some c =>
          match randRunes r n' seed' with
          | None => None
          | Some b => Some (c :: b)
          end
      end
  end.

Definition randSeq (r : Rand) (n : nat) (seed : source r) : option string :=
  match randRunes r n seed with
  | None => None
  | Some b => Some (string_of_list_ascii b)
  end.

(** ** backendHandler *)

(** The calls a request makes on the backend, in order. *)
Inductive Call :=
| CallGet
| CallSet (data lockID comment : string)
| CallDelete
| CallLock (lockData : LockInfo)
| CallUnLock (lockData : LockInfo)
| CallLockable.

(** What a running handler acts on: the backend, the response writer and
    the record of the backend calls made so far. *)
Record State (B : Type) := mkState {
  backend : B;
  writer : http.ResponseWriter;
  calls : list Call;
}.
Arguments mkState {B}.
Arguments backend {B}.
Arguments writer {B}.
Arguments calls {B}.

Definition Handler (B A : Type) : Type := State B → A * State B.

#[export] Instance handler_ret {B} : MRet (Handler B) := λ A a s, (a, s).

#[export] Instance handler_bind {B} : MBind (Handler B) :=
  λ A C k m s, let '(a, s') := m s in k a s'.

Section Handler.
Context {B : Type} `{!Backend B} `{!json.Codec LockInfo}.

Definition onWriter (f : http.ResponseWriter → http.ResponseWriter) : Handler B unit :=
  λ s, (tt, mkState (backend s) (f (writer s)) (calls s)).

Definition onBackend {A} (c : Call) (f : B → B * A) : Handler B A :=
  λ s, let '(b', a) := f (backend s) in
       (a, mkState b' (writer s) (calls s ++ [c])).

Definition skip : Handler B unit := mret tt.

(** The closure [returnError] of the handler, applied when [err] is not
    nil. *)
Definition returnError (err : error) : Handler B unit :=
  onWriter (http.Error err http.StatusInternalServerError).

Definition ifErr (err : option error) (k : error → Handler B unit) : Handler B unit :=
  match err with
  | Some e => k e
  | None => skip
  end.

Definition invalidMethod : Handler B unit :=
  onWriter (http.Error "invalid method" http.StatusMethodNotAllowed).

(** The function [backendHandler] returns, in the two parts it runs one
    after the other: the check of the credentials, which answers 401 and
    does not return, and the dispatch on the method.  Each branch of the
    first [switch] ends in [return]; the code after it runs only for the
    other methods. *)
Definition checkAuth (authUser authPassword : string) (request : http.Request)
    : Handler B unit :=
  let '(userRequest, passwordRequest, ok) :=
    match http.BasicAuth request with
    | Some (u, p) => (u, p, true)
    | None => ("", "", false)
    end in
  if negb ok || negb (String.eqb userRequest authUser)
     || negb (String.eqb passwordRequest authPassword)
  then onWriter (http.Error "Unauthorized" http.StatusUnauthorized)
  else skip.

Definition dispatch (comment : string) (request : http.Request) : Handler B unit :=
  if String.eqb (http.Method request) http.MethodGet then
    r ← onBackend CallGet Get;
    let '(data, err) := r in
    ifErr err returnError ;;
    match data with
    | None => onWriter (http.WriteHeader http.StatusNotFound)
    | Some data =>
        onWriter (http.WriteHeader http.StatusOK) ;;
        onWriter (http.Write data)
    end
  else if String.eqb (http.Method request) http.MethodPost then
    let '(data, err) := (http.Body request, http.BodyErr request) in
    ifErr err returnError ;;
    let lockId := http.QueryGet "ID" (http.Query request) in
    err ← onBackend (CallSet data lockId comment) (Set_ data lockId comment);
    ifErr err returnError ;;
    onWriter (http.WriteHeader http.StatusOK)
  else if String.eqb (http.Method request) http.MethodDelete then
    err ← onBackend CallDelete Delete;
    ifErr err returnError ;;
    onWriter (http.WriteHeader http.StatusOK)
  else
    lockable ← onBackend CallLockable (λ b, (b, Lockable b));
    if lockable : bool then
      if String.eqb (http.Method request) "LOCK"
         || String.eqb (http.Method request) "UNLOCK" then
        let '(data, err) := (http.Body request, http.BodyErr request) in
        ifErr err returnError ;;
        let '(lockData, err) := json.Unmarshal data zeroLockInfo in
        ifErr err returnError ;;
        (if String.eqb (http.Method request) "LOCK" then
           r ← onBackend (CallLock lockData) (Lock lockData);
           let '(ok, lock, err) := r in
           ifErr err returnError ;;
           if negb ok then
             let '(data, err) := json.Marshal lock in
             ifErr err returnError ;;
             onWriter (http.WriteHeader http.StatusConflict) ;;
             onWriter (http.Write data)
           else skip
         else
           err ← onBackend (CallUnLock lockData) (UnLock lockData);
           ifErr err returnError) ;;
        onWriter (http.WriteHeader http.StatusOK)
      else invalidMethod
    else invalidMethod.

Definition serveHTTP (comment authUser authPassword : string)
    (request : http.Request) : Handler B unit :=
  checkAuth authUser authPassword request;;
  dispatch comment request.

(** [backendHandler]: [user.Current()] is asked once, its error is
    dropped, and [systemUser.Name] is read; with no user that is a nil
    dereference, [None] here. *)
Definition backendHandler (systemUser : option user.User)
    (action authUser authPassword : string)
    : option (http.Request → Handler B unit) :=
  match systemUser with
  | None => None
  | Some systemUser =>
      let comment :=
        "updated with terraform '" ++ action ++ "' by '" ++ user.Name systemUser ++ "'" in
      Some (serveHTTP comment authUser authPassword)
  end.

(** The server runs the handler on a fresh writer and completes the
    response when it returns. *)
Record Response := {
  code : Z;
  payload : string;
}.

Definition serve (h : http.Request → Handler B unit) (request : http.Request) (b : B)
    : Response * B * list Call :=
  let '(_, s) := h request (mkState b (http.newResponseWriter request) []) in
  let w := http.finishRequest (writer s) in
  ({| code := http.status w; payload := http.body w |}, backend s, calls s).

End Handler.

(** ** Wrap *)

(** How the process ends: [os.Exit(code)], [log.Fatal(msg)] (which logs the
    message and exits with status 1), or a run-time panic. *)
Inductive Exit :=
| ExitCode (code : Z)
| Fatal (msg : string)
| Panic.

(** The loop of [Wrap] that picks [terraformAction]. *)
Fixpoint terraformAction (args : list string) : string :=
  match args with
  | [] => ""
  | arg :: rest =>
      match arg with
      | EmptyString => terraformAction rest
      | String c _ => if Ascii.eqb c "-" then terraformAction rest else arg
      end
  end.

(** [fmt.Sprintf("%d", port)] for a port number. *)
Definition itoa (n : N) : string := NilEmpty.string_of_uint (N.to_uint n).

Section Wrap.
Context {B : Type} `{!Backend B} `{!json.Codec LockInfo} (r : Rand).

(** What [Wrap] finds outside the program: the environment the process
    starts with, the outcome of [net.Listen], the generator seeded from the
    clock, [user.Current()], and what launching a command with a given
    environment comes to. *)
Record World := {
  environ : os.Env;
  listen : error + N;
  clock : source r;
  currentUser : option user.User;
  spawn : list string → os.Env → exec.Child;
}.

(** The state of the wrapper process: its environment, the backend, the
    listener, the handler the server goroutine serves at [/backend], and
    the command started with the environment it inherited.  The requests
    the goroutine serves while the child runs are those of [serve]. *)
Record Process := mkProcess {
  env : os.Env;
  store : B;
  listener : option Listener;
  serving : option (http.Request → Handler B unit);
  started : option (list string * os.Env);
}.

(** A step of [Wrap] either goes on with a value or ends the process. *)
Definition Proc (A : Type) : Type := Process → (Exit + A) * Process.

#[export] Instance proc_ret : MRet Proc := λ A a p, (inr a, p).

#[export] Instance proc_bind : MBind Proc :=
  λ A C k m p,
    match m p with
    | (inl e, p') => (inl e, p')
    | (inr a, p') => k a p'
    end.

Definition logFatal {A} (msg : string) : Proc A := λ p, (inl (Fatal msg), p).
Definition osExit {A} (code : Z) : Proc A := λ p, (inl (ExitCode code), p).
Definition panic {A} : Proc A := λ p, (inl Panic, p).

Definition fatalIf (err : option error) : Proc unit :=
  match err with
  | Some e => logFatal e
  | None => mret tt
  end.

Definition Setenv (key value : string) : Proc (option error) :=
  λ p, let '(env', err) := os.Setenv key value (env p) in
       (inr err, mkProcess env' (store p) (listener p) (serving p) (started p)).

Definition runConfig : Proc (option error) :=
  λ p, let '(b', err) := Config (env p) (store p) in
       (inr err, mkProcess (env p) b' (listener p) (serving p) (started p)).

Definition setListener (l : Listener) : Proc unit :=
  λ p, (inr tt, mkProcess (env p) (store p) (Some l) (serving p) (started p)).

Definition goServe (h : http.Request → Handler B unit) : Proc unit :=
  λ p, (inr tt, mkProcess (env p) (store p) (listener p) (Some h) (started p)).

(** [terraform.Run()]: the child is started with [os.Environ()] as it is at
    that moment. *)
Definition runCommand (w : World) (args : list string) : Proc (option exec.RunError) :=
  λ p, (inr (exec.Run (spawn w args (env p))),
        mkProcess (env p) (store p) (listener p) (serving p) (Some (args, env p))).

Definition isLockable : Proc bool := λ p, (inr (Lockable (store p)), p).

(** The closure [closeListener]: [_ = l.Close()]. *)
Definition closeListener (p : Process) : Process :=
  mkProcess (env p) (store p) (Close <$> listener p) (serving p) (started p).

(** [defer f()] before the rest of a function body: [f] runs when the body
    returns and when it panics, while the stack unwinds.  It does not run
    when the body ends the process with [os.Exit], which [log.Fatal] calls
    too. *)
Definition defer {A} (f : Process → Process) (body : Proc A) : Proc A :=
  λ p,
    match body p with
    | (inr a, p') => (inr a, f p')
    | (inl Panic, p') => (inl Panic, f p')
    | (inl (ExitCode code), p') => (inl (ExitCode code), p')
    | (inl (Fatal msg), p') => (inl (Fatal msg), p')
    end.

Definition Wrap (w : World) (args : list string) : Proc unit :=
  err ← runConfig;
  fatalIf err;;
  let terraformAction := terraformAction args in
  let '(listener, err) := createListener (listen w) in
  fatalIf err;;
  match listener with
  | None => panic
  | Some l =>
      setListener l;;
      defer closeListener (
      let backendUrl :=
        {| url.Scheme := "http"; url.Host := "127.0.0.1:" ++ itoa (Port l);
           url.Path := "/backend" |} in
      let authUser := "auth" in
      match randSeq r 32 (clock w) with
      | None => panic
      | Some authPassword =>
          match backendHandler (currentUser w) terraformAction authUser authPassword with
          | None => panic
          | Some h =>
              goServe h;;
              err ← Setenv "TF_HTTP_ADDRESS" (url.String backendUrl);
              fatalIf err;;
              err ← Setenv "TF_HTTP_USERNAME" authUser;
              fatalIf err;;
              err ← Setenv "TF_HTTP_PASSWORD" authPassword;
              fatalIf err;;
              lockable ← isLockable;
              (if lockable : bool then
                 err ← Setenv "TF_HTTP_LOCK_ADDRESS" (url.String backendUrl);
                 fatalIf err;;
                 err ← Setenv "TF_HTTP_UNLOCK_ADDRESS" (url.String backendUrl);
                 fatalIf err
               else mret tt);;
              match args with
              | _ :: _ =>
                  err ← runCommand w args;
                  match err with
                  | Some (exec.ExitError exitCode) => osExit exitCode
                  | Some (exec.OtherError e) => logFatal e
                  | None => mret tt
                  end;;
                  osExit 0
              | [] => logFatal "usage: ./wrapper terraform plan|apply|validate..."
              end
          end
      end)
  end.

(** [main] starts [Wrap] in a process that has the environment of the
    world, serves nothing yet and has started no command. *)
Definition start (w : World) (backend : B) : Process :=
  mkProcess (environ w) backend None None None.

End Wrap.

Arguments environ {r}.
Arguments listen {r}.
Arguments clock {r}.
Arguments currentUser {r}.
Arguments spawn {r}.
Arguments runCommand {B r}.
Arguments Wrap {B _ _ r}.
Arguments start {B r}.

End wrapper.

(** [encoding/json] on the type [LockInfo]: what reflection finds is a
    struct of seven exported fields without tags, six of them strings and
    one a [time.Time], which encodes and decodes itself. *)
Module encoding.
Local Open Scope Z_scope.
Import wrapper utf8 json.

Inductive Field := fID | fOperation | fInfo | fWho | fVersion | fCreated | fPath.

Definition name (f : Field) : string :=
  match f with
  | fID => "ID" | fOperation => "Operation" | fInfo => "Info" | fWho => "Who"
  | fVersion => "Version" | fCreated => "Created" | fPath => "Path"
  end.

Definition fields : list Field := [fID; fOperation; fInfo; fWho; fVersion; fCreated; fPath].

(** [foldName]: upper case for the letters of ASCII; of the other runes
    only U+017F and U+212A fold to a letter of ASCII, S and K. *)
Fixpoint foldName (key : string) : string :=
  match key with
  | EmptyString => ""
  | String c rest =>
      let b := byte c in
      if within 0x61 0x7A b then String (char (b - 0x20)) (foldName rest)
      else
        match rest with
        | String c1 rest1 =>
            if (b =? 0xC5) && (byte c1 =? 0xBF) then String "S" (foldName rest1)
            else
              match rest1 with
              | String c2 rest2 =>
                  if (b =? 0xE2) && (byte c1 =? 0x84) && (byte c2 =? 0xAA)
                  then String "K" (foldName rest2)
                  else String c (foldName rest)
              | EmptyString => String c (foldName rest)
              end
        | EmptyString => String c (foldName rest)
        end
  end.

(** The field of a key: the one of that name, else the one whose name
    folds to what the key folds to. *)
Definition field (key : string) : option Field :=
  match find (λ f, String.eqb (name f) key) fields with
  | Some f => Some f
  | None => find (λ f, String.eqb (foldName (name f)) (foldName key)) fields
  end.

Definition setString (f : Field) (value : string) (v : LockInfo) : LockInfo :=
  match f with
  | fID =>
      {| ID := value; Operation := Operation v; Info := Info v; Who := Who v;
         Version := Version v; Created := Created v; Path := Path v |}
  | fOperation =>
      {| ID := ID v; Operation := value; Info := Info v; Who := Who v;
         Version := Version v; Created := Created v; Path := Path v |}
  | fInfo =>
      {| ID := ID v; Operation := Operation v; Info := value; Who := Who v;
         Version := Version v; Created := Created v; Path := Path v |}
  | fWho =>
      {| ID := ID v; Operation := Operation v; Info := Info v; Who := value;
         Version := Version v; Created := Created v; Path := Path v |}
  | fVersion =>
      {| ID := ID v; Operation := Operation v; Info := Info v; Who := Who v;
         Version := value; Created := Created v; Path := Path v |}
  | fCreated => v
  | fPath =>
      {| ID := ID v; Operation := Operation v; Info := Info v; Who := Who v;
         Version := Version v; Created := Created v; Path := value |}
  end.

Definition setCreated (t : time.Time) (v : LockInfo) : LockInfo :=
  {| ID := ID v; Operation := Operation v; Info := Info v; Who := Who v;
     Version := Version v; Created := t; Path := Path v |}.

Section Codec.
Context {lib : Library}.

(** [json.Marshal] of a [LockInfo]: the fields in the order of the
    declaration. *)
Definition Marshal (v : LockInfo) : string * option error :=
  match time.MarshalJSON (Created v) with
  | inl e => ("", Some (Error (MarshalerError e)))
  | inr created =>
      ("{" ++ quoted "ID" ++ ":" ++ quoted (appendString (ID v))
       ++ "," ++ quoted "Operation" ++ ":" ++ quoted (appendString (Operation v))
       ++ "," ++ quoted "Info" ++ ":" ++ quoted (appendString (Info v))
       ++ "," ++ quoted "Who" ++ ":" ++ quoted (appendString (Who v))
       ++ "," ++ quoted "Version" ++ ":" ++ quoted (appendString (Version v))
       ++ "," ++ quoted "Created" ++ ":" ++ created
       ++ "," ++ quoted "Path" ++ ":" ++ quoted (appendString (Path v))
       ++ "}", None)
  end.

(** Where the decoder stands after a value: it goes on behind the value,
    or it stops with an error. *)
Inductive Stored :=
| Next (v : LockInfo) (saved : option error) (rest : string)
| Abort (v : LockInfo) (err : error).

(** [saveError]: the first error is kept. *)
Definition saveError (saved : option error) (e : Failure) : option error :=
  match saved with
  | Some _ => saved
  | None => Some (Error e)
  end.

(** The value of [Created] is handed to [Time.UnmarshalJSON] as it is
    written. *)
Definition storeTime (raw : string) (v : LockInfo) (saved : option error) (rest : string)
    : Stored :=
  match time.UnmarshalJSON Parse raw (Created v) with
  | (t, None) => Next (setCreated t v) saved rest
  | (t, Some time.NotAString) => Abort (setCreated t v) (Error NotAString)
  | (t, Some (time.ParseError err)) => Abort (setCreated t v) err
  end.

(** [decodeState.value] for the value of a key: [s] starts with the value,
    and [f] is the field of the key, if it has one. *)
Definition value (f : option Field) (s : string) (v : LockInfo) (saved : option error)
    : Stored :=
  match s with
  | EmptyString => Abort v (Error OutOfSync)
  | String c rest =>
      if Ascii.eqb c quote then
        match literal rest with
        | None => Abort v (Error OutOfSync)
        | Some (raw, rest') =>
            match f with
            | None => Next v saved rest'
            | Some fCreated => storeTime (quoted raw) v saved rest'
            | Some f =>
                match unquote raw with
                | Some text => Next (setString f text v) saved rest'
                | None => Abort v (Error OutOfSync)
                end
            end
        end
      else if Ascii.eqb c "{" || Ascii.eqb c "[" then
        match closing 0 false false rest with
        | None => Abort v (Error OutOfSync)
        | Some rest' =>
            match f with
            | None => Next v saved rest'
            | Some fCreated =>
                storeTime (first (String.length s - String.length rest') s) v saved rest'
            | Some f =>
                Next v (saveError saved
                          (UnmarshalTypeError (if Ascii.eqb c "{" then "object" else "array")
                             (name f))) rest'
            end
        end
      else
        let '(word, rest') := scalar s in
        match f with
        | None => Next v saved rest'
        | Some fCreated => storeTime word v saved rest'
        | Some f =>
            if Ascii.eqb c "n" then Next v saved rest'
            else Next v (saveError saved
                           (UnmarshalTypeError
                              (if Ascii.eqb c "t" || Ascii.eqb c "f" then "bool" else "number")
                              (name f))) rest'
        end
  end.

(** [decodeState.object] into the struct: [s] follows the opening brace or
    a comma. *)
Fixpoint object (fuel : nat) (s : string) (v : LockInfo) (saved : option error)
    : LockInfo * option error :=
  match fuel with
  | O => (v, Some (Error OutOfSync))
  | S fuel =>
      match skipSpace s with
      | String c rest =>
          if Ascii.eqb c "}" then (v, saved)
          else if Ascii.eqb c quote then
            match literal rest with
            | Some (raw, rest) =>
                match unquote raw, skipSpace rest with
                | Some key, String colon rest =>
                    match value (field key) (skipSpace rest) v saved with
                    | Abort v err => (v, Some err)
                    | Next v saved rest =>
                        match skipSpace rest with
                        | String c rest =>
                            if Ascii.eqb c "," then object fuel rest v saved
                            else (v, saved)
                        | EmptyString => (v, Some (Error OutOfSync))
                        end
                    end
                | _, _ => (v, Some (Error OutOfSync))
                end
            | None => (v, Some (Error OutOfSync))
            end
          else (v, Some (Error OutOfSync))
      | EmptyString => (v, Some (Error OutOfSync))
      end
  end.

(** [json.Unmarshal] into a [LockInfo]: a text that is not JSON is refused
    before anything is stored; an object is decoded key by key; [null]
    changes nothing; any other value cannot be stored in a struct. *)
Definition Unmarshal (data : string) (v : LockInfo) : LockInfo * option error :=
  if negb (checkValid data) then (v, Some (Error (SyntaxError data)))
  else
    match skipSpace data with
    | String c rest =>
        if Ascii.eqb c "{" then object (String.length rest) rest v None
        else if Ascii.eqb c "n" then (v, None)
        else
          (v, Some (Error (UnmarshalTypeError
                                 (if Ascii.eqb c "[" then "array"
                                  else if Ascii.eqb c quote then "string"
                                  else if Ascii.eqb c "t" || Ascii.eqb c "f" then "bool"
                                  else "number") "")))
    | EmptyString => (v, Some (Error OutOfSync))
    end.

Definition codec : Codec LockInfo := {|
  json.Unmarshal := Unmarshal;
  json.Marshal := Marshal;
|}.

(** The values JSON can carry: strings that are UTF-8, and a time RFC 3339
    can write. *)
Definition representable (v : LockInfo) : bool :=
  ValidString (ID v) && ValidString (Operation v) && ValidString (Info v)
  && ValidString (Who v) && ValidString (Version v) && ValidString (Path v)
  && time.isRFC3339 (Created v).

End Codec.
End encoding.

(** ** The file backend *)
Module file.

Record Backend := {
  filePath : string;
}.

(** The backend next to the file system it acts on. *)
Record Store := mkStore {
  self : Backend;
  disk : os.FS;
}.

Definition Config (env : os.Env) (f : Store) : Store * option error :=
  match os.LookupEnv "TF_STATE_WRAPPER_FILE_PATH" env with
  | Some value => (mkStore {| filePath := value |} (disk f), None)
  | None => (f, Some "'TF_STATE_WRAPPER_FILE_PATH' must be set")
  end.

Definition Get (f : Store) : Store * (option string * option error) :=
  match os.Stat (filePath (self f)) (disk f) with
  | os.StatNotExist _ => (f, (None, None))
  | os.StatFailed err => (f, (None, Some err))
  | os.StatOk => (f, os.ReadFile (filePath (self f)) (disk f))
  end.

Definition Set_ (data lockID comment : string) (f : Store) : Store * option error :=
  let '(disk', err) := os.WriteFile (filePath (self f)) data (disk f) in
  (mkStore (self f) disk', err).

Definition Delete (f : Store) : Store * option error :=
  match os.Stat (filePath (self f)) (disk f) with
  | os.StatNotExist _ => (f, None)
  | os.StatFailed err => (f, Some err)
  | os.StatOk =>
      let '(disk', err) := os.Remove (filePath (self f)) (disk f) in
      (mkStore (self f) disk', err)
  end.

Definition Lock (lockData : wrapper.LockInfo) (f : Store)
    : Store * (bool * wrapper.LockInfo * option error) :=
  (f, (false, wrapper.zeroLockInfo, None)).

Definition UnLock (lockData : wrapper.LockInfo) (f : Store) : Store * option error :=
  (f, None).

Definition Lockable (f : Store) : bool := false.

(** [var _ wrapper.Backend = &Backend{}] *)
#[export] Instance backend : wrapper.Backend Store := {|
  wrapper.Config := Config;
  wrapper.Get := Get;
  wrapper.Set_ := Set_;
  wrapper.Delete := Delete;
  wrapper.Lock := Lock;
  wrapper.UnLock := UnLock;
  wrapper.Lockable := Lockable;
|}.

End file.

(** ** main *)
Module program.
Import wrapper.

Section Main.
Context `{!json.Codec LockInfo} {r : Rand}.
#[local] Existing Instance file.backend.

(** [main]: the backend is [new(file.Backend)], whose path is empty, on the
    disk the process finds; the arguments are [os.Args[1:]], a slice
    expression that panics when [os.Args] is empty. *)
Definition main (w : World r) (disk : os.FS) (osArgs : list string)
    : (Exit + unit) * Process :=
  let backend := file.mkStore {| file.filePath := "" |} disk in
  match osArgs with
  | [] => (inl Panic, start w backend)
  | _ :: args => Wrap w args (start w backend)
  end.

End Main.

End program.

(** ** Instances the examples run on *)

(** A backend that keeps the state and a lock in memory.  It is not part of
    the repository, whose only backend cannot lock; it exercises the
    branches of the adapter that a lockable backend reaches. *)
Module memory.
Import wrapper.

Record Store := mkStore {
  state : option string;
  held : option LockInfo;
}.

Definition Config (env : os.Env) (m : Store) : Store * option error := (m, None).

Definition Get (m : Store) : Store * (option string * option error) :=
  (m, (state m, None)).

Definition Set_ (data lockID comment : string) (m : Store) : Store * option error :=
  (mkStore (Some data) (held m), None).

Definition Delete (m : Store) : Store * option error :=
  (mkStore None (held m), None).

Definition Lock (lockData : LockInfo) (m : Store) : Store * (bool * LockInfo * option error) :=
  match held m with
  | None => (mkStore (state m) (Some lockData), (true, lockData, None))
  | Some current => (m, (false, current, None))
  end.

Definition UnLock (lockData : LockInfo) (m : Store) : Store * option error :=
  match held m with
  | None => (m, Some "state is not locked")
  | Some current =>
      if String.eqb (ID current) (ID lockData)
      then (mkStore (state m) None, None)
      else (m, Some "lock is held by another")
  end.

Definition Lockable (m : Store) : bool := true.

#[export] Instance backend : Backend Store := {|
  wrapper.Config := Config;
  wrapper.Get := Get;
  wrapper.Set_ := Set_;
  wrapper.Delete := Delete;
  wrapper.Lock := Lock;
  wrapper.UnLock := UnLock;
  wrapper.Lockable := Lockable;
|}.

End memory.

(** A fragment of the codec: the documents the examples exchange, each next
    to the value it stands for.  Every other text is refused the way the
    decoder refuses a text that ends too soon. *)
Module tabulated.
Import wrapper.

#[export] Instance Time_eq_dec : EqDecision time.Time.
Proof. solve_decision. Defined.

#[export] Instance LockInfo_eq_dec : EqDecision LockInfo.
Proof. solve_decision. Defined.

Fixpoint decode (table : list (string * LockInfo)) (data : string) : option LockInfo :=
  match table with
  | [] => None
  | (text, v) :: rest => if String.eqb text data then Some v else decode rest data
  end.

Fixpoint encode (table : list (string * LockInfo)) (v : LockInfo) : option string :=
  match table with
  | [] => None
  | (text, v') :: rest => if decide (v' = v) then Some text else encode rest v
  end.

Definition codec (table : list (string * LockInfo)) : json.Codec LockInfo := {|
  json.Unmarshal data into :=
    match decode table data with
    | Some v => (v, None)
    | None => (into, Some "unexpected end of JSON input")
    end;
  json.Marshal v :=
    match encode table v with
    | Some text => (text, None)
    | None => ("", Some "json: unsupported value")
    end;
|}.

Definition quote : string := String (ascii_of_nat 34) EmptyString.

Definition member (key value : string) : string :=
  quote ++ key ++ quote ++ ":" ++ quote ++ value ++ quote.

(** The document of a [LockInfo] whose strings need no escaping and whose
    [Created] is the zero time. *)
Definition document (l : LockInfo) : string :=
  "{" ++ member "ID" (ID l) ++ "," ++ member "Operation" (Operation l) ++ ","
      ++ member "Info" (Info l) ++ "," ++ member "Who" (Who l) ++ ","
      ++ member "Version" (Version l) ++ ","
      ++ member "Created" "0001-01-01T00:00:00Z" ++ ","
      ++ member "Path" (Path l) ++ "}".

Definition alice : LockInfo :=
  {| ID := "lock-123"; Operation := "OperationTypeApply"; Info := "";
     Who := "alice@build"; Version := "1.5.7"; Created := time.zero; Path := "" |}.

Definition bob : LockInfo :=
  {| ID := "lock-456"; Operation := "OperationTypePlan"; Info := "";
     Who := "bob@laptop"; Version := "1.5.7"; Created := time.zero; Path := "" |}.

Definition documents : list (string * LockInfo) :=
  [(document alice, alice); (document bob, bob)].

End tabulated.

(** A generator for the examples: a linear congruential step reduced to the
    range asked for. *)
Module lcg.

Definition Intn (n : nat) (s : N) : nat * N :=
  let s' := ((s * 1103515245 + 12345) mod 2147483648)%N in
  (N.to_nat (s' mod N.of_nat n)%N, s').

Definition rand : wrapper.Rand.
Proof.
  refine {| wrapper.source := N; wrapper.Intn := Intn; wrapper.Intn_range := _ |}.
  intros n s Hn. unfold Intn. cbn [fst].
  pose proof (N.mod_lt ((s * 1103515245 + 12345) mod 2147483648) (N.of_nat n)) as Hlt.
  lia.
Defined.

End lcg.

(** The requests, disks and worlds of the examples. *)
Module example.
Import wrapper.

Definition alice : user.User := {| user.Username := "alice"; user.Name := "Alice Liddell" |}.

Definition password : string := "BmLgBCjkRCjcdCjwlqjcpWPYFunYxWTU".

Definition request (method body : string) (query : list (string * string)) : http.Request :=
  {| http.Method := method;
     http.BasicAuth := Some ("auth", password);
     http.Query := query;
     http.Body := body;
     http.BodyErr := None |}.

(** A GET request that carries no [Authorization] header. *)
Definition anonymous : http.Request :=
  {| http.Method := "GET"; http.BasicAuth := None; http.Query := [];
     http.Body := ""; http.BodyErr := None |}.

Definition statePath : string := "terraform.tfstate".

Definition configured : file.Backend := {| file.filePath := statePath |}.

(** A disk that holds an earlier state, and one whose state file stops
    reading after nine bytes. *)
Definition oldDisk : os.FS := {[ statePath := os.Regular true true "old" ]}.

Definition failingDisk : os.FS :=
  {[ statePath := os.Faulty "{ partial" "input/output error" ]}.

(** The environment a shell hands to the wrapper: the path of the state
    file, and a lock address left over from another tool. *)
Definition shellEnv : os.Env :=
  {[ "TF_STATE_WRAPPER_FILE_PATH" := statePath;
     "TF_HTTP_LOCK_ADDRESS" := "http://elsewhere/lock" ]}.

(** A world in which the listener gets port 40123 and every command exits
    with status 7. *)
Definition world : World lcg.rand :=
  {| environ := shellEnv;
     listen := inr 40123%N;
     clock := (42%N : source lcg.rand);
     currentUser := Some alice;
     spawn := λ _ _, exec.Exited 7 |}.

(** [new(file.Backend)] on an empty disk, as [main] creates it. *)
Definition blankStore : file.Store := file.mkStore {| file.filePath := "" |} ∅.

Definition codec : json.Codec LockInfo := tabulated.codec tabulated.documents.

(** The library of the examples of [encoding]: they meet no error, and
    every time they read is written as [parseRFC3339] takes it. *)
Definition library : json.Library := {|
  json.Error := λ _, "json: error";
  json.Parse := λ _, inl "time: cannot parse";
|}.

(** The holder of a lock, taken on the 5th of November 2023 at 07:08:09.12,
    one hour east of UTC. *)
Definition holder : LockInfo :=
  {| ID := "f3a1-7c"; Operation := "OperationTypeApply";
     Info := "plan & apply <prod>"; Who := "alice@build"; Version := "1.5.7";
     Created := {| time.year := 2023; time.month := 11; time.day := 5;
                   time.hour := 7; time.minute := 8; time.second := 9;
                   time.nanosecond := 120000000; time.offset := 3600 |};
     Path := "env/prod.tfstate" |}.

Definition command : list string := ["terraform"; "plan"].

Definition comment : string := "updated with terraform 'terraform' by 'Alice Liddell'".

End example.

(** More worlds and requests for the examples. *)
Module scenario.
Import wrapper.

(** The shell did not set the path of the state file. *)
Definition noPath : World lcg.rand :=
  {| environ := ∅;
     listen := inr 40123%N;
     clock := (42%N : source lcg.rand);
     currentUser := Some example.alice;
     spawn := λ _ _, exec.Exited 0 |}.

(** The path of the state file is set, to the empty string. *)
Definition emptyPath : os.Env := {[ "TF_STATE_WRAPPER_FILE_PATH" := "" ]}.

(** No port can be bound. *)
Definition noPort : World lcg.rand :=
  {| environ := example.shellEnv;
     listen := inl "listen tcp 127.0.0.1:0: bind: cannot assign requested address";
     clock := (42%N : source lcg.rand);
     currentUser := Some example.alice;
     spawn := λ _ _, exec.Exited 0 |}.

(** The current user cannot be looked up. *)
Definition noUser : World lcg.rand :=
  {| environ := example.shellEnv;
     listen := inr 40123%N;
     clock := (42%N : source lcg.rand);
     currentUser := None;
     spawn := λ _ _, exec.Exited 0 |}.

(** A POST whose body stops after four bytes. *)
Definition truncated : http.Request :=
  {| http.Method := "POST";
     http.BasicAuth := Some ("auth", example.password);
     http.Query := [];
     http.Body := "{ pa";
     http.BodyErr := Some "unexpected EOF" |}.

End scenario.

(** ** Vocabulary of the properties *)

Import wrapper.

(** The request carries the credentials of the session. *)
Definition authorized (authUser authPassword : string) (r : http.Request) : Prop :=
  http.BasicAuth r = Some (authUser, authPassword).

(** The same request, sent with the given credentials. *)
Definition withCredentials (authUser authPassword : string) (r : http.Request)
    : http.Request :=
  {| http.Method := http.Method r;
     http.BasicAuth := Some (authUser, authPassword);
     http.Query := http.Query r;
     http.Body := http.Body r;
     http.BodyErr := http.BodyErr r |}.

(** What [http.Error(w, "Unauthorized", 401)] leaves in the body. *)
Definition unauthorizedLine (r : http.Request) : string :=
  if String.eqb (http.Method r) "HEAD" then "" else "Unauthorized" ++ LF.

(** An argument the loop of [Wrap] passes over: it is empty or starts with
    a dash. *)
Definition flagLike (arg : string) : bool :=
  match arg with
  | EmptyString => true
  | String c _ => Ascii.eqb c "-"
  end.

(** [action] is the first argument of [args] that is not passed over, or
    the empty string when every argument is. *)
Inductive firstNonFlag : list string → string → Prop :=
| firstNonFlag_none args :
    Forall (λ arg, flagLike arg = true) args → firstNonFlag args ""
| firstNonFlag_found before action after :
    Forall (λ arg, flagLike arg = true) before →
    flagLike action = false →
    firstNonFlag (before ++ action :: after) action.

(** The comment the handler hands to [Set]. *)
Definition commentOf (action : string) (systemUser : user.User) : string :=
  "updated with terraform '" ++ action ++ "' by '" ++ user.Name systemUser ++ "'".

(** The body [http.Error] writes for a message. *)
Definition errorText (msg : string) : string := msg ++ LF.

(** An upper- or lower-case Latin letter. *)
Definition isLetter (c : ascii) : bool :=
  let n := N_of_ascii c in
  ((97 <=? n) && (n <=? 122) || (65 <=? n) && (n <=? 90))%N.

(** The URL of the adapter on a port. *)
Definition address (port : N) : string := "http://127.0.0.1:" ++ itoa port ++ "/backend".

(** The environment after the [os.Setenv] calls of [Wrap]. *)
Definition published (lockable : bool) (addr password : string) (env : os.Env) : os.Env :=
  let env := <["TF_HTTP_PASSWORD" := password]>
               (<["TF_HTTP_USERNAME" := "auth"]> (<["TF_HTTP_ADDRESS" := addr]> env)) in
  if lockable
  then <["TF_HTTP_UNLOCK_ADDRESS" := addr]> (<["TF_HTTP_LOCK_ADDRESS" := addr]> env)
  else env.

(** How the wrapper ends for each end of the child. *)
Definition exitOf (c : exec.Child) : Exit :=
  match c with
  | exec.Exited status => ExitCode status
  | exec.Signaled => ExitCode (-1)
  | exec.Failed err => Fatal err
  end.

Definition usage : string := "usage: ./wrapper terraform plan|apply|validate...".

(** The storage of the file backend is durable: at its path there is
    nothing yet and a file can be created, or there is a regular file this
    process may read and write. *)
Definition durable (f : file.Store) : bool :=
  match os.node (file.filePath (file.self f)) (file.disk f) with
  | None => true
  | Some (os.Regular true true _) => true
  | Some _ => false
  end.

Section Published.
Context {B : Type} `{!Backend B} `{!json.Codec LockInfo} {r : Rand}.

(** The two halves of the statement that the connection variables reach the
    child only: the environment of the wrapper itself is, after the run,
    what it was before it; and the child sees the lock and unlock addresses,
    equal to the address, exactly when the backend is lockable. *)
Definition parentUntouched (w : World r) (b : B) (args : list string) : Prop :=
  env (Wrap w args (start w b)).2 = environ w.

Definition lockAddressesIffLockable (w : World r) (b : B) (args : list string) : Prop :=
  let p := (Wrap w args (start w b)).2 in
  ∀ childEnv, started p = Some (args, childEnv) →
    if Lockable (store p)
    then childEnv !! "TF_HTTP_LOCK_ADDRESS" = childEnv !! "TF_HTTP_ADDRESS"
         ∧ childEnv !! "TF_HTTP_UNLOCK_ADDRESS" = childEnv !! "TF_HTTP_ADDRESS"
    else childEnv !! "TF_HTTP_LOCK_ADDRESS" = None
         ∧ childEnv !! "TF_HTTP_UNLOCK_ADDRESS" = None.

End Published.

(** The writer a request other than HEAD starts with. *)
Definition blank : http.ResponseWriter :=
  {| http.head := false; http.wroteHeader := false; http.status := 0; http.body := "" |}.

Section Runs.
Context {B : Type}.

(** Two writers, the first of a run that began with the 401 and the second
    of the same run without it: same request, status 401 fixed on the
    first, and the first body is the second behind the prefix [pre]. *)
Definition behind (pre : string) (w1 w2 : http.ResponseWriter) : Prop :=
  http.head w1 = http.head w2
  ∧ http.wroteHeader w1 = true
  ∧ http.status w1 = http.StatusUnauthorized
  ∧ http.body w1 = pre ++ http.body w2
  ∧ (http.wroteHeader w2 = true → http.bodyAllowedForStatus (http.status w2) = true).

(** Two states of the handler that differ in the writers only, as above. *)
Definition alongside (pre : string) (s1 s2 : State B) : Prop :=
  backend s1 = backend s2 ∧ calls s1 = calls s2 ∧ behind pre (writer s1) (writer s2).

(** A computation keeps the two runs alongside each other. *)
Definition keeps (pre : string) {A} (m : Handler B A) : Prop :=
  ∀ s1 s2, alongside pre s1 s2 →
    (m s1).1 = (m s2).1 ∧ alongside pre (m s1).2 (m s2).2.

(** The calls of a computation are added to those made before it; and a
    computation makes at least one call. *)
Definition grows {A} (m : Handler B A) : Prop :=
  ∀ s, ∃ cs, calls (m s).2 = (calls s ++ cs)%list.

Definition reaches {A} (m : Handler B A) : Prop :=
  ∀ s, ∃ c cs, calls (m s).2 = (calls s ++ c :: cs)%list.

End Runs.

Section Invariants.
Context {B : Type}.

(** A computation keeps a property of the response writer. *)
Definition preserves (Q : http.ResponseWriter → Prop) {A} (m : Handler B A) : Prop :=
  ∀ s, Q (writer s) → Q (writer (m s).2).

(** The header of the response was sent, with this status. *)
Definition sent (code : Z) (w : http.ResponseWriter) : Prop :=
  http.wroteHeader w = true ∧ http.status w = code.

(** The statuses the dispatch on the method answers with. *)
Definition answers : list Z :=
  [http.StatusOK; http.StatusNotFound; http.StatusMethodNotAllowed;
   http.StatusConflict; http.StatusInternalServerError].

(** No header was sent yet, or it was sent with one of these statuses. *)
Definition unsentOrAnswered (w : http.ResponseWriter) : Prop :=
  http.wroteHeader w = false ∨ http.status w ∈ answers.

End Invariants.

(** The methods the first [switch] of the handler has a case for, and those
    the second has one for. *)
Definition stateMethod (method : string) : bool :=
  String.eqb method "GET" || String.eqb method "POST" || String.eqb method "DELETE".

Definition lockMethod (method : string) : bool :=
  String.eqb method "LOCK" || String.eqb method "UNLOCK".

(** The text [http.Error] leaves in the body of the answer to a request. *)
Definition errorBody (request : http.Request) (msg : string) : string :=
  if String.eqb (http.Method request) "HEAD" then "" else msg ++ LF.

(** ** Vocabulary of the codec *)

Section CodecVocabulary.
Import utf8 json.
Local Open Scope Z_scope.

(** A rune of two, three or four bytes, as [DecodeRune] reads it at the
    head of any text. *)
Inductive Rune : string → Z → Prop :=
| Rune2 c0 c1 r :
    (∀ rest, DecodeRune (String c0 (String c1 rest)) = (r, 2%nat)) →
    Rune (String c0 (String c1 "")) r
| Rune3 c0 c1 c2 r :
    (∀ rest, DecodeRune (String c0 (String c1 (String c2 rest))) = (r, 3%nat)) →
    Rune (String c0 (String c1 (String c2 ""))) r
| Rune4 c0 c1 c2 c3 r :
    (∀ rest, DecodeRune (String c0 (String c1 (String c2 (String c3 rest)))) = (r, 4%nat)) →
    Rune (String c0 (String c1 (String c2 (String c3 "")))) r.

(** A byte of a rune of several bytes. *)
Definition high (c : ascii) : Prop := 0x80 <= byte c.

Fixpoint allHigh (s : string) : Prop :=
  match s with
  | EmptyString => True
  | String c rest => high c ∧ allHigh rest
  end.

(** The scanner inside a string, and at a step. *)
Definition inString (ps : list ParseState) : Scanner :=
  {| step := InString; parseState := ps |}.

(** A literal, longer at the front. *)
Definition extend (s : string) (r : option (string * string)) : option (string * string) :=
  match r with
  | Some (raw, rest) => Some (s ++ raw, rest)
  | None => None
  end.

Definition at_ (st : Step) (ps : list ParseState) : Scanner :=
  {| step := st; parseState := ps |}.

(** What [appendString] writes for a rune of several bytes: the rune as
    it is, or the escape of U+2028 and U+2029. *)
Definition escapeRune (r : Z) : string :=
  String backslash ("u202" ++ String (hex (r mod 16)) "").

Definition written (seq : string) (r : Z) : string :=
  if (r =? 0x2028) || (r =? 0x2029) then escapeRune r else seq.

(** A byte that stands in a string of JSON as it is: no quote, no
    backslash, no control byte. *)
Definition plain (c : ascii) : bool :=
  negb (Ascii.eqb c quote) && negb (Ascii.eqb c backslash) && negb (byte c <? 0x20).

(** A text that stands between quotes as it is: the scanner takes it
    inside a string, and the closing quote of the literal is the first quote
    after it. *)
Definition quotable (x : string) : Prop :=
  (∀ ps t, scanAll (inString ps) (x ++ t) = scanAll (inString ps) t)
  ∧ (∀ t, literal (x ++ String quote t) = Some (x, t)).

(** A member of an object, and what follows it. *)
Definition member (key val rest : string) : string :=
  quoted key ++ ":" ++ quoted val ++ rest.

(** The document [json.Marshal] writes for a [LockInfo] whose time RFC 3339
    can write. *)
Definition timeText (t : time.Time) : string :=
  string_of_list_ascii (time.appendFormatRFC3339 t).

Definition document (v : LockInfo) : string :=
  "{" ++ member "ID" (appendString (ID v))
  ("," ++ member "Operation" (appendString (Operation v))
  ("," ++ member "Info" (appendString (Info v))
  ("," ++ member "Who" (appendString (Who v))
  ("," ++ member "Version" (appendString (Version v))
  ("," ++ member "Created" (timeText (Created v))
  ("," ++ member "Path" (appendString (Path v)) "}")))))).

End CodecVocabulary.

(** * Properties *)

Ltac step_handler :=
  unfold mbind, handler_bind, ifErr, skip, mret, handler_ret, onBackend, returnError,
    invalidMethod, onWriter;
  cbn [fst snd backend writer calls negb orb].

Section Adapter.
Context {B : Type} `{!Backend B} `{!json.Codec LockInfo}.
Variables comment authUser authPassword : string.

Lemma eqb_append_LF m : String.eqb (m ++ LF) "" = false.
Proof. destruct m; reflexivity. Qed.

Lemma append_cons (x : ascii) (a b : string) : String x a ++ b = String x (a ++ b).
Proof. reflexivity. Qed.

Lemma append_assoc (a b c : string) : (a ++ b) ++ c = a ++ (b ++ c).
Proof. induction a as [|x a IH]; [reflexivity | rewrite !append_cons; now f_equal]. Qed.

Lemma append_empty_r (a : string) : a ++ "" = a.
Proof. induction a as [|x a IH]; [reflexivity | rewrite append_cons; now f_equal]. Qed.

(** *** The writer after [http.Error] *)

Lemma Error_unwritten msg code w :
  http.wroteHeader w = false →
  http.bodyAllowedForStatus code = true →
  http.Error msg code w =
    {| http.head := http.head w; http.wroteHeader := true; http.status := code;
       http.body := if http.head w then http.body w else http.body w ++ msg ++ LF |}.
Proof.
  intros Hw Hc. unfold http.Error, http.Write, http.WriteHeader.
  rewrite Hw. cbn [http.wroteHeader http.status http.head http.body].
  rewrite eqb_append_LF, Hc. cbn [negb]. now destruct (http.head w).
Qed.

Lemma WriteHeader_unwritten code w :
  http.wroteHeader w = false →
  http.WriteHeader code w =
    {| http.head := http.head w; http.wroteHeader := true; http.status := code;
       http.body := http.body w |}.
Proof. intros Hw. unfold http.WriteHeader. now rewrite Hw. Qed.

Lemma WriteHeader_sent code w : http.wroteHeader w = true → http.WriteHeader code w = w.
Proof. intros Hw. unfold http.WriteHeader. now rewrite Hw. Qed.

Lemma Write_sent data w :
  http.wroteHeader w = true →
  http.bodyAllowedForStatus (http.status w) = true →
  http.head w = false →
  http.Write data w =
    {| http.head := false; http.wroteHeader := true; http.status := http.status w;
       http.body := http.body w ++ data |}.
Proof.
  intros Hw Hs Hh. unfold http.Write. rewrite Hw, Hs, Hh. cbn [negb].
  destruct (String.eqb_spec data "") as [->|_]; [|now rewrite Hw].
  rewrite append_empty_r. destruct w; cbn in *; now subst.
Qed.

Lemma Error_sent msg code w :
  http.wroteHeader w = true →
  http.bodyAllowedForStatus (http.status w) = true →
  http.head w = false →
  http.Error msg code w =
    {| http.head := false; http.wroteHeader := true; http.status := http.status w;
       http.body := http.body w ++ msg ++ LF |}.
Proof.
  intros Hw Hs Hh. unfold http.Error. rewrite WriteHeader_sent by exact Hw.
  now apply Write_sent.
Qed.

(** *** A request without credentials, next to the same request with them

    After the 401 the handler runs on a writer whose header is sent; the
    run with credentials starts on a fresh one. *)

Lemma behind_WriteHeader pre code w1 w2 :
  http.bodyAllowedForStatus code = true →
  behind pre w1 w2 → behind pre (http.WriteHeader code w1) (http.WriteHeader code w2).
Proof.
  intros Hc (Hh & Hw & Hs & Hb & Ha). unfold http.WriteHeader. rewrite Hw.
  destruct (http.wroteHeader w2) eqn:Hw2; repeat split; auto.
Qed.

Lemma behind_Write pre data w1 w2 :
  behind pre w1 w2 → behind pre (http.Write data w1) (http.Write data w2).
Proof.
  intros (Hh & Hw & Hs & Hb & Ha). unfold http.Write, http.WriteHeader.
  rewrite Hw, Hs.
  assert (http.bodyAllowedForStatus http.StatusUnauthorized = true) as -> by reflexivity.
  assert (http.bodyAllowedForStatus http.StatusOK = true) as HOK by reflexivity.
  destruct (String.eqb data "") eqn:Hd.
  - destruct (http.wroteHeader w2) eqn:Hw2; repeat split; auto.
  - cbn [negb]. rewrite Hh.
    destruct (http.wroteHeader w2) eqn:Hw2;
      cbn [http.status http.head http.wroteHeader http.body].
    + rewrite (Ha eq_refl). cbn [negb].
      destruct (http.head w2) eqn:Hh2; unfold behind;
        cbn [http.status http.head http.wroteHeader http.body];
        rewrite ?Hh2, ?Hw2; repeat split; auto.
      rewrite Hb. apply append_assoc.
    + rewrite HOK. cbn [negb].
      destruct (http.head w2) eqn:Hh2; unfold behind;
        cbn [http.status http.head http.wroteHeader http.body];
        rewrite ?Hh2, ?Hw2; repeat split; auto.
      rewrite Hb. apply append_assoc.
Qed.

Lemma behind_Error pre msg code w1 w2 :
  http.bodyAllowedForStatus code = true →
  behind pre w1 w2 → behind pre (http.Error msg code w1) (http.Error msg code w2).
Proof. intros Hc Hb. unfold http.Error. now apply behind_Write, behind_WriteHeader. Qed.

Lemma keeps_ret pre {A} (a : A) : keeps pre (mret a : Handler B A).
Proof. intros s1 s2 Hs. split; [reflexivity | exact Hs]. Qed.

Lemma keeps_bind pre {A C} (m : Handler B A) (k : A → Handler B C) :
  keeps pre m → (∀ a, keeps pre (k a)) → keeps pre (m ≫= k).
Proof.
  intros Hm Hk s1 s2 Hs. unfold mbind, handler_bind.
  destruct (Hm s1 s2 Hs) as [Ha Hs'].
  destruct (m s1) as [a1 s1'], (m s2) as [a2 s2']. cbn in Ha, Hs'. subst a2.
  now apply Hk.
Qed.

Lemma keeps_onBackend pre {A} c (f : B → B * A) : keeps pre (onBackend c f).
Proof.
  intros s1 s2 (Hb & Hc & Hw). unfold onBackend. rewrite Hb, Hc.
  destruct (f (backend s2)) as [b' a]. split; [reflexivity|].
  split; [reflexivity|]. split; [reflexivity|]. exact Hw.
Qed.

Lemma keeps_onWriter pre f :
  (∀ w1 w2, behind pre w1 w2 → behind pre (f w1) (f w2)) → keeps pre (onWriter (B := B) f).
Proof.
  intros Hf s1 s2 (Hb & Hc & Hw). unfold onWriter. split; [reflexivity|].
  split; [exact Hb|]. split; [exact Hc|]. now apply Hf.
Qed.

Lemma keeps_ifErr pre err : keeps pre (ifErr (B := B) err returnError).
Proof.
  destruct err as [e|]; [|apply keeps_ret].
  apply keeps_onWriter. intros. now apply behind_Error.
Qed.

Ltac keeps_step :=
  lazymatch goal with
  | |- keeps _ (mbind _ _) => apply keeps_bind; [|intros ?]
  | |- keeps _ (ifErr _ _) => apply keeps_ifErr
  | |- keeps _ (onBackend _ _) => apply keeps_onBackend
  | |- keeps _ (onWriter (http.WriteHeader _)) =>
      apply keeps_onWriter; intros; now apply behind_WriteHeader
  | |- keeps _ (onWriter (http.Write _)) =>
      apply keeps_onWriter; intros; now apply behind_Write
  | |- keeps _ (onWriter (http.Error _ _)) =>
      apply keeps_onWriter; intros; now apply behind_Error
  | |- keeps _ invalidMethod =>
      apply keeps_onWriter; intros; now apply behind_Error
  | |- keeps _ skip => apply keeps_ret
  | |- keeps _ (mret _) => apply keeps_ret
  | |- keeps _ (if ?c then _ else _) => destruct c
  | |- keeps _ (match ?x with _ => _ end) => destruct x
  end.

Lemma keeps_dispatch pre request : keeps pre (dispatch comment request).
Proof. unfold dispatch. repeat keeps_step. Qed.

(** *** Every request reaches the backend *)

Lemma grows_ret {A} (a : A) : grows (mret a : Handler B A).
Proof. intros s. exists []. cbn. now rewrite app_nil_r. Qed.

Lemma grows_onWriter f : grows (onWriter (B := B) f).
Proof. intros s. exists []. cbn. now rewrite app_nil_r. Qed.

Lemma grows_onBackend {A} c (f : B → B * A) : grows (onBackend c f).
Proof. intros s. exists [c]. unfold onBackend. now destruct (f (backend s)). Qed.

Lemma grows_bind {A C} (m : Handler B A) (k : A → Handler B C) :
  grows m → (∀ a, grows (k a)) → grows (m ≫= k).
Proof.
  intros Hm Hk s. unfold mbind, handler_bind.
  destruct (Hm s) as [cs Hcs]. destruct (m s) as [a s']. cbn in Hcs.
  destruct (Hk a s') as [cs' Hcs']. exists (cs ++ cs')%list.
  now rewrite Hcs', Hcs, app_assoc.
Qed.

Lemma reaches_onBackend {A} c (f : B → B * A) : reaches (onBackend c f).
Proof. intros s. exists c, []. unfold onBackend. now destruct (f (backend s)). Qed.

Lemma reaches_bind_l {A C} (m : Handler B A) (k : A → Handler B C) :
  reaches m → (∀ a, grows (k a)) → reaches (m ≫= k).
Proof.
  intros Hm Hk s. unfold mbind, handler_bind.
  destruct (Hm s) as (c & cs & Hcs). destruct (m s) as [a s']. cbn in Hcs.
  destruct (Hk a s') as [cs' Hcs']. exists c, (cs ++ cs')%list.
  rewrite Hcs', Hcs. now rewrite <- app_assoc.
Qed.

Lemma reaches_bind_r {A C} (m : Handler B A) (k : A → Handler B C) :
  grows m → (∀ a, reaches (k a)) → reaches (m ≫= k).
Proof.
  intros Hm Hk s. unfold mbind, handler_bind.
  destruct (Hm s) as (cs & Hcs). destruct (m s) as [a s']. cbn in Hcs.
  destruct (Hk a s') as (c & cs' & Hcs'). destruct cs as [|c0 cs].
  - exists c, cs'. rewrite Hcs', Hcs. now rewrite app_nil_r.
  - exists c0, (cs ++ c :: cs')%list. rewrite Hcs', Hcs. now rewrite <- app_assoc.
Qed.

Ltac grows_step :=
  lazymatch goal with
  | |- grows (mbind _ _) => apply grows_bind; [|intros ?]
  | |- grows (ifErr ?e _) => destruct e; [apply grows_onWriter | apply grows_ret]
  | |- grows (onBackend _ _) => apply grows_onBackend
  | |- grows (onWriter _) => apply grows_onWriter
  | |- grows invalidMethod => apply grows_onWriter
  | |- grows skip => apply grows_ret
  | |- grows (mret _) => apply grows_ret
  | |- grows (if ?c then _ else _) => destruct c
  | |- grows (match ?x with _ => _ end) => destruct x
  end.

Ltac reaches_step :=
  lazymatch goal with
  | |- reaches (mbind _ (onBackend _ _)) =>
      apply reaches_bind_l; [apply reaches_onBackend | intros ?; repeat grows_step]
  | |- reaches (mbind _ _) => apply reaches_bind_r; [repeat grows_step | intros ?]
  | |- reaches (if ?c then _ else _) => destruct c
  | |- reaches (match ?x with _ => _ end) => destruct x
  end.

Lemma reaches_dispatch request : reaches (dispatch comment request).
Proof. unfold dispatch. repeat reaches_step. Qed.

Lemma dispatch_withCredentials request :
  dispatch comment (withCredentials authUser authPassword request)
  = dispatch comment request.
Proof. reflexivity. Qed.

Lemma unauthorized_test (r : http.Request) :
  http.BasicAuth r ≠ Some (authUser, authPassword) →
  checkAuth (B := B) authUser authPassword r
  = onWriter (http.Error "Unauthorized" http.StatusUnauthorized).
Proof.
  intros Hne. unfold checkAuth. destruct (http.BasicAuth r) as [[u p]|]; [|reflexivity].
  destruct (String.eqb_spec u authUser) as [->|]; [|reflexivity].
  destruct (String.eqb_spec p authPassword) as [->|]; [|reflexivity].
  congruence.
Qed.

Lemma authorized_test (r : http.Request) :
  authorized authUser authPassword r →
  checkAuth (B := B) authUser authPassword r = skip.
Proof.
  unfold authorized, checkAuth. intros ->. now rewrite !String.eqb_refl.
Qed.

Lemma behind_unauthorized request :
  behind (unauthorizedLine request)
    (http.Error "Unauthorized" http.StatusUnauthorized (http.newResponseWriter request))
    (http.newResponseWriter request).
Proof.
  rewrite Error_unwritten by reflexivity.
  unfold behind, unauthorizedLine, http.newResponseWriter.
  cbn [http.head http.wroteHeader http.status http.body].
  destruct (String.eqb (http.Method request) "HEAD"); repeat split; discriminate.
Qed.

Lemma serveHTTP_run request s :
  serveHTTP comment authUser authPassword request s
  = dispatch comment request (checkAuth authUser authPassword request s).2.
Proof.
  unfold serveHTTP, mbind, handler_bind.
  now destruct (checkAuth authUser authPassword request s).
Qed.

Lemma checkAuth_frame (request : http.Request) (s : State B) :
  backend (checkAuth authUser authPassword request s).2 = backend s
  ∧ calls (checkAuth authUser authPassword request s).2 = calls s.
Proof.
  unfold checkAuth. destruct (http.BasicAuth request) as [[u p]|];
    match goal with |- context [if ?c then _ else _] => destruct c end; now split.
Qed.

Lemma dispatch_calls (request : http.Request) (s : State B) :
  let method := http.Method request in
  calls (dispatch comment request s).2 =
    (calls s ++
     if String.eqb method "GET" then [CallGet]
     else if String.eqb method "POST"
     then [CallSet (http.Body request) (http.QueryGet "ID" (http.Query request)) comment]
     else if String.eqb method "DELETE" then [CallDelete]
     else if Lockable (backend s) && lockMethod method
     then let lockData := (json.Unmarshal (http.Body request) zeroLockInfo).1 in
          [CallLockable;
           if String.eqb method "LOCK" then CallLock lockData else CallUnLock lockData]
     else [CallLockable])%list.
Proof.
  intros method. unfold method, dispatch, lockMethod, http.MethodGet, http.MethodPost,
    http.MethodDelete.
  destruct (String.eqb (http.Method request) "GET").
  { step_handler. destruct (Get (backend s)) as [b' [[d|] [e|]]]; reflexivity. }
  destruct (String.eqb (http.Method request) "POST").
  { destruct (http.BodyErr request); step_handler;
      match goal with |- context [Set_ ?d ?l ?c ?b] => destruct (Set_ d l c b) as [b' [e'|]] end;
      reflexivity. }
  destruct (String.eqb (http.Method request) "DELETE").
  { step_handler. destruct (Delete (backend s)) as [b' [e|]]; reflexivity. }
  step_handler. destruct (Lockable (backend s)); [|reflexivity]. cbn [andb].
  destruct (String.eqb (http.Method request) "LOCK" || String.eqb (http.Method request) "UNLOCK");
    [|reflexivity].
  destruct (json.Unmarshal (http.Body request) zeroLockInfo) as [lockData uerr].
  cbn [fst]. destruct (http.BodyErr request), uerr; step_handler;
    (destruct (String.eqb (http.Method request) "LOCK"); step_handler;
     [ destruct (Lock lockData (backend s)) as [b' [[[|] holder] [e'|]]]; step_handler;
       try (rewrite <- app_assoc; reflexivity);
       destruct (json.Marshal holder) as [text [e''|]]; rewrite <- app_assoc; reflexivity
     | destruct (UnLock lockData (backend s)) as [b' [e'|]]; rewrite <- app_assoc;
       reflexivity ]).
Qed.

(** The state the dispatch leaves the backend in: that of the one call its
    method stands for. *)
Lemma dispatch_backend (request : http.Request) (s : State B) :
  let method := http.Method request in
  backend (dispatch comment request s).2 =
    if String.eqb method "GET" then (Get (backend s)).1
    else if String.eqb method "POST"
    then (Set_ (http.Body request) (http.QueryGet "ID" (http.Query request)) comment
            (backend s)).1
    else if String.eqb method "DELETE" then (Delete (backend s)).1
    else if Lockable (backend s) && lockMethod method
    then let lockData := (json.Unmarshal (http.Body request) zeroLockInfo).1 in
         if String.eqb method "LOCK" then (Lock lockData (backend s)).1
         else (UnLock lockData (backend s)).1
    else backend s.
Proof.
  intros method. unfold method, dispatch, lockMethod, http.MethodGet, http.MethodPost,
    http.MethodDelete.
  destruct (String.eqb (http.Method request) "GET").
  { step_handler. destruct (Get (backend s)) as [b' [[d|] [e|]]]; reflexivity. }
  destruct (String.eqb (http.Method request) "POST").
  { destruct (http.BodyErr request); step_handler;
      match goal with |- context [Set_ ?d ?l ?c ?b] => destruct (Set_ d l c b) as [b' [e'|]] end;
      reflexivity. }
  destruct (String.eqb (http.Method request) "DELETE").
  { step_handler. destruct (Delete (backend s)) as [b' [e|]]; reflexivity. }
  step_handler. destruct (Lockable (backend s)); [|reflexivity]. cbn [andb].
  destruct (String.eqb (http.Method request) "LOCK" || String.eqb (http.Method request) "UNLOCK");
    [|reflexivity].
  destruct (json.Unmarshal (http.Body request) zeroLockInfo) as [lockData uerr].
  cbn [fst]. destruct (http.BodyErr request), uerr; step_handler;
    (destruct (String.eqb (http.Method request) "LOCK"); step_handler;
     [ destruct (Lock lockData (backend s)) as [b' [[[|] holder] [e'|]]]; step_handler;
       try reflexivity;
       destruct (json.Marshal holder) as [text [e''|]]; reflexivity
     | destruct (UnLock lockData (backend s)) as [b' [e'|]]; reflexivity ]).
Qed.

(** C1.  A request whose Basic credentials are missing or differ from the
    session's is answered 401 and is served all the same.  The dispatch on
    the method makes the call that corresponds to the method, and the
    backend is left in the state that call returns: [Get] for GET, [Set]
    with the body, the [ID] of the query and the comment for POST, [Delete]
    for DELETE, and for LOCK and UNLOCK on a lockable backend [Lock] or
    [UnLock] with what the body decoded to; any other request only asks
    [Lockable].  These are the state and the calls of the same request sent
    with the credentials, and the body is the [Unauthorized] line followed
    by the body the credentials would have obtained. *)
Theorem unauthorized_401_then_served (request : http.Request) (b : B) :
  http.BasicAuth request ≠ Some (authUser, authPassword) →
  let h := serveHTTP comment authUser authPassword in
  let '(response, b', made) := serve h request b in
  let '(response0, b0, made0) := serve h (withCredentials authUser authPassword request) b in
  code response = http.StatusUnauthorized
  ∧ b' = b0 ∧ made = made0 ∧ made ≠ []
  ∧ payload response = unauthorizedLine request ++ payload response0
  ∧ let method := http.Method request in
    let lockID := http.QueryGet "ID" (http.Query request) in
    let lockData := (json.Unmarshal (http.Body request) zeroLockInfo).1 in
    (made, b') =
      if String.eqb method "GET" then ([CallGet], (Get b).1)
      else if String.eqb method "POST"
      then ([CallSet (http.Body request) lockID comment],
            (Set_ (http.Body request) lockID comment b).1)
      else if String.eqb method "DELETE" then ([CallDelete], (Delete b).1)
      else if Lockable b && lockMethod method
      then if String.eqb method "LOCK"
           then ([CallLockable; CallLock lockData], (Lock lockData b).1)
           else ([CallLockable; CallUnLock lockData], (UnLock lockData b).1)
      else ([CallLockable], b).
Proof.
  intros Hne h. unfold serve, h. rewrite !serveHTTP_run.
  rewrite (unauthorized_test _ Hne), authorized_test by reflexivity.
  rewrite dispatch_withCredentials.
  change (http.newResponseWriter (withCredentials authUser authPassword request))
    with (http.newResponseWriter request).
  unfold onWriter at 1, skip at 1. cbn [backend writer calls mret handler_ret fst snd].
  pose proof (keeps_dispatch (unauthorizedLine request) request
    (mkState b (http.Error "Unauthorized" http.StatusUnauthorized
                  (http.newResponseWriter request)) [])
    (mkState b (http.newResponseWriter request) [])) as Hk.
  destruct Hk as [_ (Hb & Hc & Hh & Hw & Hs & Hbody & _)].
  { split; [reflexivity|]. split; [reflexivity|]. apply behind_unauthorized. }
  destruct (reaches_dispatch request (mkState b (http.newResponseWriter request) []))
    as (c & cs & Hmade).
  pose proof (dispatch_calls request
    (mkState b (http.Error "Unauthorized" http.StatusUnauthorized
                  (http.newResponseWriter request)) [])) as Hcalls.
  pose proof (dispatch_backend request
    (mkState b (http.Error "Unauthorized" http.StatusUnauthorized
                  (http.newResponseWriter request)) [])) as Hbackend.
  destruct (dispatch comment request (mkState b (http.Error _ _ _) [])) as [[] s1].
  destruct (dispatch comment request (mkState b (http.newResponseWriter request) []))
    as [[] s2].
  cbn [fst snd backend calls app] in *. unfold http.finishRequest. rewrite Hw.
  cbn [code payload]. repeat split; auto.
  - rewrite Hc, Hmade. discriminate.
  - rewrite Hbody. unfold http.WriteHeader.
    now destruct (http.wroteHeader (writer s2)).
  - rewrite Hcalls, Hbackend.
    destruct (String.eqb (http.Method request) "GET"); [reflexivity|].
    destruct (String.eqb (http.Method request) "POST"); [reflexivity|].
    destruct (String.eqb (http.Method request) "DELETE"); [reflexivity|].
    destruct (Lockable b && lockMethod (http.Method request)); [|reflexivity].
    now destruct (String.eqb (http.Method request) "LOCK").
Qed.

End Adapter.

(** ** The adapter, method by method *)

Section Methods.
Context {B : Type} `{!Backend B} `{!json.Codec LockInfo}.

Lemma terraformAction_firstNonFlag args : firstNonFlag args (terraformAction args).
Proof.
  induction args as [|arg rest IH]; [apply firstNonFlag_none; constructor|].
  destruct (flagLike arg) eqn:Hflag.
  - assert (terraformAction (arg :: rest) = terraformAction rest) as ->.
    { destruct arg as [|c arg]; [reflexivity|]. cbn in Hflag |- *. now rewrite Hflag. }
    revert IH. generalize (terraformAction rest) as found. intros found IH.
    destruct IH as [args' Hall | before action after Hall Hnot].
    + apply firstNonFlag_none. now constructor.
    + apply (firstNonFlag_found (arg :: before)); [now constructor | exact Hnot].
  - assert (terraformAction (arg :: rest) = arg) as ->.
    { destruct arg as [|c arg]; [discriminate|]. cbn in Hflag |- *. now rewrite Hflag. }
    apply (firstNonFlag_found []); [constructor | exact Hflag].
Qed.

(** The run of an authorized request starts the dispatch on a fresh
    writer. *)
Lemma serve_authorized comment authUser authPassword request (b : B) :
  authorized authUser authPassword request →
  serve (serveHTTP comment authUser authPassword) request b =
    let '(_, s) := dispatch comment request (mkState b (http.newResponseWriter request) []) in
    let w := http.finishRequest (writer s) in
    ({| code := http.status w; payload := http.body w |}, backend s, calls s).
Proof.
  intros HA. unfold serve. now rewrite serveHTTP_run, authorized_test by exact HA.
Qed.

(** What a POST request does when it carries the session's credentials and
    its body was read in full: it makes exactly one call on the backend,
    [Set], with the body, the value of the query parameter [ID] (empty when
    absent) and the comment built from the action and the display name of
    the user, where the action is the first of the arguments [Wrap] was
    given, command name included, that is neither empty nor a flag.  When
    [Set] succeeds the answer is 200 with an empty body; when it fails the
    answer is 500 with the text of the error. *)
Lemma post_calls_Set_once (systemUser : user.User) (args : list string)
    (authUser authPassword : string) (request : http.Request) (b : B) :
  http.Method request = "POST" →
  authorized authUser authPassword request →
  http.BodyErr request = None →
  let action := terraformAction args in
  let comment := "updated with terraform '" ++ action ++ "' by '"
                   ++ user.Name systemUser ++ "'" in
  let lockID := http.QueryGet "ID" (http.Query request) in
  firstNonFlag args action
  ∧ ∃ h, backendHandler (Some systemUser) action authUser authPassword = Some h
    ∧ let '(b', err) := Set_ (http.Body request) lockID comment b in
      serve h request b =
        (match err with
         | None => {| code := http.StatusOK; payload := "" |}
         | Some e => {| code := http.StatusInternalServerError; payload := errorText e |}
         end, b', [CallSet (http.Body request) lockID comment]).
Proof.
  intros HM HA HE action comment lockID. split; [apply terraformAction_firstNonFlag|].
  eexists. split; [reflexivity|]. fold comment.
  rewrite serve_authorized by exact HA.
  unfold dispatch. rewrite HM, HE.
  assert (String.eqb "POST" http.MethodGet = false) as -> by reflexivity.
  assert (String.eqb "POST" http.MethodPost = true) as -> by reflexivity.
  unfold mbind, handler_bind, ifErr, skip, mret, handler_ret, onBackend.
  cbn [fst snd backend writer calls]. fold lockID.
  destruct (Set_ (http.Body request) lockID comment b) as [b' [e|]]; [|reflexivity].
  unfold returnError, onWriter. cbn [backend writer calls].
  rewrite Error_unwritten by reflexivity.
  unfold http.newResponseWriter. rewrite HM. reflexivity.
Qed.

Ltac fresh_writer HM :=
  unfold http.newResponseWriter; rewrite HM;
  change (String.eqb _ "HEAD") with false; fold blank.

Ltac run_handler :=
  unfold mbind, handler_bind, ifErr, skip, mret, handler_ret, onBackend, returnError,
    invalidMethod, onWriter;
  cbn [fst snd backend writer calls negb orb].

Ltac run_writer :=
  unfold blank;
  repeat
    (match goal with
     | |- context [http.Error ?m ?c (http.Build_ResponseWriter ?h false ?s ?bd)] =>
         rewrite (Error_unwritten m c (http.Build_ResponseWriter h false s bd))
           by reflexivity
     | |- context [http.Error ?m ?c (http.Build_ResponseWriter ?h true ?s ?bd)] =>
         rewrite (Error_sent m c (http.Build_ResponseWriter h true s bd))
           by reflexivity
     | |- context [http.WriteHeader ?c (http.Build_ResponseWriter ?h false ?s ?bd)] =>
         rewrite (WriteHeader_unwritten c (http.Build_ResponseWriter h false s bd))
           by reflexivity
     | |- context [http.WriteHeader ?c (http.Build_ResponseWriter ?h true ?s ?bd)] =>
         rewrite (WriteHeader_sent c (http.Build_ResponseWriter h true s bd))
           by reflexivity
     | |- context [http.Write ?d (http.Build_ResponseWriter ?h true ?s ?bd)] =>
         rewrite (Write_sent d (http.Build_ResponseWriter h true s bd))
           by reflexivity
     end;
     cbn [http.wroteHeader http.status http.head http.body]);
  unfold http.finishRequest;
  cbn [http.wroteHeader http.status http.head http.body code payload].

(** What a GET request with credentials is answered, for each result of
    [Get]. *)
Lemma get_responses comment authUser authPassword (request : http.Request) (b : B) :
  http.Method request = "GET" →
  authorized authUser authPassword request →
  let '(b', (data, err)) := Get b in
  serve (serveHTTP comment authUser authPassword) request b =
    (match err, data with
     | None, None => {| code := http.StatusNotFound; payload := "" |}
     | None, Some d => {| code := http.StatusOK; payload := d |}
     | Some e, None => {| code := http.StatusInternalServerError; payload := errorText e |}
     | Some e, Some d =>
         {| code := http.StatusInternalServerError; payload := errorText e ++ d |}
     end, b', [CallGet]).
Proof.
  intros HM HA. rewrite serve_authorized by exact HA.
  unfold dispatch. rewrite HM.
  assert (String.eqb "GET" http.MethodGet = true) as -> by reflexivity.
  fresh_writer HM. run_handler.
  destruct (Get b) as [b' [[d|] [e|]]]; run_handler; run_writer; reflexivity.
Qed.

(** What a LOCK request with the session's credentials is answered, for
    any codec: 405 with the text [invalid method] when the backend is not
    lockable.  When it is lockable, the body was read and decodes to a
    [LockInfo], and [Lock] returns no error: 200 with an empty body for a
    granted lock, and for a lock that is not granted 409 with the bytes
    [json.Marshal] gives for the holder [Lock] returned. *)
Lemma lock_answers comment authUser authPassword (request : http.Request) (b : B) :
  http.Method request = "LOCK" →
  authorized authUser authPassword request →
  let h := serveHTTP comment authUser authPassword in
  (Lockable b = false →
     serve h request b =
       ({| code := http.StatusMethodNotAllowed; payload := errorText "invalid method" |},
        b, [CallLockable]))
  ∧ (Lockable b = true →
     http.BodyErr request = None →
     ∀ lockData, json.Unmarshal (http.Body request) zeroLockInfo = (lockData, None) →
     ∀ b' granted holder, Lock lockData b = (b', (granted, holder, None)) →
       if granted
       then serve h request b =
              ({| code := http.StatusOK; payload := "" |}, b',
               [CallLockable; CallLock lockData])
       else ∀ text, json.Marshal holder = (text, None) →
              serve h request b =
                ({| code := http.StatusConflict; payload := text |}, b',
                 [CallLockable; CallLock lockData])).
Proof.
  intros HM HA h. unfold h. rewrite !serve_authorized by exact HA.
  unfold dispatch. rewrite HM.
  assert (String.eqb "LOCK" http.MethodGet = false) as -> by reflexivity.
  assert (String.eqb "LOCK" http.MethodPost = false) as -> by reflexivity.
  assert (String.eqb "LOCK" http.MethodDelete = false) as -> by reflexivity.
  assert (String.eqb "LOCK" "LOCK" = true) as -> by reflexivity.
  cbn [orb]. fresh_writer HM. run_handler. split.
  - intros ->. run_handler. run_writer. reflexivity.
  - intros -> -> lockData -> b' granted holder HL. run_handler. rewrite HL.
    destruct granted; cbn [negb].
    + run_handler. run_writer. reflexivity.
    + intros text ->. run_handler. run_writer. reflexivity.
Qed.

(** What a LOCK or UNLOCK request is answered when its body does not decode:
    500, with a body that starts with the text of the decoding error; the
    handler goes on and calls the backend with what was decoded. *)
Lemma undecodable_lock_request comment authUser authPassword
    (request : http.Request) (b : B) :
  http.Method request = "LOCK" ∨ http.Method request = "UNLOCK" →
  authorized authUser authPassword request →
  Lockable b = true →
  http.BodyErr request = None →
  ∀ lockData e, json.Unmarshal (http.Body request) zeroLockInfo = (lockData, Some e) →
  let '(response, _, made) := serve (serveHTTP comment authUser authPassword) request b in
  code response = http.StatusInternalServerError
  ∧ (∃ rest, payload response = errorText e ++ rest)
  ∧ made = [CallLockable;
            if String.eqb (http.Method request) "LOCK"
            then CallLock lockData else CallUnLock lockData].
Proof.
  intros HM HA HL HE lockData e HU. rewrite serve_authorized by exact HA.
  unfold dispatch. rewrite HE, HU.
  assert (String.eqb (http.Method request) http.MethodGet = false) as ->
    by (destruct HM as [-> | ->]; reflexivity).
  assert (String.eqb (http.Method request) http.MethodPost = false) as ->
    by (destruct HM as [-> | ->]; reflexivity).
  assert (String.eqb (http.Method request) http.MethodDelete = false) as ->
    by (destruct HM as [-> | ->]; reflexivity).
  assert (String.eqb (http.Method request) "LOCK"
          || String.eqb (http.Method request) "UNLOCK" = true) as ->
    by (destruct HM as [-> | ->]; reflexivity).
  assert (http.newResponseWriter request = blank) as ->
    by (unfold http.newResponseWriter; destruct HM as [-> | ->]; reflexivity).
  run_handler. rewrite HL. run_handler.
  destruct (String.eqb (http.Method request) "LOCK"); run_handler.
  - destruct (Lock lockData b) as [b' [[[|] holder] [e'|]]]; run_handler; cbn [negb].
    + run_writer. repeat split; eexists; reflexivity.
    + run_writer. repeat split. exists "". now rewrite append_empty_r.
    + destruct (json.Marshal holder) as [text [e''|]]; run_handler; run_writer;
        repeat split; eexists; unfold errorText; rewrite ?append_assoc; reflexivity.
    + destruct (json.Marshal holder) as [text [e''|]]; run_handler; run_writer;
        repeat split; eexists; unfold errorText; rewrite ?append_assoc; reflexivity.
  - destruct (UnLock lockData b) as [b' [e'|]]; run_handler; run_writer.
    + repeat split; eexists; reflexivity.
    + repeat split. exists "". now rewrite append_empty_r.
Qed.

End Methods.

(** ** The orchestrator *)

Section Orchestrator.
Context {B : Type} `{!Backend B} `{!json.Codec LockInfo} (r : Rand).

Lemma hasByte_append p (a b : string) :
  os.hasByte p (a ++ b) = os.hasByte p a || os.hasByte p b.
Proof.
  induction a as [|c a IH]; [reflexivity|].
  rewrite append_cons. cbn [os.hasByte]. now rewrite IH, orb_assoc.
Qed.

Lemma string_of_uint_no_NUL d : os.hasByte os.isNUL (NilEmpty.string_of_uint d) = false.
Proof. induction d; cbn [NilEmpty.string_of_uint os.hasByte]; auto. Qed.

Lemma address_no_NUL port : os.hasByte os.isNUL (address port) = false.
Proof.
  unfold address, itoa. rewrite !hasByte_append, string_of_uint_no_NUL. reflexivity.
Qed.

Lemma letters_are_letters : Forall (λ c, isLetter c = true) letters.
Proof. repeat constructor. Qed.

Lemma randRunes_letters n (seed : source r) :
  ∃ b, randRunes r n seed = Some b
       ∧ length b = n ∧ Forall (λ c, isLetter c = true) b.
Proof.
  revert seed. induction n as [|n IH]; intros seed; [exists []; now repeat split|].
  cbn [randRunes].
  pose proof (Intn_range r (length letters) seed) as Hk.
  destruct (Intn r (length letters) seed) as [k seed']. cbn [fst] in Hk.
  destruct (lookup_lt_is_Some_2 letters k) as [c Hc]; [apply Hk; cbn; lia|].
  rewrite Hc. destruct (IH seed') as (b & -> & Hlen & Hall).
  exists (c :: b). repeat split; [cbn; now rewrite Hlen|].
  constructor; [|exact Hall].
  exact (proj1 (Forall_lookup _ _) letters_are_letters k c Hc).
Qed.

Lemma length_string_of_list_ascii b :
  String.length (string_of_list_ascii b) = length b.
Proof. induction b as [|c b IH]; cbn; [reflexivity | now rewrite IH]. Qed.

Lemma letter_not_NUL c : isLetter c = true → os.isNUL c = false.
Proof.
  intros Hc. unfold os.isNUL. destruct (Ascii.eqb_spec c (ascii_of_nat 0)) as [->|]; auto.
Qed.

Lemma letters_no_NUL b :
  Forall (λ c, isLetter c = true) b →
  os.hasByte os.isNUL (string_of_list_ascii b) = false.
Proof.
  induction 1 as [|c b Hc _ IH]; [reflexivity|].
  cbn [string_of_list_ascii os.hasByte]. now rewrite (letter_not_NUL c Hc), IH.
Qed.

(** [randSeq] returns, and what it returns has [n] letters. *)
Lemma randSeq_letters n (seed : source r) :
  ∃ password, randSeq r n seed = Some password
    ∧ String.length password = n
    ∧ Forall (λ c, isLetter c = true) (list_ascii_of_string password)
    ∧ os.hasByte os.isNUL password = false.
Proof.
  destruct (randRunes_letters n seed) as (b & Hb & Hlen & Hall).
  exists (string_of_list_ascii b). unfold randSeq. rewrite Hb.
  repeat split.
  - now rewrite length_string_of_list_ascii.
  - now rewrite list_ascii_of_string_of_list_ascii.
  - now apply letters_no_NUL.
Qed.

Lemma Setenv_ok key value (env : os.Env) :
  String.eqb key "" = false →
  os.hasByte (λ c, os.isEq c || os.isNUL c) key = false →
  os.hasByte os.isNUL value = false →
  os.Setenv key value env = (<[key := value]> env, None).
Proof. intros Hk Hk' Hv. unfold os.Setenv. now rewrite Hk, Hk', Hv. Qed.

Lemma proc_bind_inr {A C} (m : Proc (B := B) A) (k : A → Proc C) p a p' :
  m p = (inr a, p') → (m ≫= k) p = k a p'.
Proof. intros Hm. unfold mbind, proc_bind. now rewrite Hm. Qed.

Lemma Setenv_run key value (p : @Process B) :
  String.eqb key "" = false →
  os.hasByte (λ c, os.isEq c || os.isNUL c) key = false →
  os.hasByte os.isNUL value = false →
  Setenv key value p =
    (inr None, mkProcess (<[key := value]> (env p)) (store p) (listener p) (serving p)
                 (started p)).
Proof. intros Hk Hk' Hv. unfold Setenv. now rewrite Setenv_ok. Qed.

(** The run of [Wrap] once [Config] has succeeded, the listener is bound
    and the current user is known. *)
Lemma Wrap_ready (w : World r) (b b' : B) (port : N) (systemUser : user.User)
    (args : list string) :
  Config (environ w) b = (b', None) →
  listen w = inr port →
  currentUser w = Some systemUser →
  ∃ password,
    randSeq r 32 (clock w) = Some password
    ∧ let env' := published (Lockable b') (address port) password (environ w) in
      let h := serveHTTP (commentOf (terraformAction args) systemUser) "auth" password in
      Wrap w args (start w b) =
        match args with
        | [] =>
            (inl (Fatal usage),
             mkProcess env' b' (Some (TCPListener port)) (Some h) None)
        | _ :: _ =>
            (inl (exitOf (spawn w args env')),
             mkProcess env' b' (Some (TCPListener port)) (Some h) (Some (args, env')))
        end.
Proof.
  intros HC HL HU.
  destruct (randSeq_letters 32 (clock w)) as (password & HR & _ & _ & HN).
  exists password. split; [exact HR|]. intros env' h.
  pose proof (address_no_NUL port) as HA.
  unfold Wrap.
  erewrite proc_bind_inr by (unfold runConfig, start; cbn [env store]; rewrite HC; reflexivity).
  erewrite proc_bind_inr by reflexivity.
  rewrite HL. cbn [createListener].
  erewrite proc_bind_inr by reflexivity.
  erewrite proc_bind_inr by reflexivity.
  unfold defer. rewrite HR, HU. cbn [backendHandler Port].
  fold (commentOf (terraformAction args) systemUser). fold h.
  erewrite proc_bind_inr by reflexivity.
  change (url.String _) with (address port).
  erewrite proc_bind_inr by (apply Setenv_run; (reflexivity || assumption)).
  erewrite proc_bind_inr by reflexivity.
  erewrite proc_bind_inr by (apply Setenv_run; (reflexivity || assumption)).
  erewrite proc_bind_inr by reflexivity.
  erewrite proc_bind_inr by (apply Setenv_run; (reflexivity || assumption)).
  erewrite proc_bind_inr by reflexivity.
  erewrite proc_bind_inr by reflexivity.
  cbn [env store listener serving started start].
  assert (∀ p : @Process B,
            env p = <["TF_HTTP_PASSWORD" := password]>
                      (<["TF_HTTP_USERNAME" := "auth"]>
                         (<["TF_HTTP_ADDRESS" := address port]> (environ w))) →
            store p = b' →
            ∃ p', ((if Lockable b'
                    then err ← Setenv "TF_HTTP_LOCK_ADDRESS" (address port);
                         fatalIf err;;
                         err ← Setenv "TF_HTTP_UNLOCK_ADDRESS" (address port);
                         fatalIf err
                    else mret tt) p = (inr tt, p'))
                  ∧ p' = mkProcess env' (store p) (listener p) (serving p) (started p))
    as Hlock.
  { intros p Hp Hs. eexists. split; [|reflexivity]. unfold env', published.
    destruct (Lockable b').
    - erewrite proc_bind_inr by (apply Setenv_run; (reflexivity || assumption)).
      erewrite proc_bind_inr by reflexivity.
      erewrite proc_bind_inr by (apply Setenv_run; (reflexivity || assumption)).
      cbn [env store listener serving started fatalIf]. now rewrite Hp.
    - rewrite <- Hp. now destruct p. }
  edestruct Hlock as (p' & Hrun & ->); [| | erewrite proc_bind_inr by exact Hrun];
    [reflexivity | reflexivity |].
  cbn [env store listener serving started].
  destruct args as [|name rest]; [reflexivity|].
  erewrite proc_bind_inr by reflexivity.
  cbn [env store listener serving started].
  destruct (spawn w (name :: rest) env') as [status| |err]; cbn [exec.Run exitOf].
  - destruct (Z.eqb_spec status 0) as [->|]; reflexivity.
  - reflexivity.
  - reflexivity.
Qed.

Lemma proc_bind_inl {A C} (m : Proc (B := B) A) (k : A → Proc C) p e p' :
  m p = (inl e, p') → (m ≫= k) p = (inl e, p').
Proof. intros Hm. unfold mbind, proc_bind. now rewrite Hm. Qed.

(** C6.  Once [Config] has succeeded, the listener is bound and the current
    user is known: with no command, [Wrap] ends in [log.Fatal] with the usage
    message; with a command, the command is started, and [Wrap] exits with
    the status the child exited with, zero or not, and ends in [log.Fatal]
    when the child could not be started or waited for. *)
Theorem wrap_exit (w : World r) (b b' : B) (port : N) (systemUser : user.User)
    (args : list string) :
  Config (environ w) b = (b', None) →
  listen w = inr port →
  currentUser w = Some systemUser →
  let '(ending, p) := Wrap w args (start w b) in
  match args with
  | [] => ending = inl (Fatal "usage: ./wrapper terraform plan|apply|validate...")
  | _ :: _ =>
      ∃ childEnv, started p = Some (args, childEnv)
        ∧ match spawn w args childEnv with
          | exec.Exited status => ending = inl (ExitCode status)
          | exec.Signaled => ending = inl (ExitCode (-1))
          | exec.Failed err => ending = inl (Fatal err)
          end
  end.
Proof.
  intros HC HL HU.
  destruct (Wrap_ready w b b' port systemUser args HC HL HU) as (password & _ & ->).
  destruct args as [|name rest]; [reflexivity|].
  eexists. split; [reflexivity|].
  now destruct (spawn w (name :: rest) _).
Qed.

(** C7, as amended.  [Wrap] sets the connection variables in its own
    environment, and the child is started with that environment: there the
    address, the user name and the password are set; the lock and unlock
    addresses are set to the address when the backend is lockable, and are
    what they were when [Wrap] started when it is not; every other variable
    is what it was. *)
Theorem environment_published (w : World r) (b b' : B) (port : N)
    (systemUser : user.User) (name : string) (rest : list string) :
  Config (environ w) b = (b', None) →
  listen w = inr port →
  currentUser w = Some systemUser →
  let p := (Wrap w (name :: rest) (start w b)).2 in
  ∃ childEnv password,
    started p = Some (name :: rest, childEnv)
    ∧ env p = childEnv
    ∧ randSeq r 32 (clock w) = Some password
    ∧ childEnv !! "TF_HTTP_ADDRESS" = Some (address port)
    ∧ childEnv !! "TF_HTTP_USERNAME" = Some "auth"
    ∧ childEnv !! "TF_HTTP_PASSWORD" = Some password
    ∧ (if Lockable b'
       then childEnv !! "TF_HTTP_LOCK_ADDRESS" = Some (address port)
            ∧ childEnv !! "TF_HTTP_UNLOCK_ADDRESS" = Some (address port)
       else childEnv !! "TF_HTTP_LOCK_ADDRESS" = environ w !! "TF_HTTP_LOCK_ADDRESS"
            ∧ childEnv !! "TF_HTTP_UNLOCK_ADDRESS"
              = environ w !! "TF_HTTP_UNLOCK_ADDRESS")
    ∧ ∀ key, key ∉ ["TF_HTTP_ADDRESS"; "TF_HTTP_USERNAME"; "TF_HTTP_PASSWORD";
                    "TF_HTTP_LOCK_ADDRESS"; "TF_HTTP_UNLOCK_ADDRESS"] →
             childEnv !! key = environ w !! key.
Proof.
  intros HC HL HU p.
  destruct (Wrap_ready w b b' port systemUser (name :: rest) HC HL HU)
    as (password & HR & HW).
  unfold p. rewrite HW. cbn [snd started env].
  eexists _, password. split; [reflexivity|]. split; [reflexivity|].
  split; [exact HR|]. unfold published.
  destruct (Lockable b'); repeat split;
    try (intros key Hkey; repeat (apply not_elem_of_cons in Hkey as [? Hkey]));
    now simplify_map_eq.
Qed.

(** C9.  Whenever [Wrap] has put a handler to serve, the handler checks the
    fixed user name [auth] and the password [randSeq(32)] returned, which
    has exactly 32 characters, each an upper- or lower-case Latin letter. *)
Theorem session_credentials (w : World r) (b : B) (args : list string)
    (h : http.Request → Handler B unit) :
  serving (Wrap w args (start w b)).2 = Some h →
  ∃ comment password,
    h = serveHTTP comment "auth" password
    ∧ randSeq r 32 (clock w) = Some password
    ∧ String.length password = 32%nat
    ∧ Forall (λ c, isLetter c = true) (list_ascii_of_string password).
Proof.
  destruct (randSeq_letters 32 (clock w)) as (password & HR & Hlen & Hall & _).
  destruct (Config (environ w) b) as [b' [e|]] eqn:HC.
  { unfold Wrap.
    erewrite proc_bind_inr
      by (unfold runConfig, start; cbn [env store]; rewrite HC; reflexivity).
    erewrite proc_bind_inl by reflexivity. discriminate. }
  destruct (listen w) as [e|port] eqn:HL.
  { unfold Wrap.
    erewrite proc_bind_inr
      by (unfold runConfig, start; cbn [env store]; rewrite HC; reflexivity).
    erewrite proc_bind_inr by reflexivity.
    rewrite HL. cbn [createListener].
    erewrite proc_bind_inl by reflexivity. discriminate. }
  destruct (currentUser w) as [systemUser|] eqn:HU.
  - destruct (Wrap_ready w b b' port systemUser args HC HL HU) as (password' & HR' & ->).
    assert (password' = password) as -> by congruence.
    intros Hh. exists (commentOf (terraformAction args) systemUser), password.
    repeat split; try assumption.
    destruct args; cbn [snd serving] in Hh; congruence.
  - unfold Wrap.
    erewrite proc_bind_inr
      by (unfold runConfig, start; cbn [env store]; rewrite HC; reflexivity).
    erewrite proc_bind_inr by reflexivity.
    rewrite HL. cbn [createListener].
    erewrite proc_bind_inr by reflexivity.
    erewrite proc_bind_inr by reflexivity.
    unfold defer. rewrite HR, HU. cbn [backendHandler]. discriminate.
Qed.

End Orchestrator.

(** ** The file backend *)

Section FileBackend.

Lemma node_insert name (n : os.Node) (fs : os.FS) :
  String.eqb name "" = false → os.node name (<[name := n]> fs) = Some n.
Proof. intros Hn. unfold os.node. rewrite Hn. apply lookup_insert_eq. Qed.

(** C8.  On durable storage, [Set] with a payload succeeds and the [Get]
    that follows returns exactly that payload, whatever the lock ID and the
    comment. *)
Theorem file_Set_then_Get (f : file.Store) (P lockID comment : string) :
  durable f = true →
  let '(f', err) := file.Set_ P lockID comment f in
  err = None ∧ file.Get f' = (f', (Some P, None)).
Proof.
  unfold durable, file.Set_, file.Get, os.WriteFile, os.Stat, os.ReadFile.
  destruct f as [[path] fs]. cbn [file.self file.filePath file.disk].
  assert (os.node path fs = None ∨ (∃ c, os.node path fs = Some (os.Regular true true c)) →
          String.eqb path "" = false) as Hpath.
  { unfold os.node. destruct (String.eqb path ""); [|reflexivity].
    intros [? | [c ?]]; discriminate. }
  destruct (os.node path fs) as [[[|] [|] c| | | |]|] eqn:Hnode; try discriminate; intros _.
  - cbn [file.self file.filePath file.disk].
    rewrite node_insert by (apply Hpath; right; now exists c). now split.
  - cbn [file.self file.filePath file.disk].
    rewrite node_insert by (apply Hpath; now left). now split.
Qed.

(** C10.  [Set] of the file backend does not look at the lock ID or at the
    comment: two calls with the same data on the same store end in the same
    store and return the same error. *)
Theorem file_Set_ignores_lock_and_comment (f : file.Store)
    (data lockID1 comment1 lockID2 comment2 : string) :
  file.Set_ data lockID1 comment1 f = file.Set_ data lockID2 comment2 f.
Proof. reflexivity. Qed.

End FileBackend.

(** ** The claims on concrete runs *)

Section Examples.
#[local] Existing Instance example.codec.
#[local] Existing Instance file.backend.
#[local] Existing Instance memory.backend.

(** C1 on a run: a GET without credentials on a disk that holds a state. *)
Lemma unauthorized_401_then_served_witness :
  http.BasicAuth example.anonymous ≠ Some ("auth", example.password)
  ∧ (let h := serveHTTP example.comment "auth" example.password in
     let '(response, b', made) :=
       serve h example.anonymous (file.mkStore example.configured example.oldDisk) in
     let '(response0, b0, made0) :=
       serve h (withCredentials "auth" example.password example.anonymous)
         (file.mkStore example.configured example.oldDisk) in
     code response = http.StatusUnauthorized
     ∧ b' = b0 ∧ made = made0 ∧ made ≠ []
     ∧ payload response = unauthorizedLine example.anonymous ++ payload response0
     ∧ (made, b') = ([CallGet], file.mkStore example.configured example.oldDisk)).
Proof.
  assert (http.BasicAuth example.anonymous ≠ Some ("auth", example.password)) as Hne
    by discriminate.
  split; [exact Hne|].
  exact (unauthorized_401_then_served example.comment "auth" example.password
           example.anonymous (file.mkStore example.configured example.oldDisk) Hne).
Defined.

(** The same run, computed: the answer is 401, [Get] is called all the
    same, and the state follows the [Unauthorized] line in the body. *)
Example anonymous_get_reads_state :
  serve (serveHTTP example.comment "auth" example.password) example.anonymous
    (file.mkStore example.configured example.oldDisk)
  = ({| code := 401; payload := "Unauthorized" ++ LF ++ "old" |},
     file.mkStore example.configured example.oldDisk, [CallGet]).
Proof. vm_compute. reflexivity. Qed.

(** C2 on a failing run.  The wrapper is started as [wrapper terraform plan]
    on a disk that holds an earlier state, and the child posts a new state
    under the lock ID [lock-123].  The child is [terraform]; the argument
    passed to it is [plan], its first argument that is no flag.  The loop of
    [Wrap] runs over the command name as well and stops at it: [Set] is
    called once, with the new state and the lock ID, and the answer is 200
    with an empty body, but the comment names [terraform]. *)
Theorem post_comment_names_the_command :
  firstNonFlag (tail example.command) "plan"
  ∧ terraformAction example.command = "terraform"
  ∧ match serving (Wrap example.world example.command
                     (start example.world example.blankStore)).2 with
    | Some h =>
        serve h (example.request "POST" "new" [("ID", "lock-123")])
          (file.mkStore example.configured example.oldDisk)
        = ({| code := 200; payload := "" |},
           file.mkStore example.configured
             {[ example.statePath := os.Regular true true "new" ]},
           [CallSet "new" "lock-123"
              "updated with terraform 'terraform' by 'Alice Liddell'"])
    | None => False
    end.
Proof.
  split; [apply (firstNonFlag_found [] "plan" []); [constructor | reflexivity]|].
  split; [reflexivity|]. vm_compute. reflexivity.
Qed.

(** C3 on a failing run.  The state file stops reading after nine bytes:
    [os.ReadFile] returns those bytes next to the error, the handler answers
    500 with the text of the error, does not return, and writes the bytes it
    was given after it. *)
Theorem get_error_then_data :
  serve (serveHTTP example.comment "auth" example.password)
    (example.request "GET" "" [])
    (file.mkStore example.configured example.failingDisk)
  = ({| code := 500;
        payload := "read terraform.tfstate: input/output error" ++ LF ++ "{ partial" |},
     file.mkStore example.configured example.failingDisk, [CallGet]).
Proof. vm_compute. reflexivity. Qed.

(** The file backend is not lockable: LOCK is answered 405. *)
Example file_backend_refuses_lock :
  serve (serveHTTP example.comment "auth" example.password)
    (example.request "LOCK" (tabulated.document tabulated.bob) [])
    (file.mkStore example.configured example.oldDisk)
  = ({| code := 405; payload := "invalid method" ++ LF |},
     file.mkStore example.configured example.oldDisk, [CallLockable]).
Proof. vm_compute. reflexivity. Qed.

(** C5 on a failing run.  A LOCK request whose body does not decode, while
    alice holds the lock: the handler answers 500 with the text of the
    decoding error, does not return, calls [Lock] with the zero [LockInfo],
    and writes the holder after the error. *)
Theorem undecodable_lock_then_holder :
  serve (serveHTTP example.comment "auth" example.password)
    (example.request "LOCK" "{" [])
    (memory.mkStore (Some "old") (Some tabulated.alice))
  = ({| code := 500;
        payload := "unexpected end of JSON input" ++ LF
                     ++ tabulated.document tabulated.alice |},
     memory.mkStore (Some "old") (Some tabulated.alice),
     [CallLockable; CallLock zeroLockInfo]).
Proof. vm_compute. reflexivity. Qed.

(** The same request while the lock is free: the answer is 500, and the
    lock is now held by the zero [LockInfo]. *)
Example undecodable_lock_takes_lock :
  serve (serveHTTP example.comment "auth" example.password)
    (example.request "LOCK" "{" [])
    (memory.mkStore (Some "old") None)
  = ({| code := 500; payload := "unexpected end of JSON input" ++ LF |},
     memory.mkStore (Some "old") (Some zeroLockInfo),
     [CallLockable; CallLock zeroLockInfo]).
Proof. vm_compute. reflexivity. Qed.

(** A first run of the file backend through the adapter: nothing is stored
    and GET is answered 404; a POST stores a state; GET returns it. *)
Example empty_then_stored :
  let h := serveHTTP example.comment "auth" example.password in
  let f0 := file.mkStore example.configured ∅ in
  let f1 := file.mkStore example.configured
              {[ example.statePath := os.Regular true true "state-v1" ]} in
  serve h (example.request "GET" "" []) f0
    = ({| code := 404; payload := "" |}, f0, [CallGet])
  ∧ serve h (example.request "POST" "state-v1" []) f0
    = ({| code := 200; payload := "" |}, f1,
       [CallSet "state-v1" "" example.comment])
  ∧ serve h (example.request "GET" "" []) f1
    = ({| code := 200; payload := "state-v1" |}, f1, [CallGet]).
Proof. vm_compute. repeat split. Qed.

(** C6 on a run: the child exits with status 7. *)
Lemma wrap_exit_witness :
  let w := example.world in
  let b := example.blankStore in
  let b' := file.mkStore example.configured ∅ in
  let args := example.command in
  Config (environ w) b = (b', None)
  ∧ listen w = inr 40123%N
  ∧ currentUser w = Some example.alice
  ∧ (let '(ending, p) := Wrap w args (start w b) in
     match args with
     | [] => ending = inl (Fatal "usage: ./wrapper terraform plan|apply|validate...")
     | _ :: _ =>
         ∃ childEnv, started p = Some (args, childEnv)
           ∧ match spawn w args childEnv with
             | exec.Exited status => ending = inl (ExitCode status)
             | exec.Signaled => ending = inl (ExitCode (-1))
             | exec.Failed err => ending = inl (Fatal err)
             end
     end).
Proof.
  intros w b b' args. do 3 (split; [reflexivity|]).
  apply (wrap_exit lcg.rand w b b' 40123%N example.alice args); reflexivity.
Defined.

(** The same run, computed: the wrapper exits with status 7; and with no
    command at all it ends with the usage message. *)
Example wrapper_exits_with_7 :
  (Wrap example.world example.command (start example.world example.blankStore)).1
  = inl (ExitCode 7).
Proof. vm_compute. reflexivity. Qed.

Example wrapper_without_command :
  (Wrap example.world [] (start example.world example.blankStore)).1
  = inl (Fatal "usage: ./wrapper terraform plan|apply|validate...").
Proof. vm_compute. reflexivity. Qed.

(** C7 as stated fails on a run, in both halves.  The wrapper starts with
    the environment of the shell, which holds a lock address of another
    tool, and runs the file backend, which is not lockable.  At the end the
    environment of the wrapper itself holds the address of the adapter; and
    the child has seen a lock address. *)
Lemma published_to_child_only_fails :
  ¬ parentUntouched example.world example.blankStore example.command
  ∧ ¬ lockAddressesIffLockable example.world example.blankStore example.command.
Proof.
  split.
  - unfold parentUntouched. intros Henv.
    apply (f_equal (λ m : os.Env, m !! "TF_HTTP_ADDRESS")) in Henv.
    vm_compute in Henv. discriminate Henv.
  - unfold lockAddressesIffLockable. intros Hlock.
    specialize (Hlock (published false (address 40123) example.password example.shellEnv)).
    assert (started (Wrap example.world example.command
                       (start example.world example.blankStore)).2
            = Some (example.command,
                    published false (address 40123) example.password example.shellEnv))
      as Hstarted by (vm_compute; reflexivity).
    specialize (Hlock Hstarted).
    change (Lockable _) with false in Hlock. destruct Hlock as [Hlock _].
    assert (published false (address 40123) example.password example.shellEnv
              !! "TF_HTTP_LOCK_ADDRESS" = Some "http://elsewhere/lock") as Hseen
      by (vm_compute; reflexivity).
    rewrite Hseen in Hlock. discriminate Hlock.
Qed.

(** The amended C7 on the same run. *)
Lemma environment_published_witness :
  let w := example.world in
  let b := example.blankStore in
  let b' := file.mkStore example.configured ∅ in
  Config (environ w) b = (b', None)
  ∧ listen w = inr 40123%N
  ∧ currentUser w = Some example.alice
  ∧ (let p := (Wrap w ("terraform" :: ["plan"]) (start w b)).2 in
     ∃ childEnv password,
       started p = Some ("terraform" :: ["plan"], childEnv)
       ∧ env p = childEnv
       ∧ randSeq lcg.rand 32 (clock w) = Some password
       ∧ childEnv !! "TF_HTTP_ADDRESS" = Some (address 40123)
       ∧ childEnv !! "TF_HTTP_USERNAME" = Some "auth"
       ∧ childEnv !! "TF_HTTP_PASSWORD" = Some password
       ∧ (if Lockable b'
          then childEnv !! "TF_HTTP_LOCK_ADDRESS" = Some (address 40123)
               ∧ childEnv !! "TF_HTTP_UNLOCK_ADDRESS" = Some (address 40123)
          else childEnv !! "TF_HTTP_LOCK_ADDRESS" = environ w !! "TF_HTTP_LOCK_ADDRESS"
               ∧ childEnv !! "TF_HTTP_UNLOCK_ADDRESS"
                 = environ w !! "TF_HTTP_UNLOCK_ADDRESS")
       ∧ ∀ key, key ∉ ["TF_HTTP_ADDRESS"; "TF_HTTP_USERNAME"; "TF_HTTP_PASSWORD";
                       "TF_HTTP_LOCK_ADDRESS"; "TF_HTTP_UNLOCK_ADDRESS"] →
                childEnv !! key = environ w !! key).
Proof.
  intros w b b'. do 3 (split; [reflexivity|]).
  apply (environment_published lcg.rand w b b' 40123%N example.alice "terraform" ["plan"]);
    reflexivity.
Defined.

(** What the child of that run finds in its environment. *)
Example child_environment :
  match started (Wrap example.world example.command
                   (start example.world example.blankStore)).2 with
  | Some (_, childEnv) =>
      childEnv !! "TF_HTTP_ADDRESS" = Some "http://127.0.0.1:40123/backend"
      ∧ childEnv !! "TF_HTTP_USERNAME" = Some "auth"
      ∧ childEnv !! "TF_HTTP_PASSWORD" = Some "BmLgBCjkRCjcdCjwlqjcpWPYFunYxWTU"
      ∧ childEnv !! "TF_HTTP_LOCK_ADDRESS" = Some "http://elsewhere/lock"
      ∧ childEnv !! "TF_HTTP_UNLOCK_ADDRESS" = None
  | None => False
  end.
Proof. vm_compute. repeat split. Qed.

(** C8 on a run: a new state replaces an earlier one. *)
Lemma file_Set_then_Get_witness :
  let f := file.mkStore example.configured example.oldDisk in
  durable f = true
  ∧ (let '(f', err) := file.Set_ "state-v1" "lock-123" example.comment f in
     err = None ∧ file.Get f' = (f', (Some "state-v1", None))).
Proof.
  intros f. split; [reflexivity|].
  apply (file_Set_then_Get f "state-v1" "lock-123" example.comment). reflexivity.
Defined.

(** C9 on a run. *)
Lemma session_credentials_witness :
  let w := example.world in
  let h := serveHTTP (commentOf "terraform" example.alice) "auth" example.password in
  serving (Wrap w example.command (start w example.blankStore)).2 = Some h
  ∧ ∃ comment password,
      h = serveHTTP comment "auth" password
      ∧ randSeq lcg.rand 32 (clock w) = Some password
      ∧ String.length password = 32%nat
      ∧ Forall (λ c, isLetter c = true) (list_ascii_of_string password).
Proof.
  intros w h.
  assert (serving (Wrap w example.command (start w example.blankStore)).2 = Some h)
    as Hserving by reflexivity.
  split; [exact Hserving|].
  exact (session_credentials lcg.rand w example.blankStore example.command h Hserving).
Defined.

End Examples.

(** * More of the adapter *)

Ltac start_writer HM :=
  unfold http.newResponseWriter; rewrite HM;
  change (String.eqb _ "HEAD") with false; fold blank.

Ltac step_writer :=
  unfold blank;
  repeat
    (match goal with
     | |- context [http.Error ?m ?c (http.Build_ResponseWriter ?h false ?s ?bd)] =>
         rewrite (Error_unwritten m c (http.Build_ResponseWriter h false s bd))
           by reflexivity
     | |- context [http.Error ?m ?c (http.Build_ResponseWriter ?h true ?s ?bd)] =>
         rewrite (Error_sent m c (http.Build_ResponseWriter h true s bd))
           by reflexivity
     | |- context [http.WriteHeader ?c (http.Build_ResponseWriter ?h false ?s ?bd)] =>
         rewrite (WriteHeader_unwritten c (http.Build_ResponseWriter h false s bd))
           by reflexivity
     | |- context [http.WriteHeader ?c (http.Build_ResponseWriter ?h true ?s ?bd)] =>
         rewrite (WriteHeader_sent c (http.Build_ResponseWriter h true s bd))
           by reflexivity
     | |- context [http.Write ?d (http.Build_ResponseWriter ?h true ?s ?bd)] =>
         rewrite (Write_sent d (http.Build_ResponseWriter h true s bd))
           by reflexivity
     end;
     cbn [http.wroteHeader http.status http.head http.body]);
  unfold http.finishRequest;
  cbn [http.wroteHeader http.status http.head http.body code payload].

Section MoreMethods.
Context {B : Type} `{!Backend B} `{!json.Codec LockInfo}.

(** X1.  A DELETE request with the session's credentials makes exactly one
    call on the backend, [Delete]; it is answered 200 with an empty body
    when [Delete] succeeds and 500 with the text of the error when it
    fails. *)
Theorem delete_responses comment authUser authPassword (request : http.Request) (b : B) :
  http.Method request = "DELETE" →
  authorized authUser authPassword request →
  let '(b', err) := Delete b in
  serve (serveHTTP comment authUser authPassword) request b =
    (match err with
     | None => {| code := http.StatusOK; payload := "" |}
     | Some e => {| code := http.StatusInternalServerError; payload := errorText e |}
     end, b', [CallDelete]).
Proof.
  intros HM HA. rewrite serve_authorized by exact HA.
  unfold dispatch. rewrite HM.
  change (String.eqb "DELETE" http.MethodGet) with false.
  change (String.eqb "DELETE" http.MethodPost) with false.
  change (String.eqb "DELETE" http.MethodDelete) with true.
  start_writer HM. step_handler.
  destruct (Delete b) as [b' [e|]]; step_handler; step_writer; reflexivity.
Qed.

(** X2.  An UNLOCK request with the session's credentials is answered 405
    when the backend is not lockable.  When it is lockable and the body was
    read and decodes to a [LockInfo], [UnLock] is called once with it: the
    answer is 200 with an empty body when it succeeds, 500 with the text of
    the error when it fails. *)
Theorem unlock_responses comment authUser authPassword (request : http.Request) (b : B) :
  http.Method request = "UNLOCK" →
  authorized authUser authPassword request →
  let h := serveHTTP comment authUser authPassword in
  (Lockable b = false →
     serve h request b =
       ({| code := http.StatusMethodNotAllowed; payload := errorText "invalid method" |},
        b, [CallLockable]))
  ∧ (Lockable b = true →
     http.BodyErr request = None →
     ∀ lockData, json.Unmarshal (http.Body request) zeroLockInfo = (lockData, None) →
     let '(b', err) := UnLock lockData b in
     serve h request b =
       (match err with
        | None => {| code := http.StatusOK; payload := "" |}
        | Some e => {| code := http.StatusInternalServerError; payload := errorText e |}
        end, b', [CallLockable; CallUnLock lockData])).
Proof.
  intros HM HA h. unfold h. rewrite !serve_authorized by exact HA.
  unfold dispatch. rewrite HM.
  change (String.eqb "UNLOCK" http.MethodGet) with false.
  change (String.eqb "UNLOCK" http.MethodPost) with false.
  change (String.eqb "UNLOCK" http.MethodDelete) with false.
  change (String.eqb "UNLOCK" "LOCK") with false.
  change (String.eqb "UNLOCK" "UNLOCK") with true.
  cbn [orb]. start_writer HM. step_handler. split.
  - intros ->. step_handler. step_writer. reflexivity.
  - intros -> -> lockData ->. step_handler.
    destruct (UnLock lockData b) as [b' [e|]]; step_handler; step_writer; reflexivity.
Qed.

(** The dispatch for a method the first [switch] has no case for, when the
    backend is not lockable or the second has none either. *)
Lemma dispatch_invalid comment (request : http.Request) (s : State B) :
  stateMethod (http.Method request) = false →
  Lockable (backend s) && lockMethod (http.Method request) = false →
  dispatch comment request s =
    (tt, mkState (backend s)
           (http.Error "invalid method" http.StatusMethodNotAllowed (writer s))
           (calls s ++ [CallLockable])).
Proof.
  unfold stateMethod, lockMethod, dispatch, http.MethodGet, http.MethodPost,
    http.MethodDelete.
  intros HS HL.
  destruct (String.eqb (http.Method request) "GET"); [discriminate|].
  destruct (String.eqb (http.Method request) "POST"); [discriminate|].
  destruct (String.eqb (http.Method request) "DELETE"); [discriminate|].
  step_handler.
  destruct (Lockable (backend s)); [|reflexivity].
  cbn [andb] in HL. rewrite HL. reflexivity.
Qed.

(** X3.  A request with the session's credentials whose method is none of
    GET, POST, DELETE, LOCK and UNLOCK is answered 405 with the text
    [invalid method]; the backend is asked whether it is lockable and is
    left as it was. *)
Theorem other_methods_405 comment authUser authPassword (request : http.Request) (b : B) :
  stateMethod (http.Method request) = false →
  lockMethod (http.Method request) = false →
  authorized authUser authPassword request →
  serve (serveHTTP comment authUser authPassword) request b =
    ({| code := http.StatusMethodNotAllowed;
        payload := errorBody request "invalid method" |}, b, [CallLockable]).
Proof.
  intros HS HL HA. rewrite serve_authorized by exact HA.
  rewrite dispatch_invalid; cbn [backend writer calls]; [|exact HS|].
  2:{ rewrite HL. apply andb_false_r. }
  rewrite Error_unwritten by reflexivity. unfold http.finishRequest, errorBody.
  cbn [http.wroteHeader http.status http.head http.body http.newResponseWriter].
  now destruct (String.eqb (http.Method request) "HEAD").
Qed.

(** X4.  Whatever the credentials and whatever else goes wrong, the calls
    a request makes on the backend are fixed by its method: GET calls [Get]
    once and nothing else, POST calls [Set] once with the bytes read, the
    [ID] of the query and the comment, DELETE calls [Delete] once; any other
    method asks [Lockable], and only LOCK and UNLOCK on a lockable backend
    go on, to one call of [Lock] or [UnLock] with what the body decoded
    to. *)
Theorem calls_by_method comment authUser authPassword (request : http.Request) (b : B) :
  let method := http.Method request in
  (serve (serveHTTP comment authUser authPassword) request b).2 =
    if String.eqb method "GET" then [CallGet]
    else if String.eqb method "POST"
    then [CallSet (http.Body request) (http.QueryGet "ID" (http.Query request)) comment]
    else if String.eqb method "DELETE" then [CallDelete]
    else if Lockable b && lockMethod method
    then let lockData := (json.Unmarshal (http.Body request) zeroLockInfo).1 in
         [CallLockable;
          if String.eqb method "LOCK" then CallLock lockData else CallUnLock lockData]
    else [CallLockable].
Proof.
  intros method. unfold serve. rewrite serveHTTP_run.
  pose proof (checkAuth_frame authUser authPassword request
                (mkState b (http.newResponseWriter request) [])) as [Hb Hc].
  pose proof (dispatch_calls comment request
                (checkAuth authUser authPassword request
                   (mkState b (http.newResponseWriter request) [])).2) as Hd.
  destruct (dispatch comment request _) as [[] s']. cbn [snd] in *.
  rewrite Hd, Hc, Hb. reflexivity.
Qed.

(** *** What the dispatch keeps of the writer *)

Lemma preserves_ret Q {A} (a : A) : preserves Q (mret a : Handler B A).
Proof. intros s Hs. exact Hs. Qed.

Lemma preserves_bind Q {A C} (m : Handler B A) (k : A → Handler B C) :
  preserves Q m → (∀ a, preserves Q (k a)) → preserves Q (m ≫= k).
Proof.
  intros Hm Hk s Hs. unfold mbind, handler_bind.
  specialize (Hm s Hs). destruct (m s) as [a s']. now apply Hk.
Qed.

Lemma preserves_onBackend Q {A} c (f : B → B * A) : preserves Q (onBackend c f).
Proof. intros s Hs. unfold onBackend. now destruct (f (backend s)). Qed.

Lemma preserves_onWriter (Q : http.ResponseWriter → Prop) f :
  (∀ w, Q w → Q (f w)) → preserves Q (onWriter (B := B) f).
Proof. intros Hf s Hs. now apply Hf. Qed.

Lemma answers_OK : http.StatusOK ∈ answers.
Proof. apply list_elem_of_here. Qed.

Lemma answers_NotFound : http.StatusNotFound ∈ answers.
Proof. apply list_elem_of_further, list_elem_of_here. Qed.

Lemma answers_MethodNotAllowed : http.StatusMethodNotAllowed ∈ answers.
Proof. do 2 apply list_elem_of_further. apply list_elem_of_here. Qed.

Lemma answers_Conflict : http.StatusConflict ∈ answers.
Proof. do 3 apply list_elem_of_further. apply list_elem_of_here. Qed.

Lemma answers_InternalServerError : http.StatusInternalServerError ∈ answers.
Proof. do 4 apply list_elem_of_further. apply list_elem_of_here. Qed.

Ltac preserves_step HWH HW :=
  lazymatch goal with
  | |- preserves _ (mbind _ _) => apply preserves_bind; [|intros ?]
  | |- preserves _ (ifErr ?e _) =>
      destruct e;
      [ apply preserves_onWriter; intros; unfold http.Error; apply HW, HWH;
        [apply answers_InternalServerError | assumption]
      | apply preserves_ret ]
  | |- preserves _ (onBackend _ _) => apply preserves_onBackend
  | |- preserves _ (onWriter (http.WriteHeader _)) =>
      apply preserves_onWriter; intros; apply HWH;
      [first [apply answers_OK | apply answers_NotFound | apply answers_Conflict]
      | assumption]
  | |- preserves _ (onWriter (http.Write _)) =>
      apply preserves_onWriter; intros; now apply HW
  | |- preserves _ invalidMethod =>
      apply preserves_onWriter; intros; unfold http.Error; apply HW, HWH;
      [apply answers_MethodNotAllowed | assumption]
  | |- preserves _ skip => apply preserves_ret
  | |- preserves _ (mret _) => apply preserves_ret
  | |- preserves _ (if ?c then _ else _) => destruct c
  | |- preserves _ (match ?x with _ => _ end) => destruct x
  end.

(** The dispatch keeps every property of the writer that [WriteHeader] with
    one of its statuses and [Write] keep. *)
Lemma dispatch_preserves (Q : http.ResponseWriter → Prop) comment request :
  (∀ c w, c ∈ answers → Q w → Q (http.WriteHeader c w)) →
  (∀ d w, Q w → Q (http.Write d w)) →
  preserves (B := B) Q (dispatch comment request).
Proof. intros HWH HW. unfold dispatch. repeat preserves_step HWH HW. Qed.

Lemma sent_WriteHeader code0 c w : sent code0 w → sent code0 (http.WriteHeader c w).
Proof. intros [Hw Hs]. now rewrite WriteHeader_sent. Qed.

Lemma sent_Write code0 d w : sent code0 w → sent code0 (http.Write d w).
Proof.
  intros [Hw Hs]. unfold http.Write. rewrite Hw.
  repeat match goal with |- context [if ?c then _ else _] => destruct c end; now split.
Qed.

Lemma unsentOrAnswered_WriteHeader c w :
  c ∈ answers → unsentOrAnswered w → unsentOrAnswered (http.WriteHeader c w).
Proof.
  intros Hc Hw. unfold http.WriteHeader.
  destruct (http.wroteHeader w) eqn:Hsent; [exact Hw|]. now right.
Qed.

Lemma unsentOrAnswered_Write d w : unsentOrAnswered w → unsentOrAnswered (http.Write d w).
Proof.
  intros Hw. unfold http.Write.
  assert (unsentOrAnswered (if http.wroteHeader w then w else http.WriteHeader http.StatusOK w))
    as Hw'.
  { destruct (http.wroteHeader w) eqn:Hsent; [exact Hw|].
    apply unsentOrAnswered_WriteHeader; [apply answers_OK | exact Hw]. }
  repeat match goal with
         | |- context [if String.eqb ?a ?b then _ else _] => destruct (String.eqb a b)
         | |- context [if negb ?c then _ else _] => destruct (negb c)
         | |- context [if http.head ?c then _ else _] => destruct (http.head c)
         end; exact Hw'.
Qed.

Lemma unauthorized_not_answer : http.StatusUnauthorized ∉ answers.
Proof.
  unfold answers. intros Hin.
  repeat (apply elem_of_cons in Hin as [Hin|Hin]; [discriminate Hin|]).
  now apply elem_of_nil in Hin.
Qed.

(** The status of the answer to a request with the credentials, and to one
    without. *)
Lemma status_authorized comment authUser authPassword (request : http.Request) (b : B) :
  authorized authUser authPassword request →
  code (serve (serveHTTP comment authUser authPassword) request b).1.1 ∈ answers.
Proof.
  intros HA. rewrite serve_authorized by exact HA.
  pose proof (dispatch_preserves unsentOrAnswered comment request
                unsentOrAnswered_WriteHeader unsentOrAnswered_Write
                (mkState b (http.newResponseWriter request) [])) as Hd.
  destruct (dispatch comment request _) as [[] s']. cbn [fst snd code] in *.
  specialize (Hd (or_introl eq_refl)). unfold http.finishRequest, http.WriteHeader.
  destruct Hd as [Hunsent | Hin].
  - rewrite Hunsent. cbn [http.status]. apply answers_OK.
  - destruct (http.wroteHeader (writer s')); [exact Hin | apply answers_OK].
Qed.

Lemma status_unauthorized comment authUser authPassword (request : http.Request) (b : B) :
  http.BasicAuth request ≠ Some (authUser, authPassword) →
  code (serve (serveHTTP comment authUser authPassword) request b).1.1
  = http.StatusUnauthorized.
Proof.
  intros Hne. unfold serve. rewrite serveHTTP_run, (unauthorized_test _ _ _ Hne).
  unfold onWriter at 1. cbn [snd backend writer calls].
  pose proof (dispatch_preserves (sent http.StatusUnauthorized) comment request
                (λ c w _, sent_WriteHeader _ c w) (sent_Write _)
                (mkState b (http.Error "Unauthorized" http.StatusUnauthorized
                              (http.newResponseWriter request)) [])) as Hd.
  destruct (dispatch comment request _) as [[] s']. cbn [fst snd code] in *.
  destruct Hd as [Hw Hs].
  { rewrite Error_unwritten by reflexivity. now split. }
  unfold http.finishRequest. now rewrite Hw.
Qed.

(** X5.  A request is answered 401 exactly when its Basic credentials are
    missing or differ from the session's; every other answer has one of the
    statuses 200, 404, 405, 409 and 500. *)
Theorem status_401_iff comment authUser authPassword (request : http.Request) (b : B) :
  let status := code (serve (serveHTTP comment authUser authPassword) request b).1.1 in
  (status = http.StatusUnauthorized ↔ http.BasicAuth request ≠ Some (authUser, authPassword))
  ∧ (status = http.StatusUnauthorized ∨ status ∈ answers).
Proof.
  intros status. unfold status.
  destruct (decide (http.BasicAuth request = Some (authUser, authPassword))) as [HA|Hne].
  - pose proof (status_authorized comment authUser authPassword request b HA) as Hin.
    split; [|now right]. split; [|done].
    intros Heq. rewrite Heq in Hin. now apply unauthorized_not_answer in Hin.
  - pose proof (status_unauthorized comment authUser authPassword request b Hne) as Heq.
    split; [|now left]. now split.
Qed.

(** X6.  A POST request with the session's credentials whose body could
    not be read to the end is answered 500 with the text of the read error,
    and the handler goes on: [Set] is called once all the same, with the
    bytes that were read, and the text of its error, if it fails, follows in
    the body. *)
Theorem post_after_read_error comment authUser authPassword
    (request : http.Request) (b : B) (e : error) :
  http.Method request = "POST" →
  authorized authUser authPassword request →
  http.BodyErr request = Some e →
  let lockID := http.QueryGet "ID" (http.Query request) in
  let '(b', err) := Set_ (http.Body request) lockID comment b in
  serve (serveHTTP comment authUser authPassword) request b =
    ({| code := http.StatusInternalServerError;
        payload := errorText e ++ match err with
                                  | Some e' => errorText e'
                                  | None => ""
                                  end |},
     b', [CallSet (http.Body request) lockID comment]).
Proof.
  intros HM HA HE lockID. rewrite serve_authorized by exact HA.
  unfold dispatch. rewrite HM, HE.
  change (String.eqb "POST" http.MethodGet) with false.
  change (String.eqb "POST" http.MethodPost) with true.
  start_writer HM. step_handler. fold lockID.
  destruct (Set_ (http.Body request) lockID comment b) as [b' [e'|]];
    step_handler; step_writer; unfold errorText; rewrite ?append_empty_r; reflexivity.
Qed.

End MoreMethods.

(** * More of the file backend *)

Section MoreFileBackend.
Context `{!json.Codec LockInfo}.
#[local] Existing Instance file.backend.

Lemma node_Some_named name (fs : os.FS) n :
  os.node name fs = Some n → n ≠ os.Orphan → String.eqb name "" = false.
Proof.
  unfold os.node. destruct (String.eqb name ""); [|reflexivity]. congruence.
Qed.

Lemma node_delete name (fs : os.FS) :
  String.eqb name "" = false → os.node name (delete name fs) = None.
Proof. intros Hn. unfold os.node. rewrite Hn. apply lookup_delete_eq. Qed.

(** X7.  When [Delete] reports success no state is left: the [Get] that
    follows returns neither data nor an error, and a second [Delete]
    succeeds and changes nothing. *)
Theorem file_Delete_then_Get (f f' : file.Store) :
  file.Delete f = (f', None) →
  file.Get f' = (f', (None, None)) ∧ file.Delete f' = (f', None).
Proof.
  unfold file.Delete, file.Get, os.Stat, os.Remove.
  destruct f as [[path] fs]. cbn [file.self file.filePath file.disk].
  destruct (os.node path fs) as [n|] eqn:Hnode.
  - destruct n as [r wr c|d e|[|]| |e]; intros Heq; try discriminate Heq;
      injection Heq as <-; cbn [file.self file.filePath file.disk];
      try (rewrite node_delete
             by (eapply node_Some_named; [exact Hnode | discriminate]); now split);
      rewrite Hnode; now split.
  - intros Heq. injection Heq as <-. cbn [file.self file.filePath file.disk].
    rewrite Hnode. now split.
Qed.

(** X9.  Through the adapter the file backend is never locked or unlocked:
    a request whose method is none of GET, POST and DELETE leaves the store
    as it was and makes no call but [Lockable]; it is answered 405 with the
    session's credentials and 401 without. *)
Theorem file_lock_never_called comment authUser authPassword
    (request : http.Request) (f : file.Store) :
  stateMethod (http.Method request) = false →
  let '(response, f', made) := serve (serveHTTP comment authUser authPassword) request f in
  f' = f ∧ made = [CallLockable]
  ∧ code response =
      if decide (http.BasicAuth request = Some (authUser, authPassword))
      then http.StatusMethodNotAllowed else http.StatusUnauthorized.
Proof.
  intros HS. unfold serve. rewrite serveHTTP_run.
  pose proof (checkAuth_frame authUser authPassword request
                (mkState f (http.newResponseWriter request) [])) as [Hb Hc].
  rewrite (dispatch_invalid comment request _ HS) by reflexivity.
  rewrite Hb, Hc. cbn [backend writer calls]. split; [reflexivity|]. split; [reflexivity|].
  destruct (decide (http.BasicAuth request = Some (authUser, authPassword))) as [HA|Hne].
  - rewrite authorized_test by exact HA. unfold skip, mret, handler_ret. cbn [snd writer].
    rewrite Error_unwritten by reflexivity. reflexivity.
  - rewrite (unauthorized_test _ _ _ Hne). unfold onWriter. cbn [snd writer].
    assert (sent http.StatusUnauthorized
              (http.Error "invalid method" http.StatusMethodNotAllowed
                 (http.Error "Unauthorized" http.StatusUnauthorized
                    (http.newResponseWriter request)))) as [Hw Hs].
    { unfold http.Error at 1. apply sent_Write, sent_WriteHeader.
      rewrite Error_unwritten by reflexivity. now split. }
    unfold http.finishRequest. now rewrite Hw.
Qed.

(** X10.  [Config] accepts a path variable that is set to the empty
    string; on the backend it leaves, [Get] finds no state, [Delete]
    succeeds, and every [Set] fails and leaves the store as it was. *)
Theorem file_empty_path (env : os.Env) (f : file.Store) :
  env !! "TF_STATE_WRAPPER_FILE_PATH" = Some "" →
  let '(f', err) := file.Config env f in
  err = None
  ∧ file.Get f' = (f', (None, None))
  ∧ file.Delete f' = (f', None)
  ∧ ∀ data lockID comment, ∃ e, file.Set_ data lockID comment f' = (f', Some e).
Proof.
  intros Henv. unfold file.Config, os.LookupEnv. rewrite Henv.
  repeat split. intros data lockID comment. eexists. reflexivity.
Qed.

End MoreFileBackend.

(** * More of the orchestrator *)

Ltac wrap_Config HC :=
  unfold Wrap;
  erewrite proc_bind_inr
    by (unfold runConfig, start; cbn [env store]; rewrite HC; reflexivity).

Ltac wrap_listen HC HL :=
  wrap_Config HC;
  erewrite proc_bind_inr by reflexivity;
  rewrite HL; cbn [createListener].

Section MoreOrchestrator.
Context {B : Type} `{!Backend B} `{!json.Codec LockInfo} (r : Rand).

(** X11.  When [Config] fails, [Wrap] ends in [log.Fatal] with the error
    of [Config]: no listener is bound, nothing is served, no variable is
    set and no command is started, whatever the arguments. *)
Theorem wrap_config_failure (w : World r) (b b' : B) (e : error) (args : list string) :
  Config (environ w) b = (b', Some e) →
  Wrap w args (start w b) = (inl (Fatal e), mkProcess (environ w) b' None None None).
Proof.
  intros HC. wrap_Config HC. erewrite proc_bind_inl by reflexivity. reflexivity.
Qed.

(** X12.  When the listener cannot be bound, [Wrap] ends in [log.Fatal]
    with the error of [net.Listen]: the backend is configured, nothing is
    served, no variable is set and no command is started. *)
Theorem wrap_listen_failure (w : World r) (b b' : B) (e : error) (args : list string) :
  Config (environ w) b = (b', None) →
  listen w = inl e →
  Wrap w args (start w b) = (inl (Fatal e), mkProcess (environ w) b' None None None).
Proof.
  intros HC HL. wrap_listen HC HL. erewrite proc_bind_inl by reflexivity. reflexivity.
Qed.

(** X13.  When the current user cannot be looked up, [Wrap] panics where
    [backendHandler] reads the name of the user.  The listener was bound
    before, and the close that [Wrap] deferred runs while the panic unwinds:
    the process ends with the listener closed, and nothing is served, no
    variable is set and no command is started. *)
Theorem wrap_user_unknown (w : World r) (b b' : B) (port : N) (args : list string) :
  Config (environ w) b = (b', None) →
  listen w = inr port →
  currentUser w = None →
  Wrap w args (start w b)
  = (inl Panic, mkProcess (environ w) b' (Some (Closed port)) None None).
Proof.
  intros HC HL HU. wrap_listen HC HL.
  erewrite proc_bind_inr by reflexivity.
  erewrite proc_bind_inr by reflexivity.
  unfold defer. destruct (randSeq_letters r 32 (clock w)) as (password & -> & _).
  rewrite HU. reflexivity.
Qed.

(** X14.  [Wrap] never returns: every run ends in [os.Exit], [log.Fatal]
    or a panic, and a run without a command never ends in [os.Exit].  The
    close of the listener that [Wrap] defers runs on a panic only: after
    [os.Exit] or [log.Fatal] a listener that was bound is still open, and
    after a panic none is. *)
Theorem wrap_never_returns (w : World r) (b : B) (args : list string) :
  ∃ ending, (Wrap w args (start w b)).1 = inl ending
            ∧ (args = [] → ∀ code, ending ≠ ExitCode code)
            ∧ ∀ l, listener (Wrap w args (start w b)).2 = Some l →
                match ending with
                | Panic => l = Closed (Port l)
                | ExitCode _ | Fatal _ => l = TCPListener (Port l)
                end.
Proof.
  destruct (Config (environ w) b) as [b' [e|]] eqn:HC.
  { wrap_Config HC. erewrite proc_bind_inl by reflexivity. eexists.
    split; [reflexivity|]. split; [discriminate|]. intros l Hl. discriminate Hl. }
  destruct (listen w) as [e|port] eqn:HL.
  { wrap_listen HC HL. erewrite proc_bind_inl by reflexivity. eexists.
    split; [reflexivity|]. split; [discriminate|]. intros l Hl. discriminate Hl. }
  destruct (currentUser w) as [systemUser|] eqn:HU.
  - destruct (Wrap_ready r w b b' port systemUser args HC HL HU) as (password & _ & ->).
    destruct args as [|name rest]; eexists; (split; [reflexivity|]).
    + split; [discriminate|]. intros l Hl. injection Hl as <-. reflexivity.
    + split; [discriminate|]. intros l Hl. injection Hl as <-.
      now destruct (spawn w (name :: rest) _).
  - wrap_listen HC HL.
    erewrite proc_bind_inr by reflexivity.
    erewrite proc_bind_inr by reflexivity.
    unfold defer. destruct (randSeq_letters r 32 (clock w)) as (password & -> & _).
    rewrite HU. eexists. split; [reflexivity|]. split; [discriminate|].
    intros l Hl. injection Hl as <-. reflexivity.
Qed.

(** X15.  A command is started only after all of the setup: when a run
    has started a command, it is the one [Wrap] was given, with all its
    arguments and the environment of the wrapper; [Config] had succeeded on
    the backend in use, the listener is bound and the handler is served. *)
Theorem wrap_child_after_setup (w : World r) (b : B) (args : list string)
    (command : list string) (childEnv : os.Env) :
  let p := (Wrap w args (start w b)).2 in
  started p = Some (command, childEnv) →
  command = args ∧ args ≠ [] ∧ childEnv = env p
  ∧ is_Some (listener p) ∧ is_Some (serving p)
  ∧ Config (environ w) b = (store p, None).
Proof.
  intros p. unfold p.
  destruct (Config (environ w) b) as [b' [e|]] eqn:HC.
  { wrap_Config HC. erewrite proc_bind_inl by reflexivity. discriminate. }
  destruct (listen w) as [e|port] eqn:HL.
  { wrap_listen HC HL. erewrite proc_bind_inl by reflexivity. discriminate. }
  destruct (currentUser w) as [systemUser|] eqn:HU.
  - destruct (Wrap_ready r w b b' port systemUser args HC HL HU) as (password & _ & ->).
    destruct args as [|name rest]; cbn [snd started env store listener serving];
      [discriminate|].
    intros Hs. injection Hs as <- <-. repeat split; eauto.
  - wrap_listen HC HL.
    erewrite proc_bind_inr by reflexivity.
    erewrite proc_bind_inr by reflexivity.
    unfold defer. destruct (randSeq_letters r 32 (clock w)) as (password & -> & _).
    rewrite HU. discriminate.
Qed.

(** X16.  The child can authenticate: the user name and the password it
    finds in its environment are the ones the served handler checks.  A
    request that carries them is never answered 401, whatever the backend
    does; any other request is. *)
Theorem child_credentials_accepted (w : World r) (b b' : B) (port : N)
    (systemUser : user.User) (name : string) (rest : list string) :
  Config (environ w) b = (b', None) →
  listen w = inr port →
  currentUser w = Some systemUser →
  let p := (Wrap w (name :: rest) (start w b)).2 in
  ∃ h childEnv authUser authPassword,
    serving p = Some h
    ∧ started p = Some (name :: rest, childEnv)
    ∧ childEnv !! "TF_HTTP_USERNAME" = Some authUser
    ∧ childEnv !! "TF_HTTP_PASSWORD" = Some authPassword
    ∧ ∀ (request : http.Request) (b0 : B),
        (http.BasicAuth request = Some (authUser, authPassword) →
         code (serve h request b0).1.1 ≠ http.StatusUnauthorized)
        ∧ (http.BasicAuth request ≠ Some (authUser, authPassword) →
           code (serve h request b0).1.1 = http.StatusUnauthorized).
Proof.
  intros HC HL HU p.
  destruct (Wrap_ready r w b b' port systemUser (name :: rest) HC HL HU)
    as (password & HR & HW).
  unfold p. rewrite HW. cbn [snd serving started].
  eexists _, _, "auth", password. split; [reflexivity|]. split; [reflexivity|].
  split; [unfold published; destruct (Lockable b'); now simplify_map_eq|].
  split; [unfold published; destruct (Lockable b'); now simplify_map_eq|].
  intros request b0. split.
  - intros HA Heq.
    pose proof (status_authorized (commentOf (terraformAction (name :: rest)) systemUser)
                  "auth" password request b0 HA) as Hin.
    rewrite Heq in Hin. now apply unauthorized_not_answer in Hin.
  - apply status_unauthorized.
Qed.

(** X18.  The action [Wrap] picks is the first of its arguments that is
    neither empty nor starts with a dash, and the empty string when there is
    none.  The scan starts at the command name: a command whose name is not
    empty and starts with no dash is itself the action, whatever follows. *)
Theorem action_is_first_plain_argument (args : list string) :
  firstNonFlag args (terraformAction args)
  ∧ (∀ name rest, args = name :: rest → flagLike name = false →
       terraformAction args = name)
  ∧ (Forall (λ arg, flagLike arg = true) args → terraformAction args = "").
Proof.
  split; [apply terraformAction_firstNonFlag|]. split.
  - intros name rest -> Hname. destruct name as [|c name]; [discriminate|].
    cbn in Hname |- *. now rewrite Hname.
  - induction 1 as [|arg rest Harg _ IH]; [reflexivity|].
    destruct arg as [|c arg]; [exact IH|]. cbn in Harg |- *. now rewrite Harg.
Qed.

End MoreOrchestrator.

(** * main *)

Section MoreMain.
Context `{!json.Codec LockInfo} (r : Rand).
#[local] Existing Instance file.backend.

(** X17.  Started without the variable [TF_STATE_WRAPPER_FILE_PATH],
    [main] ends in [log.Fatal] with the message of [Config], whatever the
    command line: also when no command is given, where the usage message is
    not reached.  Nothing is bound, served, set or started, and the disk is
    as it was. *)
Theorem main_needs_path (w : World r) (disk : os.FS) (program : string)
    (args : list string) :
  environ w !! "TF_STATE_WRAPPER_FILE_PATH" = None →
  program.main w disk (program :: args)
  = (inl (Fatal "'TF_STATE_WRAPPER_FILE_PATH' must be set"),
     mkProcess (environ w) (file.mkStore {| file.filePath := "" |} disk) None None None).
Proof.
  intros Henv. unfold program.main.
  assert (Config (environ w) (file.mkStore {| file.filePath := "" |} disk)
          = (file.mkStore {| file.filePath := "" |} disk,
             Some "'TF_STATE_WRAPPER_FILE_PATH' must be set")) as HC.
  { cbn [Config file.backend]. unfold file.Config, os.LookupEnv. now rewrite Henv. }
  wrap_Config HC. erewrite proc_bind_inl by reflexivity. reflexivity.
Qed.

End MoreMain.

(** * The further properties on concrete runs *)

Section MoreExamples.
#[local] Existing Instance example.codec.
#[local] Existing Instance file.backend.
#[local] Existing Instance memory.backend.

(** X1 on a run: the stored state is deleted. *)
Lemma delete_responses_witness :
  let request := example.request "DELETE" "" [] in
  let b := file.mkStore example.configured example.oldDisk in
  http.Method request = "DELETE"
  ∧ authorized "auth" example.password request
  ∧ (let '(b', err) := Delete b in
     serve (serveHTTP example.comment "auth" example.password) request b =
       (match err with
        | None => {| code := http.StatusOK; payload := "" |}
        | Some e => {| code := http.StatusInternalServerError; payload := errorText e |}
        end, b', [CallDelete])).
Proof.
  intros request b. do 2 (split; [reflexivity|]).
  apply (delete_responses example.comment "auth" example.password request b);
    reflexivity.
Defined.

(** The same run, computed, and a second DELETE on the empty disk. *)
Example delete_twice :
  let h := serveHTTP example.comment "auth" example.password in
  let gone := file.mkStore example.configured (delete example.statePath example.oldDisk) in
  serve h (example.request "DELETE" "" [])
    (file.mkStore example.configured example.oldDisk)
    = ({| code := 200; payload := "" |}, gone, [CallDelete])
  ∧ serve h (example.request "DELETE" "" []) gone
    = ({| code := 200; payload := "" |}, gone, [CallDelete]).
Proof. vm_compute. repeat split. Qed.

(** X2 on a run: alice gives back the lock she holds. *)
Lemma unlock_responses_witness :
  let request := example.request "UNLOCK" (tabulated.document tabulated.alice) [] in
  let b := memory.mkStore (Some "old") (Some tabulated.alice) in
  let h := serveHTTP example.comment "auth" example.password in
  http.Method request = "UNLOCK"
  ∧ authorized "auth" example.password request
  ∧ Lockable b = true
  ∧ http.BodyErr request = None
  ∧ json.Unmarshal (http.Body request) zeroLockInfo = (tabulated.alice, None)
  ∧ (let '(b', err) := UnLock tabulated.alice b in
     serve h request b =
       (match err with
        | None => {| code := http.StatusOK; payload := "" |}
        | Some e => {| code := http.StatusInternalServerError; payload := errorText e |}
        end, b', [CallLockable; CallUnLock tabulated.alice])).
Proof.
  intros request b h. do 5 (split; [reflexivity|]).
  destruct (unlock_responses example.comment "auth" example.password request b
              eq_refl eq_refl) as [_ Hlockable].
  exact (Hlockable eq_refl eq_refl tabulated.alice eq_refl).
Defined.

(** The same run, computed; and bob, who does not hold the lock, is
    answered 500 with the error of [UnLock]. *)
Example unlock_by_holder_and_by_another :
  let h := serveHTTP example.comment "auth" example.password in
  let b := memory.mkStore (Some "old") (Some tabulated.alice) in
  serve h (example.request "UNLOCK" (tabulated.document tabulated.alice) []) b
    = ({| code := 200; payload := "" |}, memory.mkStore (Some "old") None,
       [CallLockable; CallUnLock tabulated.alice])
  ∧ serve h (example.request "UNLOCK" (tabulated.document tabulated.bob) []) b
    = ({| code := 500; payload := "lock is held by another" ++ LF |}, b,
       [CallLockable; CallUnLock tabulated.bob]).
Proof. vm_compute. repeat split. Qed.

(** X3 on a run: PUT on a lockable backend. *)
Lemma other_methods_405_witness :
  let request := example.request "PUT" "new" [] in
  let b := memory.mkStore (Some "old") None in
  stateMethod (http.Method request) = false
  ∧ lockMethod (http.Method request) = false
  ∧ authorized "auth" example.password request
  ∧ serve (serveHTTP example.comment "auth" example.password) request b =
      ({| code := http.StatusMethodNotAllowed;
          payload := errorBody request "invalid method" |}, b, [CallLockable]).
Proof.
  intros request b. do 3 (split; [reflexivity|]).
  apply (other_methods_405 example.comment "auth" example.password request b);
    reflexivity.
Defined.

(** X6 on a run: the body of a POST stops after four bytes; the four bytes
    are stored and the answer is 500. *)
Lemma post_after_read_error_witness :
  let request := scenario.truncated in
  let b := file.mkStore example.configured example.oldDisk in
  http.Method request = "POST"
  ∧ authorized "auth" example.password request
  ∧ http.BodyErr request = Some "unexpected EOF"
  ∧ (let lockID := http.QueryGet "ID" (http.Query request) in
     let '(b', err) := Set_ (http.Body request) lockID example.comment b in
     serve (serveHTTP example.comment "auth" example.password) request b =
       ({| code := http.StatusInternalServerError;
           payload := errorText "unexpected EOF" ++ match err with
                                                    | Some e' => errorText e'
                                                    | None => ""
                                                    end |},
        b', [CallSet (http.Body request) lockID example.comment])).
Proof.
  intros request b. do 3 (split; [reflexivity|]).
  apply (post_after_read_error example.comment "auth" example.password request b
           "unexpected EOF"); reflexivity.
Defined.

Example truncated_post_is_stored :
  serve (serveHTTP example.comment "auth" example.password) scenario.truncated
    (file.mkStore example.configured example.oldDisk)
  = ({| code := 500; payload := "unexpected EOF" ++ LF |},
     file.mkStore example.configured
       {[ example.statePath := os.Regular true true "{ pa" ]},
     [CallSet "{ pa" "" example.comment]).
Proof. vm_compute. reflexivity. Qed.

(** X7 on a run: the state file is removed. *)
Lemma file_Delete_then_Get_witness :
  let f := file.mkStore example.configured example.oldDisk in
  let f' := file.mkStore example.configured (delete example.statePath example.oldDisk) in
  file.Delete f = (f', None)
  ∧ file.Get f' = (f', (None, None)) ∧ file.Delete f' = (f', None).
Proof.
  intros f f'.
  assert (file.Delete f = (f', None)) as Hdelete by reflexivity.
  split; [exact Hdelete|]. exact (file_Delete_then_Get f f' Hdelete).
Defined.

(** X9 on a run: a LOCK request sent to the file backend. *)
Lemma file_lock_never_called_witness :
  let request := example.request "LOCK" (tabulated.document tabulated.bob) [] in
  let f := file.mkStore example.configured example.oldDisk in
  stateMethod (http.Method request) = false
  ∧ (let '(response, f', made) :=
       serve (serveHTTP example.comment "auth" example.password) request f in
     f' = f ∧ made = [CallLockable]
     ∧ code response =
         if decide (http.BasicAuth request = Some ("auth", example.password))
         then http.StatusMethodNotAllowed else http.StatusUnauthorized).
Proof.
  intros request f. split; [reflexivity|].
  apply (file_lock_never_called example.comment "auth" example.password request f).
  reflexivity.
Defined.

(** X10 on a run: the variable is set to the empty string. *)
Lemma file_empty_path_witness :
  scenario.emptyPath !! "TF_STATE_WRAPPER_FILE_PATH" = Some ""
  ∧ (let '(f', err) := file.Config scenario.emptyPath example.blankStore in
     err = None
     ∧ file.Get f' = (f', (None, None))
     ∧ file.Delete f' = (f', None)
     ∧ ∀ data lockID comment, ∃ e, file.Set_ data lockID comment f' = (f', Some e)).
Proof.
  assert (scenario.emptyPath !! "TF_STATE_WRAPPER_FILE_PATH" = Some "") as Henv
    by reflexivity.
  split; [exact Henv|].
  exact (file_empty_path scenario.emptyPath example.blankStore Henv).
Defined.

(** X11 on a run: the file backend without its variable. *)
Lemma wrap_config_failure_witness :
  let w := scenario.noPath in
  let b := example.blankStore in
  Config (environ w) b = (b, Some "'TF_STATE_WRAPPER_FILE_PATH' must be set")
  ∧ Wrap w example.command (start w b)
    = (inl (Fatal "'TF_STATE_WRAPPER_FILE_PATH' must be set"),
       mkProcess (environ w) b None None None).
Proof.
  intros w b. split; [reflexivity|].
  apply (wrap_config_failure lcg.rand w b b
           "'TF_STATE_WRAPPER_FILE_PATH' must be set" example.command).
  reflexivity.
Defined.

(** X12 on a run: no port can be bound. *)
Lemma wrap_listen_failure_witness :
  let w := scenario.noPort in
  let b := example.blankStore in
  let b' := file.mkStore example.configured ∅ in
  let e := "listen tcp 127.0.0.1:0: bind: cannot assign requested address" in
  Config (environ w) b = (b', None)
  ∧ listen w = inl e
  ∧ Wrap w example.command (start w b)
    = (inl (Fatal e), mkProcess (environ w) b' None None None).
Proof.
  intros w b b' e. do 2 (split; [reflexivity|]).
  apply (wrap_listen_failure lcg.rand w b b' e example.command); reflexivity.
Defined.

(** X13 on a run: the current user is unknown. *)
Lemma wrap_user_unknown_witness :
  let w := scenario.noUser in
  let b := example.blankStore in
  let b' := file.mkStore example.configured ∅ in
  Config (environ w) b = (b', None)
  ∧ listen w = inr 40123%N
  ∧ currentUser w = None
  ∧ Wrap w example.command (start w b)
    = (inl Panic, mkProcess (environ w) b' (Some (Closed 40123)) None None).
Proof.
  intros w b b'. do 3 (split; [reflexivity|]).
  apply (wrap_user_unknown lcg.rand w b b' 40123%N example.command); reflexivity.
Defined.

(** X15 on a run. *)
Lemma wrap_child_after_setup_witness :
  let w := example.world in
  let b := example.blankStore in
  let childEnv := published false (address 40123) example.password example.shellEnv in
  let p := (Wrap w example.command (start w b)).2 in
  started p = Some (example.command, childEnv)
  ∧ (example.command = example.command ∧ example.command ≠ [] ∧ childEnv = env p
     ∧ is_Some (listener p) ∧ is_Some (serving p)
     ∧ Config (environ w) b = (store p, None)).
Proof.
  intros w b childEnv p.
  assert (started p = Some (example.command, childEnv)) as Hstarted
    by (vm_compute; reflexivity).
  split; [exact Hstarted|].
  exact (wrap_child_after_setup lcg.rand w b example.command example.command childEnv
           Hstarted).
Defined.

(** X16 on a run. *)
Lemma child_credentials_accepted_witness :
  let w := example.world in
  let b := example.blankStore in
  let b' := file.mkStore example.configured ∅ in
  Config (environ w) b = (b', None)
  ∧ listen w = inr 40123%N
  ∧ currentUser w = Some example.alice
  ∧ (let p := (Wrap w ("terraform" :: ["plan"]) (start w b)).2 in
     ∃ h childEnv authUser authPassword,
       serving p = Some h
       ∧ started p = Some ("terraform" :: ["plan"], childEnv)
       ∧ childEnv !! "TF_HTTP_USERNAME" = Some authUser
       ∧ childEnv !! "TF_HTTP_PASSWORD" = Some authPassword
       ∧ ∀ (request : http.Request) (b0 : file.Store),
           (http.BasicAuth request = Some (authUser, authPassword) →
            code (serve h request b0).1.1 ≠ http.StatusUnauthorized)
           ∧ (http.BasicAuth request ≠ Some (authUser, authPassword) →
              code (serve h request b0).1.1 = http.StatusUnauthorized)).
Proof.
  intros w b b'. do 3 (split; [reflexivity|]).
  apply (child_credentials_accepted lcg.rand w b b' 40123%N example.alice
           "terraform" ["plan"]); reflexivity.
Defined.

(** X17 on a run: [wrapper terraform plan] without the variable, and
    [wrapper] alone. *)
Lemma main_needs_path_witness :
  let w := scenario.noPath in
  environ w !! "TF_STATE_WRAPPER_FILE_PATH" = None
  ∧ program.main w ∅ ("wrapper" :: example.command)
    = (inl (Fatal "'TF_STATE_WRAPPER_FILE_PATH' must be set"),
       mkProcess (environ w) (file.mkStore {| file.filePath := "" |} ∅) None None None).
Proof.
  intros w.
  assert (environ w !! "TF_STATE_WRAPPER_FILE_PATH" = None) as Henv by reflexivity.
  split; [exact Henv|].
  exact (main_needs_path lcg.rand w ∅ "wrapper" example.command Henv).
Defined.

Example main_alone_without_path :
  (program.main scenario.noPath ∅ ["wrapper"]).1
  = inl (Fatal "'TF_STATE_WRAPPER_FILE_PATH' must be set").
Proof. vm_compute. reflexivity. Qed.

End MoreExamples.

(** * The codec of [LockInfo] *)


Ltac bools :=
  repeat match goal with
  | H : _ && _ = true |- _ => apply andb_true_iff in H as [? ?]
  | H : _ || _ = false |- _ => apply orb_false_iff in H as [? ?]
  | H : negb _ = true |- _ => apply negb_true_iff in H
  | H : negb _ = false |- _ => apply negb_false_iff in H
  | H : utf8.within _ _ _ = true |- _ => unfold utf8.within in H
  | H : utf8.within _ _ _ = false |- _ => unfold utf8.within in H
  | H : utf8.continuation _ = true |- _ => unfold utf8.continuation in H
  | H : (_ <=? _)%Z = true |- _ => apply Z.leb_le in H
  | H : (_ <=? _)%Z = false |- _ => apply Z.leb_gt in H
  | H : (_ <? _)%Z = true |- _ => apply Z.ltb_lt in H
  | H : (_ <? _)%Z = false |- _ => apply Z.ltb_ge in H
  | H : (_ =? _)%Z = true |- _ => apply Z.eqb_eq in H
  | H : (_ =? _)%Z = false |- _ => apply Z.eqb_neq in H
  end.

Ltac split_ifs H :=
  repeat match type of H with
  | context [if ?t then _ else _] => destruct t eqn:?
  end.

Ltac split_ifs_hyps :=
  repeat match goal with
  | H : context [if ?t then _ else _] |- _ => destruct t eqn:?
  end.

Section Utf8.
Import utf8.
Local Open Scope Z_scope.

Lemma byte_range c : 0 <= byte c < 256.
Proof.
  unfold byte. pose proof (N_ascii_bounded c) as H. lia.
Qed.

Lemma char_byte c : char (byte c) = c.
Proof. unfold char, byte. rewrite N2Z.id. apply ascii_N_embedding. Qed.

Lemma byte_char n : 0 <= n < 256 → byte (char n) = n.
Proof.
  intros Hn. unfold char, byte. rewrite N_ascii_embedding by lia. lia.
Qed.

Lemma char_inj_byte c n : byte c = n → c = char n.
Proof. intros <-. symmetry. apply char_byte. Qed.

Lemma DecodeRune_size s :
  match DecodeRune s with
  | (r, 0%nat) => s = ""
  | (r, 1%nat) => ∃ c rest, s = String c rest
                   ∧ (byte c < 0x80 ∧ r = byte c ∨ 0x80 <= byte c ∧ r = RuneError)
  | (r, 2%nat) => ∃ c0 c1 rest, s = String c0 (String c1 rest) ∧ 0x80 <= byte c0
                   ∧ Rune (String c0 (String c1 "")) r
  | (r, 3%nat) => ∃ c0 c1 c2 rest, s = String c0 (String c1 (String c2 rest))
                   ∧ 0x80 <= byte c0
                   ∧ Rune (String c0 (String c1 (String c2 ""))) r
  | (r, 4%nat) => ∃ c0 c1 c2 c3 rest,
                   s = String c0 (String c1 (String c2 (String c3 rest)))
                   ∧ 0x80 <= byte c0
                   ∧ Rune (String c0 (String c1 (String c2 (String c3 "")))) r
  | _ => False
  end.
Proof.
  destruct s as [|c0 r0]; [reflexivity|].
  unfold DecodeRune.
  destruct (byte c0 <? RuneSelf) eqn:H0.
  { exists c0, r0. split; [reflexivity|]. left. unfold RuneSelf in H0. bools. now split. }
  unfold RuneSelf in H0. bools.
  assert (∃ c rest, String c0 r0 = String c rest
            ∧ (byte c < 128 ∧ RuneError = byte c ∨ 128 <= byte c ∧ RuneError = RuneError))
    as Hone.
  { exists c0, r0. split; [reflexivity|]. right. now split. }
  destruct (within 0xC2 0xDF (byte c0)) eqn:H2.
  { destruct r0 as [|c1 r1]; [apply Hone|].
    destruct (continuation c1) eqn:H1; [|apply Hone].
    exists c0, c1, r1. split; [reflexivity|]. split; [exact H0|].
    constructor. intros rest. unfold DecodeRune.
    assert ((byte c0 <? RuneSelf) = false) as -> by (apply Z.ltb_ge; exact H0).
    now rewrite H2, H1. }
  destruct (within 0xE0 0xEF (byte c0)) eqn:H3.
  { destruct r0 as [|c1 [|c2 r2]]; [apply Hone|apply Hone|].
    match goal with |- context [if ?t then _ else _] => destruct t eqn:H1 end;
      [|apply Hone].
    exists c0, c1, c2, r2. split; [reflexivity|]. split; [exact H0|].
    constructor. intros rest. unfold DecodeRune.
    assert ((byte c0 <? RuneSelf) = false) as -> by (apply Z.ltb_ge; exact H0).
    now rewrite H2, H3, H1. }
  destruct (within 0xF0 0xF4 (byte c0)) eqn:H4.
  { destruct r0 as [|c1 [|c2 [|c3 r3]]]; [apply Hone|apply Hone|apply Hone|].
    match goal with |- context [if ?t then _ else _] => destruct t eqn:H1 end;
      [|apply Hone].
    exists c0, c1, c2, c3, r3. split; [reflexivity|]. split; [exact H0|].
    constructor. intros rest. unfold DecodeRune.
    assert ((byte c0 <? RuneSelf) = false) as -> by (apply Z.ltb_ge; exact H0).
    now rewrite H2, H3, H4, H1. }
  apply Hone.
Qed.

Lemma bytes_cons n l : bytes (n :: l) = String (char n) (bytes l).
Proof. reflexivity. Qed.

Lemma Rune_facts seq r :
  Rune seq r → EncodeRune r = seq ∧ allHigh seq ∧ 0x80 <= r.
Proof.
  intros HR. destruct HR as [c0 c1 r H|c0 c1 c2 r H|c0 c1 c2 c3 r H];
    specialize (H ""); unfold DecodeRune, RuneSelf in H;
    pose proof (byte_range c0); pose proof (byte_range c1).
  - split_ifs H; try discriminate H. injection H as <-. bools.
    unfold EncodeRune.
    assert ((0 <=? byte c0 mod 32 * 64 + byte c1 mod 64)
            && (byte c0 mod 32 * 64 + byte c1 mod 64 <=? 127) = false) as ->.
    { apply andb_false_iff. right. apply Z.leb_gt. Z.div_mod_to_equations. lia. }
    assert ((0 <=? byte c0 mod 32 * 64 + byte c1 mod 64)
            && (byte c0 mod 32 * 64 + byte c1 mod 64 <=? 2047) = true) as ->.
    { apply andb_true_iff. split; apply Z.leb_le; Z.div_mod_to_equations; lia. }
    rewrite !bytes_cons. cbn [bytes map string_of_list_ascii allHigh]. unfold high.
    split; [|split; [lia|Z.div_mod_to_equations; lia]].
    f_equal; [|f_equal]; symmetry; apply char_inj_byte; Z.div_mod_to_equations; lia.
  - pose proof (byte_range c2).
    split_ifs H; try discriminate H; injection H as <-; bools; split_ifs_hyps; bools;
      unfold EncodeRune, MaxRune, within;
      set (r := byte c0 mod 16 * 4096 + byte c1 mod 64 * 64 + byte c2 mod 64);
      (assert (2048 <= r <= 65535 ∧ ¬ (55296 <= r <= 57343)
               ∧ 224 + r / 4096 = byte c0 ∧ 128 + (r / 64) mod 64 = byte c1
               ∧ 128 + r mod 64 = byte c2) as (Hr & Hs & E0 & E1 & E2)
         by (unfold r; Z.div_mod_to_equations; lia));
      (assert ((0 <=? r) && (r <=? 127) = false) as ->
         by (apply andb_false_iff; right; apply Z.leb_gt; lia));
      (assert ((0 <=? r) && (r <=? 2047) = false) as ->
         by (apply andb_false_iff; right; apply Z.leb_gt; lia));
      (assert ((r <? 0) || (1114111 <? r) || (55296 <=? r) && (r <=? 57343) = false) as ->
         by (destruct (Z.ltb_spec r 0); [lia|]; destruct (Z.ltb_spec 1114111 r); [lia|];
             destruct (Z.leb_spec 55296 r); [|reflexivity];
             destruct (Z.leb_spec r 57343); [lia|reflexivity]));
      (assert ((r <=? 65535) = true) as -> by (apply Z.leb_le; lia));
      rewrite !bytes_cons, E0, E1, E2, !char_byte; cbn [bytes map string_of_list_ascii allHigh];
      unfold high; repeat split; lia.
  - pose proof (byte_range c2). pose proof (byte_range c3).
    split_ifs H; try discriminate H; injection H as <-; bools; split_ifs_hyps; bools;
      unfold EncodeRune, MaxRune, within;
      set (r := byte c0 mod 8 * 262144 + byte c1 mod 64 * 4096 + byte c2 mod 64 * 64
                + byte c3 mod 64);
      (assert (65536 <= r <= 1114111
               ∧ 240 + r / 262144 = byte c0 ∧ 128 + (r / 4096) mod 64 = byte c1
               ∧ 128 + (r / 64) mod 64 = byte c2 ∧ 128 + r mod 64 = byte c3)
         as (Hr & E0 & E1 & E2 & E3)
         by (unfold r; Z.div_mod_to_equations; lia));
      (assert ((0 <=? r) && (r <=? 127) = false) as ->
         by (apply andb_false_iff; right; apply Z.leb_gt; lia));
      (assert ((0 <=? r) && (r <=? 2047) = false) as ->
         by (apply andb_false_iff; right; apply Z.leb_gt; lia));
      (assert ((r <? 0) || (1114111 <? r) || (55296 <=? r) && (r <=? 57343) = false) as ->
         by (destruct (Z.ltb_spec r 0); [lia|]; destruct (Z.ltb_spec 1114111 r); [lia|];
             destruct (Z.leb_spec 55296 r); [|reflexivity];
             destruct (Z.leb_spec r 57343); [lia|reflexivity]));
      (assert ((r <=? 65535) = false) as -> by (apply Z.leb_gt; lia));
      rewrite !bytes_cons, E0, E1, E2, E3, !char_byte;
      cbn [bytes map string_of_list_ascii allHigh];
      unfold high; repeat split; lia.
Qed.

Lemma ValidString_cons c rest :
  ValidString (String c rest) =
    if byte c <? RuneSelf then ValidString rest
    else
      let '(r, size) := DecodeRune (String c rest) in
      match size with
      | 2%nat => ValidString (tail rest)
      | 3%nat => ValidString (tail (tail rest))
      | 4%nat => ValidString (tail (tail (tail rest)))
      | _ => false
      end.
Proof. reflexivity. Qed.

(** Induction on a string that is UTF-8, rune by rune. *)
Lemma valid_ind (P : string → Prop) :
  P "" →
  (∀ c rest, (byte c <? RuneSelf) = true → P rest → P (String c rest)) →
  (∀ seq r rest, Rune seq r → P rest → P (seq ++ rest)) →
  ∀ s, ValidString s = true → P s.
Proof.
  intros Hnil Hone Hrune.
  assert (∀ n s, (String.length s <= n)%nat → ValidString s = true → P s) as Hall.
  { induction n as [|n IH]; intros s Hlen Hvalid.
    - destruct s; [exact Hnil|cbn in Hlen; lia].
    - destruct s as [|c rest]; [exact Hnil|].
      rewrite ValidString_cons in Hvalid. cbn [String.length] in Hlen.
      destruct (byte c <? RuneSelf) eqn:Hc.
      + apply Hone; [exact Hc|]. apply IH; [lia|exact Hvalid].
      + pose proof (DecodeRune_size (String c rest)) as Hsize.
        destruct (DecodeRune (String c rest)) as [r [|[|[|[|[|size]]]]]];
          try discriminate Hvalid.
        * destruct Hsize as (c0 & c1 & rest' & Heq & _ & HR).
          injection Heq as -> ->. cbn [tail] in Hvalid.
          apply (Hrune _ _ rest' HR). apply IH; [cbn [String.length] in Hlen; lia|exact Hvalid].
        * destruct Hsize as (c0 & c1 & c2 & rest' & Heq & _ & HR).
          injection Heq as -> ->. cbn [tail] in Hvalid.
          apply (Hrune _ _ rest' HR). apply IH; [cbn [String.length] in Hlen; lia|exact Hvalid].
        * destruct Hsize as (c0 & c1 & c2 & c3 & rest' & Heq & _ & HR).
          injection Heq as -> ->. cbn [tail] in Hvalid.
          apply (Hrune _ _ rest' HR). apply IH; [cbn [String.length] in Hlen; lia|exact Hvalid]. }
  intros s. apply (Hall (String.length s)). lia.
Qed.

End Utf8.

Section Strings.
Import utf8 json.
Local Open Scope Z_scope.

Ltac each_byte c :=
  destruct c as [[] [] [] [] [] [] [] []].

Lemma append_empty_l (t : string) : "" ++ t = t.
Proof. reflexivity. Qed.

Ltac run_escape :=
  match goal with
  | |- context [escape ?c] =>
      let e := eval vm_compute in (escape c) in change (escape c) with e
  end;
  rewrite ?append_cons, ?append_empty_l.

Lemma literal_escape c t :
  (byte c <? RuneSelf) = true → literal (escape c ++ t) = extend (escape c) (literal t).
Proof.
  each_byte c; intros H; try discriminate H; clear H; run_escape;
    cbn; destruct (literal t) as [[raw rest]|]; reflexivity.
Qed.

Lemma unquote_escape c t :
  (byte c <? RuneSelf) = true →
  unquote (escape c ++ t) = prepend (String c "") (unquote t).
Proof.
  each_byte c; intros H; try discriminate H; clear H; run_escape;
    cbn; destruct (unquote t) as [text|]; reflexivity.
Qed.

Lemma scan_escape c ps t :
  (byte c <? RuneSelf) = true →
  scanAll (inString ps) (escape c ++ t) = scanAll (inString ps) t.
Proof.
  each_byte c; intros H; try discriminate H; clear H; run_escape; reflexivity.
Qed.

Lemma high_plain c :
  high c →
  Ascii.eqb c quote = false ∧ Ascii.eqb c backslash = false
  ∧ (byte c <? 0x20) = false ∧ (byte c <? RuneSelf) = false.
Proof.
  unfold high. intros Hc.
  repeat split; try (apply Z.ltb_ge; unfold RuneSelf; lia);
    apply Ascii.eqb_neq; intros ->; vm_compute in Hc; now apply Hc.
Qed.

Lemma literal_high c t : high c → literal (String c t) = extend (String c "") (literal t).
Proof.
  intros Hc. destruct (high_plain c Hc) as (Hq & Hb & _).
  cbn [literal]. rewrite Hq, Hb. now destruct (literal t) as [[raw rest]|].
Qed.

Lemma scan_high c ps t :
  high c → scanAll (inString ps) (String c t) = scanAll (inString ps) t.
Proof.
  intros Hc. destruct (high_plain c Hc) as (Hq & Hb & Hl & _).
  cbn [scanAll scan inString step parseState]. now rewrite Hq, Hb, Hl.
Qed.

Lemma extend_extend a b r : extend a (extend b r) = extend (a ++ b) r.
Proof. destruct r as [[raw rest]|]; [|reflexivity]. cbn [extend]. now rewrite append_assoc. Qed.

Lemma literal_allHigh seq t :
  allHigh seq → literal (seq ++ t) = extend seq (literal t).
Proof.
  induction seq as [|c seq IH]; intros Hall.
  - rewrite append_empty_l. now destruct (literal t) as [[raw rest]|].
  - destruct Hall as [Hc Hall]. rewrite append_cons, literal_high by exact Hc.
    rewrite IH by exact Hall. now rewrite extend_extend.
Qed.

Lemma scan_allHigh seq ps t :
  allHigh seq → scanAll (inString ps) (seq ++ t) = scanAll (inString ps) t.
Proof.
  induction seq as [|c seq IH]; intros Hall; [reflexivity|].
  destruct Hall as [Hc Hall]. rewrite append_cons, scan_high by exact Hc. now apply IH.
Qed.

Lemma appendString_cons c rest :
  appendString (String c rest) =
    if byte c <? RuneSelf then escape c ++ appendString rest
    else
      let '(r, size) := DecodeRune (String c rest) in
      if (r =? RuneError) && (size =? 1)%nat
      then String backslash "ufffd" ++ appendString rest
      else if (r =? 0x2028) || (r =? 0x2029)
      then String backslash ("u202" ++ String (hex (r mod 16)) "")
           ++ appendString (after size rest)
      else first size (String c rest) ++ appendString (after size rest).
Proof. reflexivity. Qed.

Lemma appendString_rune seq r rest :
  Rune seq r → appendString (seq ++ rest) = written seq r ++ appendString rest.
Proof.
  intros HR. destruct (Rune_facts seq r HR) as (_ & Hall & _). unfold written, escapeRune.
  destruct HR as [c0 c1 r H|c0 c1 c2 r H|c0 c1 c2 c3 r H];
    destruct Hall as [Hc _]; destruct (high_plain c0 Hc) as (_ & _ & _ & Hself);
    rewrite !append_cons, append_empty_l, appendString_cons, Hself, H;
    cbn [Nat.eqb andb after tail first]; rewrite andb_false_r;
    now destruct ((r =? 0x2028) || (r =? 0x2029)).
Qed.

Lemma unquote_cons_high c rest :
  high c →
  unquote (String c rest) =
    let '(rr, size) := DecodeRune (String c rest) in
    prepend (EncodeRune rr) (unquote (after size rest)).
Proof.
  intros Hc. destruct (high_plain c Hc) as (Hq & Hb & Hl & Hself).
  cbn [unquote]. now rewrite Hb, Hq, Hl, Hself.
Qed.

Lemma unquote_rune seq r t :
  Rune seq r → unquote (seq ++ t) = prepend seq (unquote t).
Proof.
  intros HR. destruct (Rune_facts seq r HR) as (Henc & Hall & _).
  destruct HR as [c0 c1 r H|c0 c1 c2 r H|c0 c1 c2 c3 r H];
    destruct Hall as [Hc _];
    rewrite !append_cons, append_empty_l, unquote_cons_high, H by exact Hc;
    cbn [after tail]; now rewrite Henc.
Qed.

Lemma written_cases seq r :
  Rune seq r →
  written seq r = seq ∧ allHigh seq
  ∨ (r = 0x2028 ∨ r = 0x2029) ∧ written seq r = escapeRune r.
Proof.
  intros HR. destruct (Rune_facts seq r HR) as (_ & Hall & _). unfold written.
  destruct (Z.eqb_spec r 0x2028) as [->|]; [right; split; [now left|reflexivity]|].
  destruct (Z.eqb_spec r 0x2029) as [->|]; [right; split; [now right|reflexivity]|].
  left. now split.
Qed.

Lemma literal_written seq r t :
  Rune seq r → literal (written seq r ++ t) = extend (written seq r) (literal t).
Proof.
  intros HR. destruct (written_cases seq r HR) as [[-> Hall]|[[-> | ->] ->]].
  - now apply literal_allHigh.
  - vm_compute (escapeRune _). rewrite !append_cons, append_empty_l. cbn.
    now destruct (literal t) as [[raw rest]|].
  - vm_compute (escapeRune _). rewrite !append_cons, append_empty_l. cbn.
    now destruct (literal t) as [[raw rest]|].
Qed.

Lemma scan_written seq r ps t :
  Rune seq r → scanAll (inString ps) (written seq r ++ t) = scanAll (inString ps) t.
Proof.
  intros HR. destruct (written_cases seq r HR) as [[-> Hall]|[[-> | ->] ->]].
  - now apply scan_allHigh.
  - reflexivity.
  - reflexivity.
Qed.

Lemma unquote_written seq r t :
  Rune seq r → unquote (written seq r ++ t) = prepend seq (unquote t).
Proof.
  intros HR. destruct (Rune_facts seq r HR) as (Henc & _).
  destruct (written_cases seq r HR) as [[-> Hall]|[Hr ->]].
  - now apply (unquote_rune seq r).
  - rewrite <- Henc. destruct Hr as [-> | ->].
    + vm_compute (escapeRune _). rewrite !append_cons, append_empty_l. cbn.
      now destruct (unquote t).
    + vm_compute (escapeRune _). rewrite !append_cons, append_empty_l. cbn.
      now destruct (unquote t).
Qed.

(** The encoder and the decoder of strings, on a string that is UTF-8. *)
Lemma literal_appendString s t :
  ValidString s = true →
  literal (appendString s ++ String quote t) = Some (appendString s, t).
Proof.
  revert s. apply (valid_ind (λ s, literal (appendString s ++ String quote t)
                                    = Some (appendString s, t))).
  - reflexivity.
  - intros c rest Hc IH. rewrite appendString_cons, Hc, append_assoc, literal_escape, IH
      by exact Hc. cbn [extend]. reflexivity.
  - intros seq r rest HR IH.
    rewrite (appendString_rune _ _ _ HR), append_assoc, (literal_written _ _ _ HR), IH.
    reflexivity.
Qed.

Lemma prepend_prepend a b r : prepend a (prepend b r) = prepend (a ++ b) r.
Proof. destruct r; [|reflexivity]. cbn [prepend]. now rewrite append_assoc. Qed.

Lemma unquote_appendString s : ValidString s = true → unquote (appendString s) = Some s.
Proof.
  revert s. apply (valid_ind (λ s, unquote (appendString s) = Some s)).
  - reflexivity.
  - intros c rest Hc IH. rewrite appendString_cons, Hc, unquote_escape, IH by exact Hc.
    reflexivity.
  - intros seq r rest HR IH.
    rewrite (appendString_rune _ _ _ HR), (unquote_written _ _ _ HR), IH. reflexivity.
Qed.

Lemma scan_appendString s ps t :
  ValidString s = true →
  scanAll (inString ps) (appendString s ++ t) = scanAll (inString ps) t.
Proof.
  revert s. apply (valid_ind (λ s, scanAll (inString ps) (appendString s ++ t)
                                    = scanAll (inString ps) t)).
  - reflexivity.
  - intros c rest Hc IH. rewrite appendString_cons, Hc, append_assoc, scan_escape, IH
      by exact Hc. reflexivity.
  - intros seq r rest HR IH.
    rewrite (appendString_rune _ _ _ HR), append_assoc, (scan_written _ _ _ _ HR), IH.
    reflexivity.
Qed.

End Strings.

Section Time.
Import utf8 time.
Local Open Scope Z_scope.

Lemma digit_range (x : Z) : 0 <= x mod 10 <= 9.
Proof. pose proof (Z.mod_pos_bound x 10). lia. Qed.

Lemma byte_digit d : 0 <= d <= 9 → byte (digit d) = 0x30 + d.
Proof. intros Hd. unfold digit. apply byte_char. lia. Qed.

Lemma isDigit_digit d : 0 <= d <= 9 → isDigit (digit d) = true.
Proof.
  intros Hd. unfold isDigit, within. rewrite byte_digit by exact Hd.
  apply andb_true_iff. split; apply Z.leb_le; lia.
Qed.

Lemma atoi_snoc l c : atoi (l ++ [c]) = atoi l * 10 + (byte c - 0x30).
Proof. unfold atoi. now rewrite fold_left_app. Qed.

Lemma appendInt_spec w x :
  0 <= x < 10 ^ Z.of_nat w →
  atoi (appendInt x w) = x
  ∧ forallb isDigit (appendInt x w) = true
  ∧ length (appendInt x w) = w.
Proof.
  revert x. induction w as [|w IH]; intros x Hx.
  - cbn in Hx |- *. repeat split. lia.
  - rewrite Nat2Z.inj_succ, Z.pow_succ_r in Hx by lia.
    destruct (IH (x / 10)) as (Ha & Hd & Hl); [Z.div_mod_to_equations; lia|].
    cbn [appendInt]. rewrite atoi_snoc, Ha, forallb_app, Hd, length_app, Hl.
    pose proof (digit_range x).
    rewrite byte_digit by assumption. cbn [forallb length].
    rewrite isDigit_digit by assumption. repeat split; [Z.div_mod_to_equations; lia|lia].
Qed.

Lemma parseUint_appendInt w x min max :
  0 <= x < 10 ^ Z.of_nat w → min <= x <= max →
  parseUint (appendInt x w) min max = Some x.
Proof.
  intros Hx Hm. destruct (appendInt_spec w x Hx) as (Ha & Hd & _).
  unfold parseUint, within. rewrite Hd, Ha.
  assert ((min <=? x) && (x <=? max) = true) as ->; [|reflexivity].
  apply andb_true_iff. split; apply Z.leb_le; lia.
Qed.

Lemma trimmed_spec w x :
  0 < x < 10 ^ Z.of_nat w →
  let l := trimmed x w in
  l ≠ [] ∧ forallb isDigit l = true ∧ (length l <= w)%nat
  ∧ atoi l * 10 ^ (Z.of_nat w - Z.of_nat (length l)) = x.
Proof.
  revert x. induction w as [|w IH]; intros x Hx; [cbn in Hx; lia|].
  cbn [trimmed]. rewrite Nat2Z.inj_succ in Hx |- *. rewrite Z.pow_succ_r in Hx by lia.
  destruct (Z.eqb_spec (x mod 10) 0) as [Hz|Hz].
  - destruct (IH (x / 10)) as (Hn & Hd & Hl & Ha); [Z.div_mod_to_equations; lia|].
    repeat split; try assumption; [lia|].
    replace (Z.succ (Z.of_nat w) - Z.of_nat (length (trimmed (x / 10) w)))
      with (Z.succ (Z.of_nat w - Z.of_nat (length (trimmed (x / 10) w)))) by lia.
    rewrite Z.pow_succ_r by lia.
    rewrite (Z.mul_comm 10), Z.mul_assoc, Ha. Z.div_mod_to_equations. lia.
  - destruct (appendInt_spec (S w) x) as (Ha & Hd & Hl);
      [rewrite Nat2Z.inj_succ, Z.pow_succ_r by lia; lia|].
    repeat split; try assumption.
    + intros Hnil. rewrite Hnil in Hl. discriminate Hl.
    + lia.
    + rewrite Hl, Ha, Nat2Z.inj_succ, Z.sub_diag. cbn. lia.
Qed.

Lemma span_digits l z :
  forallb isDigit l = true →
  match z with c :: _ => isDigit c = false | [] => True end →
  span isDigit (l ++ z) = (l, z).
Proof.
  intros Hl Hz. induction l as [|c l IH].
  - destruct z as [|c z]; [reflexivity|]. cbn [app span]. now rewrite Hz.
  - cbn [forallb] in Hl. apply andb_true_iff in Hl as [Hc Hl].
    cbn [app span]. now rewrite Hc, IH.
Qed.

Lemma appendInt_2 x : appendInt x 2 = [digit (x / 10 mod 10); digit (x mod 10)].
Proof. reflexivity. Qed.

Lemma appendInt_4 x :
  appendInt x 4 = [digit (x / 10 / 10 / 10 mod 10); digit (x / 10 / 10 mod 10);
                   digit (x / 10 mod 10); digit (x mod 10)].
Proof. reflexivity. Qed.

(** The zone that [appendZone] writes starts with no digit and no period,
    and reads back as the offset. *)
Lemma appendZone_head offset :
  match appendZone offset with
  | c :: _ => isDigit c = false ∧ Ascii.eqb c "." = false
  | [] => False
  end.
Proof.
  unfold appendZone. destruct (offset =? 0); [now split|].
  destruct (Z.quot offset 60 <? 0); now split.
Qed.

Lemma parseZone year month day hour min sec nsec offset :
  offset mod 60 = 0 → -86399 <= offset <= 86399 →
  let t offset :=
    {| year := year; month := month; day := day; hour := hour; minute := min;
       second := sec; nanosecond := nsec; offset := offset |} in
  match appendZone offset with
  | [z] => if Ascii.eqb z "Z" then Some (t 0) else None
  | [sign; z1; z2; colon; z3; z4] =>
      hr ← parseUint [z1; z2] 0 23;
      mm ← parseUint [z3; z4] 0 59;
      if (Ascii.eqb sign "-" || Ascii.eqb sign "+") && Ascii.eqb colon ":"
      then let zoneOffset := (hr * 60 + mm) * 60 in
           Some (t (if Ascii.eqb sign "-" then - zoneOffset else zoneOffset))
      else None
  | _ => None
  end = Some (t offset).
Proof.
  intros Hmod Hrange t. unfold appendZone.
  destruct (Z.eqb_spec offset 0) as [->|Hne]; [reflexivity|].
  set (zone := Z.quot offset 60).
  assert (offset = zone * 60 ∧ -1439 <= zone <= 1439) as [Hoff Hzone].
  { unfold zone. pose proof (Z.quot_rem' offset 60) as Hq.
    assert (Z.rem offset 60 = 0) as Hrem.
    { apply Z.rem_divide; [lia|]. apply Z.mod_divide; [lia|exact Hmod]. }
    lia. }
  rewrite !appendInt_2. cbn [app].
  rewrite <- !appendInt_2.
  rewrite (parseUint_appendInt 2 (Z.abs zone / 60) 0 23)
    by (change (10 ^ Z.of_nat 2) with 100; Z.div_mod_to_equations; lia).
  cbn [mbind option_bind].
  rewrite (parseUint_appendInt 2 (Z.abs zone mod 60) 0 59)
    by (change (10 ^ Z.of_nat 2) with 100; Z.div_mod_to_equations; lia).
  cbn [mbind option_bind].
  destruct (Z.ltb_spec zone 0) as [Hneg|Hpos]; cbn [Ascii.eqb Bool.eqb orb andb];
    cbv zeta; f_equal; unfold t; f_equal; Z.div_mod_to_equations; lia.
Qed.

Lemma parseFraction nsec offset :
  0 <= nsec <= 999999999 →
  let rest := (appendNano nsec ++ appendZone offset)%list in
  match rest with
  | period :: d :: _ =>
      if Ascii.eqb period "." && isDigit d
      then let '(digits, rest') := span isDigit (List.tl rest) in
           (parseNanoseconds digits, rest')
      else (0, rest)
  | _ => (0, rest)
  end = (nsec, appendZone offset).
Proof.
  intros Hn rest. unfold rest, appendNano.
  pose proof (appendZone_head offset) as Hhead.
  destruct (Z.eqb_spec nsec 0) as [->|Hne].
  - cbn [app]. destruct (appendZone offset) as [|c [|d z]]; try reflexivity.
    destruct Hhead as [_ ->]. reflexivity.
  - destruct (trimmed_spec 9 nsec) as (Hnil & Hd & Hl & Ha);
      [change (10 ^ Z.of_nat 9) with 1000000000; lia|].
    destruct (trimmed nsec 9) as [|d ds] eqn:Htrim; [congruence|].
    cbn [app List.tl]. cbn [forallb] in Hd.
    assert (isDigit d = true) as Hdigit by (now apply andb_true_iff in Hd as [? _]).
    rewrite Hdigit. cbn [Ascii.eqb Bool.eqb andb].
    change (d :: ds ++ appendZone offset)%list with ((d :: ds) ++ appendZone offset)%list.
    rewrite span_digits; [|exact Hd|].
    2:{ destruct (appendZone offset) as [|c z]; [exact I|]. now destruct Hhead. }
    unfold parseNanoseconds. rewrite take_ge by exact Hl.
    change (Z.of_nat 9) with 9 in Ha. now rewrite Ha.
Qed.

Lemma parseRFC3339_appendFormatRFC3339 t :
  isRFC3339 t = true → parseRFC3339 (appendFormatRFC3339 t) = Some t.
Proof.
  destruct t as [y m d h mi s ns off]. unfold isRFC3339, wellFormed.
  cbn [year month day hour minute second nanosecond offset]. intros H. bools.
  unfold appendFormatRFC3339.
  cbn [year month day hour minute second nanosecond offset].
  rewrite appendInt_4, !appendInt_2. cbn [app]. unfold parseRFC3339.
  rewrite <- appendInt_4, <- !appendInt_2.
  rewrite (parseUint_appendInt 4 y 0 9999) by (change (10 ^ Z.of_nat 4) with 10000; lia).
  cbn [mbind option_bind].
  rewrite (parseUint_appendInt 2 m 1 12) by (change (10 ^ Z.of_nat 2) with 100; lia).
  cbn [mbind option_bind].
  assert (daysIn m y <= 31) as Hdays.
  { unfold daysIn. repeat match goal with |- context [if ?c then _ else _] => destruct c end;
      lia. }
  rewrite (parseUint_appendInt 2 d 1 (daysIn m y))
    by (change (10 ^ Z.of_nat 2) with 100; lia).
  cbn [mbind option_bind].
  rewrite (parseUint_appendInt 2 h 0 23) by (change (10 ^ Z.of_nat 2) with 100; lia).
  cbn [mbind option_bind].
  rewrite (parseUint_appendInt 2 mi 0 59) by (change (10 ^ Z.of_nat 2) with 100; lia).
  cbn [mbind option_bind].
  rewrite (parseUint_appendInt 2 s 0 59) by (change (10 ^ Z.of_nat 2) with 100; lia).
  cbn [mbind option_bind Ascii.eqb Bool.eqb andb].
  rewrite (parseFraction ns off) by lia.
  now apply parseZone.
Qed.

Lemma string_of_list_ascii_app a b :
  string_of_list_ascii (a ++ b) = string_of_list_ascii a ++ string_of_list_ascii b.
Proof. induction a as [|c a IH]; [reflexivity|]. cbn [app string_of_list_ascii]. now rewrite IH. Qed.

(** [Time.MarshalJSON] and [Time.UnmarshalJSON] on a time RFC 3339 can
    write. *)
Lemma MarshalJSON_isRFC3339 t :
  isRFC3339 t = true →
  MarshalJSON t = inr (String quote (string_of_list_ascii (appendFormatRFC3339 t)
                                       ++ String quote "")).
Proof.
  unfold isRFC3339, MarshalJSON, appendStrictRFC3339. intros H. bools.
  assert (within 0 9999 (year t) = true) as ->
    by (unfold within; apply andb_true_iff; split; apply Z.leb_le; lia).
  cbn [negb].
  assert ((23 <? Z.abs (Z.quot (offset t) 60) / 60) = false) as ->.
  { apply Z.ltb_ge. pose proof (Z.quot_rem' (offset t) 60).
    pose proof (Z.rem_bound_abs (offset t) 60). Z.div_mod_to_equations. lia. }
  cbn [string_of_list_ascii]. now rewrite string_of_list_ascii_app.
Qed.

Lemma UnmarshalJSON_MarshalJSON Parse t into :
  isRFC3339 t = true →
  UnmarshalJSON Parse
    (String quote (string_of_list_ascii (appendFormatRFC3339 t) ++ String quote "")) into
  = (t, None).
Proof.
  intros Ht. unfold UnmarshalJSON.
  assert (∀ text, String.eqb (String quote text) "null" = false) as -> by reflexivity.
  cbn [list_ascii_of_string].
  change (String quote "") with (string_of_list_ascii [quote]).
  rewrite <- string_of_list_ascii_app, list_ascii_of_string_of_list_ascii.
  unfold unquoted. rewrite rev_app_distr. cbn [rev app].
  rewrite Ascii.eqb_refl. cbn [andb]. rewrite rev_involutive.
  now rewrite parseRFC3339_appendFormatRFC3339.
Qed.

Lemma plain_digit x : plain (digit (x mod 10)) = true.
Proof.
  pose proof (digit_range x) as Hd. unfold plain.
  assert (byte (digit (x mod 10)) = 0x30 + x mod 10) as Hb by (now apply byte_digit).
  apply andb_true_iff. split; [apply andb_true_iff; split|].
  - apply negb_true_iff, Ascii.eqb_neq. intros Heq. rewrite Heq in Hb.
    vm_compute (byte quote) in Hb. lia.
  - apply negb_true_iff, Ascii.eqb_neq. intros Heq. rewrite Heq in Hb.
    vm_compute (byte backslash) in Hb. lia.
  - apply negb_true_iff, Z.ltb_ge. lia.
Qed.

Lemma plain_appendInt x w : forallb plain (appendInt x w) = true.
Proof.
  revert x. induction w as [|w IH]; intros x; [reflexivity|].
  cbn [appendInt]. rewrite forallb_app, IH. cbn [forallb]. now rewrite plain_digit.
Qed.

Lemma plain_trimmed x w : forallb plain (trimmed x w) = true.
Proof.
  revert x. induction w as [|w IH]; intros x; [reflexivity|].
  cbn [trimmed]. destruct (x mod 10 =? 0); [apply IH|apply plain_appendInt].
Qed.

Lemma plain_appendFormatRFC3339 t : forallb plain (appendFormatRFC3339 t) = true.
Proof.
  unfold appendFormatRFC3339, appendNano, appendZone.
  repeat (rewrite ?forallb_app, ?plain_appendInt; cbn [forallb andb]).
  destruct (nanosecond t =? 0); cbn [forallb andb]; rewrite ?plain_trimmed;
    destruct (offset t =? 0); cbn [forallb andb]; try reflexivity;
    destruct (Z.quot (offset t) 60 <? 0);
    repeat (rewrite ?forallb_app, ?plain_appendInt; cbn [forallb andb]); reflexivity.
Qed.

End Time.

Section Documents.
Import utf8 json encoding.
Local Open Scope Z_scope.
Context {lib : Library}.

Lemma quotable_appendString s : ValidString s = true → quotable (appendString s).
Proof.
  intros Hs. split; [intros ps t|intros t].
  - now apply scan_appendString.
  - now apply literal_appendString.
Qed.

Lemma quotable_plain l : forallb plain l = true → quotable (string_of_list_ascii l).
Proof.
  intros Hl. induction l as [|c l IH]; [now split|].
  cbn [forallb] in Hl. apply andb_true_iff in Hl as [Hc Hl].
  destruct (IH Hl) as [Hscan Hlit]. unfold plain in Hc.
  apply andb_true_iff in Hc as [Hc Hlow]. apply andb_true_iff in Hc as [Hq Hb].
  apply negb_true_iff in Hq, Hb, Hlow.
  split; [intros ps t|intros t]; cbn [string_of_list_ascii]; rewrite append_cons.
  - cbn [scanAll scan inString step parseState]. rewrite Hq, Hb, Hlow. apply Hscan.
  - cbn [literal]. rewrite Hq, Hb, Hlit. reflexivity.
Qed.

Lemma quoted_append x rest : quoted x ++ rest = String quote (x ++ String quote rest).
Proof. unfold quoted. now rewrite append_cons, append_assoc. Qed.

Lemma scan_quoted st ps x rest :
  scan (at_ st ps) quote = Some (inString ps) →
  quotable x →
  scanAll (at_ st ps) (quoted x ++ rest) = scanAll (at_ EndValue ps) rest.
Proof.
  intros Hst [Hscan _]. rewrite quoted_append. cbn [scanAll]. rewrite Hst, Hscan.
  reflexivity.
Qed.

(** A member of the object, from where a key may start to behind the
    value. *)
Lemma scan_member st key val rest :
  st = BeginStringOrEmpty ∨ st = BeginString →
  quotable key → quotable val →
  scanAll (at_ st [ObjectKey]) (member key val rest)
  = scanAll (at_ EndValue [ObjectValue]) rest.
Proof.
  intros Hst Hkey Hval. unfold member.
  rewrite scan_quoted; [|destruct Hst as [-> | ->]; reflexivity|exact Hkey].
  rewrite append_cons, append_empty_l. cbn [scanAll].
  change (scan (at_ EndValue [ObjectKey]) ":") with (Some (at_ BeginValue [ObjectValue])).
  cbv iota beta. now rewrite scan_quoted.
Qed.

Lemma Marshal_representable v :
  representable v = true → Marshal v = (document v, None).
Proof.
  unfold representable. intros H. bools.
  unfold Marshal. rewrite MarshalJSON_isRFC3339 by assumption. reflexivity.
Qed.

Lemma quotable_key key : forallb plain (list_ascii_of_string key) = true → quotable key.
Proof.
  intros H. rewrite <- (string_of_list_ascii_of_string key). now apply quotable_plain.
Qed.

Lemma scan_next key val rest :
  quotable key → quotable val →
  scanAll (at_ EndValue [ObjectValue]) ("," ++ member key val rest)
  = scanAll (at_ EndValue [ObjectValue]) rest.
Proof.
  intros Hkey Hval. rewrite append_cons, append_empty_l. cbn [scanAll].
  change (scan (at_ EndValue [ObjectValue]) ",") with (Some (at_ BeginString [ObjectKey])).
  cbv iota beta. apply scan_member; [now right|exact Hkey|exact Hval].
Qed.

Lemma checkValid_document v : representable v = true → checkValid (document v) = true.
Proof.
  unfold representable. intros H. bools.
  unfold checkValid, document. rewrite append_cons, append_empty_l. cbn [scanAll].
  change (scan {| step := BeginValue; parseState := [] |} "{")
    with (Some (at_ BeginStringOrEmpty [ObjectKey])).
  cbv iota beta.
  rewrite scan_member;
    [|now left|now apply quotable_key|now apply quotable_appendString].
  do 4 (rewrite scan_next; [|now apply quotable_key|now apply quotable_appendString]).
  rewrite scan_next;
    [|now apply quotable_key|apply quotable_plain, plain_appendFormatRFC3339].
  rewrite scan_next; [|now apply quotable_key|now apply quotable_appendString].
  reflexivity.
Qed.

Lemma skipSpace_quote z : skipSpace (String quote z) = String quote z.
Proof. reflexivity. Qed.

(** One turn of the loop of the decoder over a member. *)
Lemma object_member fuel key val rest v saved :
  quotable key → unquote key = Some key →
  object (S fuel) (member key val rest) v saved =
    match value (field key) (quoted val ++ rest) v saved with
    | Abort v err => (v, Some err)
    | Next v saved rest =>
        match skipSpace rest with
        | String c rest =>
            if Ascii.eqb c "," then object fuel rest v saved else (v, saved)
        | EmptyString => (v, Some (Error OutOfSync))
        end
    end.
Proof.
  intros [_ Hlit] Hkey. unfold member. rewrite !quoted_append.
  cbn [object]. rewrite skipSpace_quote.
  change (Ascii.eqb quote "}") with false. change (Ascii.eqb quote quote) with true.
  cbv iota. rewrite Hlit, Hkey.
  rewrite append_cons, append_empty_l.
  change (skipSpace (String ":" ?z)) with (String ":" z).
  cbv iota. rewrite skipSpace_quote. reflexivity.
Qed.

Lemma value_string f val x rest v saved :
  f ≠ fCreated → quotable val → unquote val = Some x →
  value (Some f) (quoted val ++ rest) v saved = Next (setString f x v) saved rest.
Proof.
  intros Hf [_ Hlit] Hx. rewrite quoted_append. unfold value.
  change (Ascii.eqb quote quote) with true. cbv iota. rewrite Hlit, Hx.
  now destruct f.
Qed.

Lemma value_time raw t rest v saved :
  quotable raw →
  time.UnmarshalJSON Parse (quoted raw) (Created v) = (t, None) →
  value (Some fCreated) (quoted raw ++ rest) v saved = Next (setCreated t v) saved rest.
Proof.
  intros [_ Hlit] Ht. rewrite quoted_append. unfold value.
  change (Ascii.eqb quote quote) with true. cbv iota. rewrite Hlit.
  unfold storeTime. now rewrite Ht.
Qed.

Lemma length_append (a b : string) :
  String.length (a ++ b) = (String.length a + String.length b)%nat.
Proof. induction a as [|c a IH]; [reflexivity|]. rewrite append_cons. cbn. now rewrite IH. Qed.

Lemma length_member key val rest :
  (String.length rest < String.length (member key val rest))%nat.
Proof.
  unfold member, quoted.
  repeat (rewrite ?append_cons, ?append_empty_l, ?length_append; cbn [String.length]).
  lia.
Qed.

(** [json.Unmarshal] reads the document back. *)
Lemma Unmarshal_document v into :
  representable v = true → Unmarshal (document v) into = (v, None).
Proof.
  intros Hv. unfold Unmarshal. rewrite checkValid_document by exact Hv. cbn [negb].
  unfold representable in Hv. bools.
  unfold document. rewrite append_cons, append_empty_l.
  change (skipSpace (String "{" ?z)) with (String "{" z). cbv iota.
  change (Ascii.eqb "{" "{") with true. cbv iota.
  match goal with |- object (String.length ?s) _ _ _ = _ =>
    assert (7 <= String.length s)%nat as Hfuel
  end.
  { unfold member, quoted.
    repeat (rewrite ?append_cons, ?append_empty_l, ?length_append; cbn [String.length]).
    lia. }
  revert Hfuel. generalize (String.length (member "ID" (appendString (ID v))
    ("," ++ member "Operation" (appendString (Operation v))
    ("," ++ member "Info" (appendString (Info v))
    ("," ++ member "Who" (appendString (Who v))
    ("," ++ member "Version" (appendString (Version v))
    ("," ++ member "Created" (timeText (Created v))
    ("," ++ member "Path" (appendString (Path v)) "}")))))))) as fuel.
  intros fuel Hfuel.
  do 7 (destruct fuel as [|fuel]; [lia|]). clear Hfuel.
  do 5 (rewrite object_member by (try apply quotable_key; reflexivity);
        match goal with |- context [field ?k] =>
          let f := eval vm_compute in (field k) in change (field k) with f
        end;
        (erewrite value_string;
           [|discriminate|apply quotable_appendString; eassumption
            |apply unquote_appendString; eassumption]);
        rewrite append_cons, append_empty_l;
        change (skipSpace (String "," ?z)) with (String "," z); cbv iota;
        change (Ascii.eqb "," ",") with true; cbv iota).
  rewrite object_member by (try apply quotable_key; reflexivity).
  change (field "Created") with (Some fCreated).
  rewrite (value_time _ (Created v)).
  2:{ apply quotable_plain, plain_appendFormatRFC3339. }
  2:{ now apply UnmarshalJSON_MarshalJSON. }
  rewrite append_cons, append_empty_l.
  change (skipSpace (String "," ?z)) with (String "," z). cbv iota.
  change (Ascii.eqb "," ",") with true. cbv iota.
  rewrite object_member by (try apply quotable_key; reflexivity).
  change (field "Path") with (Some fPath).
  erewrite value_string;
    [|discriminate|apply quotable_appendString; eassumption
     |apply unquote_appendString; eassumption].
  change (skipSpace "}") with "}". cbv iota.
  change (Ascii.eqb "}" ",") with false. cbv iota.
  now destruct v.
Qed.

(** The round trip: what [json.Marshal] writes for a value JSON can carry,
    [json.Unmarshal] reads back as that value, whatever it is read into. *)
Lemma Marshal_Unmarshal v :
  representable v = true →
  ∃ text, Marshal v = (text, None) ∧ ∀ into, Unmarshal text into = (v, None).
Proof.
  intros Hv. exists (document v). split; [now apply Marshal_representable|].
  intros into. now apply Unmarshal_document.
Qed.

End Documents.

(** * LOCK, with the codec of the library *)

Section LockResponses.
Context {B : Type} `{!Backend B} {lib : json.Library}.
#[local] Existing Instance encoding.codec.


End LockResponses.

Section LockExamples.
#[local] Existing Instance example.library.
#[local] Existing Instance encoding.codec.
#[local] Existing Instance memory.backend.


(** The body of that answer, and the answer to the same request when the
    lock is free. *)
Example denied_lock_names_the_holder :
  let request := example.request "LOCK" (tabulated.document tabulated.bob) [] in
  let h := serveHTTP example.comment "auth" example.password in
  serve h request (memory.mkStore (Some "old") (Some example.holder))
  = ({| code := 409;
        payload :=
          ("{" ++ member "ID" "f3a1-7c"
           ("," ++ member "Operation" "OperationTypeApply"
           ("," ++ member "Info" "plan \u0026 apply \u003cprod\u003e"
           ("," ++ member "Who" "alice@build"
           ("," ++ member "Version" "1.5.7"
           ("," ++ member "Created" "2023-11-05T07:08:09.12+01:00"
           ("," ++ member "Path" "env/prod.tfstate" "}"))))))) |},
     memory.mkStore (Some "old") (Some example.holder),
     [CallLockable; CallLock tabulated.bob])
  ∧ serve h request (memory.mkStore (Some "old") None)
    = ({| code := 200; payload := "" |},
       memory.mkStore (Some "old") (Some tabulated.bob),
       [CallLockable; CallLock tabulated.bob]).
Proof. vm_compute. split; reflexivity. Qed.

End LockExamples.
